(** * The release build pipeline of build-scripts/build.py

    A shallow embedding of the build script: the script's functions become
    computations in a state-and-exception monad over a world made of a file
    system, the trace of the external operations invoked so far and the log
    written by [info].  Everything the script imports from outside
    ([util], [signing], the process environment, the external tools) is
    collected in a [Host] record. *)

From Stdlib Require Import Ascii.
From stdpp Require Import gmap strings list fin_maps pretty.
Set Warnings "-register-all,-clear-no-such-hyp".
Local Open Scope string_scope.
Local Open Scope list_scope.

(** ** Python strings *)

(** [s.split(sep)] for a one-character separator. *)
Fixpoint split_on (sep : ascii) (s : string) : list string :=
  match s with
  | EmptyString => [EmptyString]
  | String c s' =>
      if Ascii.eqb c sep then EmptyString :: split_on sep s'
      else match split_on sep s' with
           | [] => [String c EmptyString]
           | w :: ws => String c w :: ws
           end
  end.

(** [sep.join(l)]. *)
Fixpoint join (sep : string) (l : list string) : string :=
  match l with
  | [] => ""
  | [x] => x
  | x :: l' => x +:+ sep +:+ join sep l'
  end.

(** [s.removesuffix(suffix)]. *)
Definition removesuffix (s suffix : string) : string :=
  let ls := String.list_ascii_of_string s in
  let lf := String.list_ascii_of_string suffix in
  if bool_decide (lf `suffix_of` ls)
  then String.string_of_list_ascii (take (length ls - length lf) ls)
  else s.

Definition starts_with_slash (s : string) : bool :=
  match s with
  | String c _ => Ascii.eqb c "/"
  | EmptyString => false
  end.

(** ** pathlib paths *)

(** A path is a list of components, anchored at the root or relative to the
    directory the script runs in. *)
Record Path := MkPath { anchored : bool; parts : list string }.

Global Instance Path_eq_dec : EqDecision Path.
Proof. solve_decision. Defined.

(** [pathlib.Path(s)]: empty and "." components are dropped. *)
Definition Path_of (s : string) : Path :=
  MkPath (starts_with_slash s)
         (filter (λ c, c ≠ "" ∧ c ≠ ".") (split_on "/" s)).

(** [p / q] and [p.joinpath(q)]: an anchored right operand replaces [p]. *)
Definition joinpath (p q : Path) : Path :=
  if anchored q then q else MkPath (anchored p) (parts p ++ parts q).

Notation "p </> s" := (joinpath p (Path_of s)) (at level 40, left associativity).

(** [p.name] *)
Definition name (p : Path) : string := List.last (parts p) "".

(** [str(p)] *)
Definition str (p : Path) : string :=
  if anchored p then "/" +:+ join "/" (parts p)
  else match parts p with [] => "." | _ => join "/" (parts p) end.

(** ** JSON values, as [json.loads] returns them *)

Inductive json :=
| JNull
| JBool (b : bool)
| JInt (z : Z)
| JStr (s : string)
| JArr (l : list json)
| JObj (m : gmap string json).

(** ** External operations and exceptions *)

Inductive Arg := AStr (s : string) | APath (p : Path).
Coercion AStr : string >-> Arg.
Coercion APath : Path >-> Arg.

Global Instance Arg_eq_dec : EqDecision Arg.
Proof. solve_decision. Defined.

Inductive SigningType := IME | APP | DMG.

Global Instance SigningType_eq_dec : EqDecision SigningType.
Proof. solve_decision. Defined.

Record SigningData := {
  bucket_name : json;
  aws_account_id : json;
  notarizing_secret_id : json;
  signing_request_queue_name : json;
  signing_role_name : json;
}.

(** What leaves the process: a command line, or a call into the signing
    module. *)
Inductive Event :=
| Run (args : list Arg) (cwd : option string) (env : option (gmap string string))
| RunOutput (args : list Arg)
| SignFile (file : Path) (ty : SigningType) (sd : SigningData)
| NotarizeFile (file : Path) (sd : SigningData)
| RebundleDmg (app_path dmg_path : Path).

(** The command line [args] starts with the words [ws]. *)
Definition starts (ws : list string) (args : list Arg) : bool :=
  bool_decide ((AStr <$> ws) `prefix_of` args).

Definition runs (ws : list string) (ev : Event) : bool :=
  match ev with Run args _ _ => starts ws args | _ => false end.

Inductive errno := ENOENT | EEXIST | ENOTDIR | EISDIR | EPERM.

Inductive exn :=
| ValueError (msg : string)
| KeyError (key : string)
| TypeError
| JSONDecodeError
| IndexError
| OSError (e : errno) (p : list string)
| ShutilError (src dst : list string)
| ExternalError (ev : Event).

Inductive Result (A : Type) :=
| Ok (a : A)
| Raise (e : exn).
Arguments Ok {A} a.
Arguments Raise {A} e.

Definition is_Ok {A} (r : Result A) : bool :=
  match r with Ok _ => true | Raise _ => false end.

(** ** The file system *)

(** A regular file holds bytes, or a property list (the metadata file of a
    bundle), kept as its dictionary. *)
Inductive content :=
| Bytes (s : string)
| Plist (entries : gmap string string).

Global Instance content_eq_dec : EqDecision content.
Proof. solve_decision. Defined.

Inductive node := File (c : content) | Dir.

Global Instance node_eq_dec : EqDecision node.
Proof. solve_decision. Defined.

Abbreviation FS := (gmap (list string) node).

Definition is_dir (fs : FS) (p : list string) : bool :=
  match fs !! p with Some Dir => true | _ => false end.

Definition is_file (fs : FS) (p : list string) : bool :=
  match fs !! p with Some (File _) => true | _ => false end.

Definition parent (p : list string) : list string := removelast p.

(** [[]; [a]; [a; b]; ...; p] *)
Definition prefixes (p : list string) : list (list string) :=
  (λ k, take k p) <$> seq 0 (S (length p)).

Fixpoint strip_prefix (pre l : list string) : option (list string) :=
  match pre, l with
  | [], _ => Some l
  | a :: pre', b :: l' => if decide (a = b) then strip_prefix pre' l' else None
  | _ :: _, [] => None
  end.

(** [os.makedirs(p, exist_ok=True)] and [Path.mkdir(parents=True,
    exist_ok=True)]: missing ancestors are created; a regular file on the way
    is an error. *)
Definition makedirs (p : list string) (fs : FS) : Result FS :=
  match list_find (λ q, is_file fs q = true) (prefixes p) with
  | Some (_, q) => Raise (OSError (if decide (q = p) then EEXIST else ENOTDIR) q)
  | None => Ok (foldr (λ q acc, <[q := Dir]> acc) fs (prefixes p))
  end.

(** Opening [p] for writing. *)
Definition write_file (p : list string) (c : content) (fs : FS) : Result FS :=
  match fs !! p with
  | Some Dir => Raise (OSError EISDIR p)
  | _ =>
      match fs !! parent p with
      | Some Dir => Ok (<[p := File c]> fs)
      | Some (File _) => Raise (OSError ENOTDIR p)
      | None => Raise (OSError ENOENT p)
      end
  end.

(** [shutil.rmtree(p, ignore_errors=True)]: a directory goes with all it
    contains; anything else is an ignored error. *)
Definition rmtree (p : list string) (fs : FS) : FS :=
  if is_dir fs p then filter (λ kv, ¬ (p `prefix_of` kv.1)) fs else fs.

(** The entries below [src], copied to the same relative place below [dst]. *)
Definition graft (src dst : list string) (fs : FS) : FS :=
  map_fold (λ p n acc,
              match strip_prefix src p with
              | Some rel => <[dst ++ rel := n]> acc
              | None => acc
              end) fs fs.

(** An entry below [src] meets an entry of the other kind at its
    destination. *)
Definition clashes (src dst : list string) (fs : FS) : bool :=
  map_fold (λ p n acc,
              match strip_prefix src p with
              | Some rel =>
                  match n, fs !! (dst ++ rel) with
                  | Dir, Some (File _) | File _, Some Dir => true
                  | _, _ => acc
                  end
              | None => acc
              end) false fs.

(** [shutil.copytree(src, dst, dirs_exist_ok=b)].  The model stops at a clash
    of kinds between the two trees (shutil goes on with the remaining entries
    before it raises, and nests a file that meets a directory; no tree of the
    pipeline has that shape). *)
Definition copytree (src dst : list string) (dirs_exist_ok : bool) (fs : FS) : Result FS :=
  match fs !! src with
  | None => Raise (OSError ENOENT src)
  | Some (File _) => Raise (OSError ENOTDIR src)
  | Some Dir =>
      if negb dirs_exist_ok && bool_decide (is_Some (fs !! dst))
      then Raise (OSError EEXIST dst)
      else match makedirs dst fs with
           | Raise e => Raise e
           | Ok fs1 =>
               if clashes src dst fs1 then Raise (ShutilError src dst)
               else Ok (graft src dst fs1)
           end
  end.

(** [shutil.copy2(src, dst)]: into [dst] when it is a directory, onto [dst]
    otherwise. *)
Definition copy2 (src dst : list string) (fs : FS) : Result FS :=
  match fs !! src with
  | None => Raise (OSError ENOENT src)
  | Some Dir => Raise (OSError EISDIR src)
  | Some (File c) =>
      let target := if is_dir fs dst then dst ++ [List.last src ""] else dst in
      write_file target c fs
  end.

(** [Path.unlink(missing_ok=True)] *)
Definition unlink_file (is_linux : bool) (p : list string) (fs : FS) : Result FS :=
  match fs !! p with
  | Some Dir => Raise (OSError (if is_linux then EISDIR else EPERM) p)
  | _ => Ok (delete p fs)
  end.

(** ** The property-list tools of macOS

    [defaults write file key value...] sets a key of the property list,
    replacing a previous value; [plutil -insert key -type value file] adds a
    key and fails when the key is already there.  [None]: the tool exits with
    an error. *)

Definition arg_str (a : Arg) : string :=
  match a with AStr s => s | APath p => str p end.

Definition defaults_write (file : list string) (k : string) (v : list Arg) (fs : FS)
    : option (string * FS) :=
  match fs !! file with
  | Some (File (Plist d)) =>
      Some ("", <[file := File (Plist (<[k := join " " (arg_str <$> v)]> d))]> fs)
  | _ => None
  end.

Definition plutil_insert (file : list string) (k : string) (v : list Arg) (fs : FS)
    : option (string * FS) :=
  match fs !! file with
  | Some (File (Plist d)) =>
      match d !! k with
      | Some _ => None
      | None => Some ("", <[file := File (Plist (<[k := join " " (arg_str <$> v)]> d))]> fs)
      end
  | _ => None
  end.

(** ** The host and the world *)

(** What the script takes from its surroundings: the constants and helpers of
    [util] that are not part of the script, the process environment and
    command line, the clock, the [json] codec, and the outcome of every
    external operation on the current file system ([None]: the operation
    failed; otherwise its standard output and the file system it leaves). *)
Record Host := {
  cwd : list string;
  IS_DARWIN : bool;
  IS_LINUX : bool;
  os_environ : gmap string string;
  argv : list string;
  now_isoformat : string;
  json_loads : string → option json;
  json_dumps : json → string;
  format_value : json → string;
  n : json → string → bool;
  respond : Event → FS → option (string * FS);
}.

Record World := MkWorld {
  fs : FS;
  trace : list Event;
  log : list string;
}.

(** ** The monad of the script: state and exceptions *)

Definition M (A : Type) : Type := World → Result A * World.

Definition ret {A} (a : A) : M A := λ w, (Ok a, w).

Definition bind {A B} (m : M A) (k : A → M B) : M B :=
  λ w, match m w with
       | (Ok a, w') => k a w'
       | (Raise e, w') => (Raise e, w')
       end.

Definition raise {A} (e : exn) : M A := λ w, (Raise e, w).

Definition lift {A} (r : Result A) : M A :=
  match r with Ok a => ret a | Raise e => raise e end.

Declare Scope py_scope.
Delimit Scope py_scope with py.
Notation "x ← y ; z" := (bind y (λ x : _, z))
  (at level 20, y at level 100, z at level 200, only parsing) : py_scope.
Notation "x ;; z" := (bind x (λ _, z))
  (at level 100, z at level 200, only parsing, right associativity) : py_scope.
Local Open Scope py_scope.

(** [for x in l: body x] *)
Fixpoint for_each {A} (l : list A) (body : A → M unit) : M unit :=
  match l with
  | [] => ret tt
  | x :: l' => body x ;; for_each l' body
  end.

(** The result and the final world of a run. *)
Definition result_of {A} (m : M A) (w : World) : Result A := (m w).1.
Definition world_after {A} (m : M A) (w : World) : World := (m w).2.

(** ** Python values *)

(** [v[k]] for a string key. *)
Definition getitem (v : json) (k : string) : Result json :=
  match v with
  | JObj m => match m !! k with Some x => Ok x | None => Raise (KeyError k) end
  | _ => Raise TypeError
  end.

(** The elements a [for] loop draws from a value. *)
Definition py_iter (v : json) : Result (list json) :=
  match v with
  | JArr l => Ok l
  | JObj m => Ok ((λ kv, JStr kv.1) <$> map_to_list m)
  | JStr s => Ok ((λ c, JStr (String c "")) <$> String.list_ascii_of_string s)
  | _ => Raise TypeError
  end.

(** [v == s] for a string [s]. *)
Definition eq_str (v : json) (s : string) : bool :=
  match v with JStr s' => bool_decide (s' = s) | _ => false end.

(** [x or y] on an optional string. *)
Definition or_else (x : option string) (y : string) : string :=
  match x with
  | Some (String c s) => String c s
  | _ => y
  end.

(** Truth value of an optional list. *)
Definition truthy {A} (x : option (list A)) : bool :=
  match x with Some (_ :: _) => true | _ => false end.

(** [p.with_name(nm)] *)
Definition with_name (p : Path) (nm : string) : Result Path :=
  if bool_decide (name p = "") then Raise (ValueError "empty name")
  else Ok (MkPath (anchored p) (removelast (parts p) ++ [nm])).

(** [repr] of a list of strings and of an optional one, as an f-string
    prints them. *)
Definition repr_list (l : list string) : string :=
  "[" +:+ join ", " ((λ s, "'" +:+ s +:+ "'") <$> l) +:+ "]".

Definition fmt_features (features : option (list string)) : string :=
  match features with Some l => repr_list l | None => "None" end.

Definition fmt_bool (b : bool) : string := if b then "True" else "False".

(** ** The script *)

Section Script.
Context (H : Host).

(** Where a path lives in the file system. *)
Definition resolve (p : Path) : list string :=
  if anchored p then parts p else cwd H ++ parts p.

(** [Path("build").absolute()] *)
Definition OUTDIR : Path := MkPath true (cwd H ++ parts (Path_of "build")).

(** *** Primitive effects *)

Definition on_fs (f : FS → Result FS) : M unit :=
  λ w, match f (fs w) with
       | Ok fs' => (Ok tt, MkWorld fs' (trace w) (log w))
       | Raise e => (Raise e, w)
       end.

(** An external operation is recorded in the trace when it is invoked,
    whether it succeeds or not; a failed one leaves the file system as it
    was. *)
Definition external (ev : Event) : M string :=
  λ w, match respond H ev (fs w) with
       | Some (out, fs') => (Ok out, MkWorld fs' (trace w ++ [ev]) (log w))
       | None => (Raise (ExternalError ev), MkWorld (fs w) (trace w ++ [ev]) (log w))
       end.

(** Modelled from the spec: [util.info], [util.run_cmd] and
    [util.run_cmd_output] are not part of the script.  [info] only logs; a
    command that exits with a non-zero status is fatal to the caller. *)
Definition info (msg : string) : M unit :=
  λ w, (Ok tt, MkWorld (fs w) (trace w) (log w ++ [msg])).

Definition run_cmd (args : list Arg) (cwd : option string)
    (env : option (gmap string string)) : M unit :=
  external (Run args cwd env) ;; ret tt.

Definition run_cmd_output (args : list Arg) : M string :=
  external (RunOutput args).

(** Modelled from the spec: the three entry points of the [signing] module,
    each one blocking call to the external trust service that either
    completes or fails. *)
Definition sign_file (file : Path) (ty : SigningType) (sd : SigningData) : M unit :=
  external (SignFile file ty sd) ;; ret tt.

Definition notarize_file (file : Path) (sd : SigningData) : M unit :=
  external (NotarizeFile file sd) ;; ret tt.

Definition rebundle_dmg (app_path dmg_path : Path) : M unit :=
  external (RebundleDmg app_path dmg_path) ;; ret tt.

(** pathlib and shutil, on resolved paths *)
Definition mkdir (p : Path) : M unit := on_fs (makedirs (resolve p)).
Definition write_text (p : Path) (s : string) : M unit :=
  on_fs (write_file (resolve p) (Bytes s)).
Definition unlink (p : Path) : M unit := on_fs (unlink_file (IS_LINUX H) (resolve p)).
Definition shutil_rmtree (p : Path) : M unit := on_fs (λ fs, Ok (rmtree (resolve p) fs)).
Definition shutil_copytree (src dst : Path) (dirs_exist_ok : bool) : M unit :=
  on_fs (copytree (resolve src) (resolve dst) dirs_exist_ok).
Definition shutil_copy2 (src dst : Path) : M unit :=
  on_fs (copy2 (resolve src) (resolve dst)).

Definition loads (s : string) : M json :=
  match json_loads H s with Some v => ret v | None => raise JSONDecodeError end.

(** *** build_npm_packages *)

Definition build_npm_packages : M (list (string * Path)) :=
  run_cmd [AStr "pnpm"; AStr "install"; AStr "--frozen-lockfile"] None None ;;
  run_cmd [AStr "pnpm"; AStr "build"] None None ;;
  let dashboard_path := OUTDIR </> "dashboard" in
  shutil_rmtree dashboard_path ;;
  shutil_copytree (Path_of "apps/dashboard/dist") dashboard_path false ;;
  let autocomplete_path := OUTDIR </> "autocomplete" in
  shutil_rmtree autocomplete_path ;;
  shutil_copytree (Path_of "apps/autocomplete/dist") autocomplete_path false ;;
  ret [("dashboard", dashboard_path); ("autocomplete", autocomplete_path)].

(** *** rust_env *)

Definition rust_env (linker : option string) : gmap string string :=
  let rustflags := ["-C force-frame-pointers=yes"] in
  let rustflags :=
    match linker with
    | Some (String c s) => rustflags ++ ["-C link-arg=-fuse-ld=" +:+ String c s]
    | _ => rustflags
    end in
  let rustflags :=
    if IS_LINUX H
    then rustflags ++ ["-C link-arg=-Wl,--compress-debug-sections=zlib"]
    else rustflags in
  let env : gmap string string :=
    <["CARGO_NET_GIT_FETCH_WITH_CLI" := "true"]>
    (<["RUSTFLAGS" := join " " rustflags]>
    (<["CARGO_PROFILE_RELEASE_LTO" := "thin"]>
    (<["CARGO_INCREMENTAL" := "0"]> ∅))) in
  if IS_DARWIN H then <["MACOSX_DEPLOYMENT_TARGET" := "10.13"]> env else env.

(** [{**os.environ, **d}] *)
Definition over_environ (d : gmap string string) : gmap string string :=
  d ∪ os_environ H.

(** *** build_cargo_bin *)

Definition targets : option (list string) :=
  if IS_DARWIN H then Some ["x86_64-apple-darwin"; "aarch64-apple-darwin"]
  else if IS_LINUX H then Some ["x86_64-unknown-linux-gnu"]
  else None.

Definition features_args (features : option (list string)) : list Arg :=
  if truthy features
  then [AStr "--features"; AStr (join "," (default [] features))]
  else [].

Definition cargo_build_args (package : string) (targets : list string)
    (features : option (list string)) : list Arg :=
  [AStr "cargo"; AStr "build"; AStr "--release"; AStr "--locked";
   AStr "--package"; AStr package]
  ++ flat_map (λ target, [AStr "--target"; AStr target]) targets
  ++ features_args features.

Definition lipo_args (package : string) (outpath : Path) (targets : list string)
    : list Arg :=
  [AStr "lipo"; AStr "-create"; AStr "-output"; APath outpath]
  ++ ((λ target, AStr ("target/" +:+ target +:+ "/release/" +:+ package)) <$> targets).

Definition build_cargo_bin (package : string) (output_name : option string)
    (features : option (list string)) : M Path :=
  match targets with
  | None => raise (ValueError "Unsupported platform")
  | Some targets =>
      run_cmd (cargo_build_args package targets features) None
              (Some (over_environ (rust_env None))) ;;
      (* create "univeral" binary for macos *)
      if IS_DARWIN H then
        let outpath :=
          OUTDIR </> (or_else output_name package +:+ "-universal-apple-darwin") in
        run_cmd (lipo_args package outpath targets) None None ;;
        ret outpath
      else
        (* assumes linux *)
        let target_path := Path_of "target/x86_64-unknown-linux-gnu/release" </> package in
        let out_path := OUTDIR </> or_else output_name package in
        shutil_copy2 target_path out_path ;;
        ret out_path
  end.

(** *** run_cargo_tests *)

Definition cargo_test_args (features : option (list string)) : list Arg :=
  [AStr "cargo"; AStr "test"; AStr "--release"; AStr "--locked"]
  ++ features_args features.

Definition run_cargo_tests (features : option (list string)) : M unit :=
  run_cmd (cargo_test_args features) None
          (Some (<["RUST_BACKTRACE" := "1"]> (over_environ (rust_env None)))).

(** *** version and gen_manifest *)

Definition cargo_metadata_args : list Arg :=
  [AStr "cargo"; AStr "metadata"; AStr "--format-version"; AStr "1"; AStr "--no-deps"].

Fixpoint find_version (pkgs : list json) : Result json :=
  match pkgs with
  | [] => Raise (ValueError "Version not found")
  | pkg :: pkgs' =>
      match getitem pkg "name" with
      | Raise e => Raise e
      | Ok nm => if eq_str nm "fig_desktop" then getitem pkg "version"
                 else find_version pkgs'
      end
  end.

Definition version : M json :=
  output ← run_cmd_output cargo_metadata_args;
  data ← loads output;
  packages ← lift (getitem data "packages");
  pkgs ← lift (py_iter packages);
  lift (find_version pkgs).

Definition gen_manifest : M string :=
  let variant := "full" in
  dc_output ← run_cmd_output cargo_metadata_args;
  data ← loads dc_output;
  metadata ← lift (getitem data "metadata");
  dc ← lift (getitem metadata "channel");
  v ← version;
  ret (json_dumps H (JObj (list_to_map [
    ("managed_by", JStr "dmg");
    ("packaged_at", JStr (now_isoformat H));
    ("packaged_by", JStr "amazon");
    ("variant", JStr variant);
    ("version", v);
    ("kind", JStr "dmg");
    ("default_channel", dc)]))).

(** *** build_macos_ime *)

Definition build_macos_ime (signing_data : option SigningData) : M Path :=
  fig_input_method_bin ← build_cargo_bin "fig_input_method" None None;
  let input_method_app := Path_of "build/CodeWhispererInputMethod.app" in
  mkdir (input_method_app </> "Contents/MacOS") ;;
  shutil_copy2 fig_input_method_bin
               (input_method_app </> "Contents/MacOS/fig_input_method") ;;
  shutil_copy2 (Path_of "fig_input_method/Info.plist")
               (input_method_app </> "Contents/Info.plist") ;;
  shutil_copytree (Path_of "fig_input_method/resources")
                  (input_method_app </> "Contents/Resources") true ;;
  match signing_data with
  | Some signing_data =>
      info "Signing macos ime" ;;
      sign_file input_method_app IME signing_data ;;
      notarize_file input_method_app signing_data
  | None => ret tt
  end ;;
  ret input_method_app.

(** *** tauri_config *)

Definition tauri_config (cw_cli_path cwterm_path : Path) (target : string) : string :=
  json_dumps H (JObj {[ "tauri" := JObj {[ "bundle" := JObj (list_to_map [
    ("externalBin", JArr [
       JStr (removesuffix (str cw_cli_path) ("-" +:+ target));
       JStr (removesuffix (str cwterm_path) ("-" +:+ target))]);
    ("resources", JArr [JStr "manifest.json"])]) ]} ]}).

(** *** sign_and_rebundle_macos *)

Definition sign_and_rebundle_macos (app_path dmg_path : Path)
    (signing_data : SigningData) : M unit :=
  info "Signing app and dmg" ;;
  (* Sign the application *)
  sign_file app_path APP signing_data ;;
  (* Notarize the application *)
  notarize_file app_path signing_data ;;
  (* Rebundle the dmg file with the signed and notarized application *)
  rebundle_dmg app_path dmg_path ;;
  (* Sign the dmg *)
  sign_file dmg_path DMG signing_data ;;
  (* Notarize the dmg *)
  notarize_file dmg_path signing_data ;;
  info "Done signing!!".

(** *** build_desktop_app *)

Definition url_types_xml : string :=
"<array>
    <dict>
        <key>CFBundleURLName</key>
        <string>com.amazon.codewhisperer</string>
        <key>CFBundleURLSchemes</key>
        <array>
        <string>codewhisperer</string>
        </array>
    </dict>
    </array>
    ".

(** The four edits of the bundle's [Info.plist]. *)
Definition patch_metadata (info_plist_path : Path) : M unit :=
  (* Change the display name of the app *)
  run_cmd [AStr "defaults"; AStr "write"; APath info_plist_path;
           AStr "CFBundleDisplayName"; AStr "CodeWhisperer"] None None ;;
  run_cmd [AStr "defaults"; AStr "write"; APath info_plist_path;
           AStr "CFBundleName"; AStr "CodeWhisperer"] None None ;;
  (* Specifies the app is an "agent app" *)
  run_cmd [AStr "defaults"; AStr "write"; APath info_plist_path;
           AStr "LSUIElement"; AStr "-bool"; AStr "TRUE"] None None ;;
  (* Add codewhisperer:// association to bundle *)
  run_cmd [AStr "plutil"; AStr "-insert"; AStr "CFBundleURLTypes"; AStr "-xml";
           AStr url_types_xml; APath info_plist_path] None None.

Definition manifest_path : Path := Path_of "fig_desktop/manifest.json".
Definition tauri_config_path : Path := Path_of "fig_desktop/build-config.json".
Definition dmg_spec_path : Path := Path_of "bundle/dmg/spec.json".

Definition cargo_tauri_args (target : string) (features : option (list string))
    : list Arg :=
  [AStr "cargo-tauri"; AStr "build"; AStr "--config"; AStr "build-config.json";
   AStr "--target"; AStr target]
  ++ features_args features.

Definition dmg_spec (bundle_path : Path) : json :=
  JObj (list_to_map [
    ("title", JStr "CodeWhisperer");
    ("icon", JStr "VolumeIcon.icns");
    ("background", JStr "background.png");
    ("icon-size", JInt 160);
    ("format", JStr "ULFO");
    ("window", JObj {[ "size" := JObj (list_to_map [("width", JInt 660); ("height", JInt 400)]) ]});
    ("contents", JArr [
       JObj (list_to_map [("x", JInt 180); ("y", JInt 170); ("type", JStr "file");
                          ("path", JStr (str bundle_path))]);
       JObj (list_to_map [("x", JInt 480); ("y", JInt 170); ("type", JStr "link");
                          ("path", JStr "/Applications")])])]).

Definition build_desktop_app (cwterm_path cw_cli_path : Path)
    (npm_packages : list (string * Path)) (signing_data : option SigningData)
    (features : option (list string)) : M Path :=
  let target := "universal-apple-darwin" in

  info "Building macos ime" ;;
  ime_app ← build_macos_ime signing_data;

  info "Writing manifest" ;;
  manifest ← gen_manifest;
  write_text manifest_path manifest ;;

  info "Building tauri config" ;;
  write_text tauri_config_path (tauri_config cw_cli_path cwterm_path target) ;;

  info "Building fig_desktop" ;;
  run_cmd (cargo_tauri_args target features) (Some "fig_desktop")
          (Some (<["BUILD_DIR" := str OUTDIR]> (over_environ (rust_env None)))) ;;

  (* clean up *)
  unlink manifest_path ;;
  unlink tauri_config_path ;;

  let target_bundle :=
    Path_of ("target/" +:+ target +:+ "/release/bundle/macos/codewhisperer_desktop.app") in
  let bundle_path := OUTDIR </> "CodeWhisperer.app" in
  shutil_rmtree bundle_path ;;
  shutil_copytree target_bundle bundle_path false ;;

  let info_plist_path := bundle_path </> "Contents/Info.plist" in
  patch_metadata info_plist_path ;;

  info "Copying CodeWhispererInputMethod.app into bundle" ;;
  let helpers_dir := bundle_path </> "Contents/Helpers" in
  mkdir helpers_dir ;;
  shutil_copytree ime_app (helpers_dir </> "CodeWhispererInputMethod.app") false ;;

  info "Grabbing themes" ;;
  let theme_repo := OUTDIR </> "themes" in
  shutil_rmtree theme_repo ;;
  run_cmd [AStr "git"; AStr "clone"; AStr "https://github.com/withfig/themes.git";
           APath theme_repo] None None ;;
  shutil_copytree (theme_repo </> "themes") (bundle_path </> "Contents/Resources/themes")
                  false ;;

  for_each npm_packages (λ '(package, path),
    info ("Copying " +:+ package +:+ " into bundle") ;;
    shutil_copytree path (bundle_path </> "Contents/Resources" </> package) false) ;;

  write_text dmg_spec_path (json_dumps H (dmg_spec bundle_path)) ;;

  let dmg_path := OUTDIR </> "CodeWhisperer.dmg" in
  unlink dmg_path ;;

  run_cmd [AStr "pnpm"; AStr "appdmg"; APath dmg_spec_path; APath dmg_path] None None ;;

  unlink dmg_spec_path ;;

  match signing_data with
  | Some signing_data => sign_and_rebundle_macos bundle_path dmg_path signing_data
  | None => ret tt
  end ;;

  ret dmg_path.

(** *** linux_bundle *)

Definition icon_resolutions : list nat := [16; 22; 24; 32; 48; 64; 128; 256; 512].

Definition icon_source (res : nat) : Path :=
  Path_of ("fig_desktop/icons/" +:+ pretty res +:+ "x" +:+ pretty res +:+ ".png").

Definition icon_target (res : nat) : Path :=
  Path_of ("build/usr/share/icons/hicolor/" +:+ pretty res +:+ "x" +:+ pretty res
           +:+ "/apps/fig.png").

Definition linux_bundle (cwterm_path cw_cli_path codewhisperer_desktop_path : Path)
    (is_headless : bool) : M unit :=
  (if negb is_headless then
     for_each icon_resolutions (λ res, shutil_copy2 (icon_source res) (icon_target res))
   else ret tt) ;;

  info "Copying bundle files" ;;
  let bin_path := Path_of "build/usr/bin" in
  mkdir bin_path ;;
  shutil_copy2 cw_cli_path bin_path ;;
  shutil_copy2 cwterm_path bin_path ;;
  shutil_copytree (Path_of "bundle/linux/headless") OUTDIR true ;;
  if negb is_headless then
    shutil_copytree (Path_of "bundle/linux/desktop") OUTDIR true ;;
    shutil_copy2 codewhisperer_desktop_path bin_path
  else ret tt.

(** *** generate_sha *)

Definition item0 (l : list string) : Result string :=
  match l with x :: _ => Ok x | [] => Raise IndexError end.

Definition generate_sha (path : Path) : M Path :=
  shasum_output ← run_cmd_output [AStr "shasum"; AStr "-a"; AStr "256"; APath path];
  sha ← lift (item0 (split_on " " shasum_output));
  path ← lift (with_name path (name path +:+ ".sha256"));
  write_text path sha ;;
  ret path.

(** *** The module's entry point *)

(** [signing_data]: built when the three signing references are given. *)
Definition signing_data_of (build_args : json) : M (option SigningData) :=
  if n H build_args "signing_bucket"
     && n H build_args "signing_queue"
     && n H build_args "apple_id_secret"
  then
    bucket ← lift (getitem build_args "signing_bucket");
    account ← lift (getitem build_args "aws_account_id");
    secret ← lift (getitem build_args "apple_id_secret");
    queue ← lift (getitem build_args "signing_queue");
    role ← lift (getitem build_args "signing_role_name");
    ret (Some {| bucket_name := bucket;
                 aws_account_id := account;
                 notarizing_secret_id := secret;
                 signing_request_queue_name := queue;
                 signing_role_name := role |})
  else ret None.

Definition features_of (build_args : json) : option (list string) :=
  if n H build_args "gamma" then Some ["gamma"] else None.

(** The staging location, when an output bucket is given. *)
Definition staging_location_of (build_args : json) : M (option string) :=
  if n H build_args "output_bucket" then
    bucket ← lift (getitem build_args "output_bucket");
    let staging_location := "s3://" +:+ format_value H bucket +:+ "/staging/" in
    info ("Build complete, sending to " +:+ staging_location) ;;
    ret (Some staging_location)
  else ret None.

Definition s3_cp (file : Path) (staging_location : string) : M unit :=
  run_cmd [AStr "aws"; AStr "s3"; AStr "cp"; APath file; AStr staging_location] None None.

Definition main : M unit :=
  build_args ← loads (match argv H with _ :: a :: _ => a | _ => "{}" end);
  signing_data ← signing_data_of build_args;
  let features := features_of build_args in

  info ("Cargo features: " +:+ fmt_features features) ;;
  info ("Signing app: " +:+ fmt_bool (bool_decide (is_Some signing_data))) ;;

  mkdir OUTDIR ;;

  info "Building npm packages" ;;
  npm_packages ← build_npm_packages;

  info "Running cargo tests" ;;
  run_cargo_tests features ;;

  info "Building cw_cli" ;;
  cw_cli_path ← build_cargo_bin "cw_cli" (Some "cw") features;

  info "Building figterm" ;;
  cwterm_path ← build_cargo_bin "figterm" (Some "cwterm") features;

  if IS_DARWIN H then
    info "Building CodeWhisperer.dmg" ;;
    dmg_path ← build_desktop_app cwterm_path cw_cli_path npm_packages signing_data features;

    sha_path ← generate_sha dmg_path;

    staging ← staging_location_of build_args;
    match staging with
    | Some staging_location =>
        s3_cp dmg_path staging_location ;;
        s3_cp sha_path staging_location
    | None => ret tt
    end
  else if IS_LINUX H then
    staging ← staging_location_of build_args;
    match staging with
    | Some staging_location =>
        s3_cp cw_cli_path staging_location ;;
        s3_cp cwterm_path staging_location
    | None => ret tt
    end
  else ret tt.

End Script.

(** ** A concrete host

    A small repository checkout and stand-ins for the external tools, used to
    run the script on concrete inputs.  [fails] selects the external
    operations that fail. *)

Module Demo.

Definition root : list string := ["work"; "repo"].

Definition key (p : Path) : list string :=
  if anchored p then parts p else root ++ parts p.

Definition arg_key (a : Arg) : list string :=
  match a with AStr s => key (Path_of s) | APath p => key p end.

(** The values that follow each occurrence of [flag]. *)
Fixpoint opt_values (flag : string) (args : list Arg) : list string :=
  match args with
  | AStr f :: ((v :: _) as rest) =>
      if bool_decide (f = flag) then arg_str v :: opt_values flag rest
      else opt_values flag rest
  | _ :: rest => opt_values flag rest
  | [] => []
  end.

Definition add_dir (p : list string) (fs : FS) : FS :=
  foldr (λ q acc, <[q := Dir]> acc) fs (prefixes p).

Definition add_file (p : list string) (c : content) (fs : FS) : FS :=
  <[p := File c]> (add_dir (parent p) fs).

Definition digest (c : content) : string :=
  match c with
  | Bytes s => "5ha" +:+ pretty (String.length s)
  | Plist _ => "5ha-plist"
  end.

Definition newline : string := String (ascii_of_nat 10) "".

Definition tauri_bundle : string :=
  "target/universal-apple-darwin/release/bundle/macos/codewhisperer_desktop.app".

Definition run_tool (args : list Arg) (fs : FS) : option (string * FS) :=
  if starts ["cargo"; "build"] args then
    let package := default "" (head (opt_values "--package" args)) in
    Some ("", foldr (λ t acc,
                       add_file (key (Path_of ("target/" +:+ t +:+ "/release/" +:+ package)))
                                (Bytes (package +:+ "@" +:+ t)) acc)
                    fs (opt_values "--target" args))
  else if starts ["cargo"; "test"] args then Some ("", fs)
  else if starts ["lipo"; "-create"; "-output"] args then
    match drop 3 args with
    | out :: inputs =>
        if forallb (λ a, is_file fs (arg_key a)) inputs
        then Some ("", <[arg_key out := File (Bytes "universal")]> fs)
        else None
    | [] => None
    end
  else if starts ["cargo-tauri"; "build"] args then
    if is_file fs (key (Path_of "fig_desktop/manifest.json"))
       && is_file fs (key (Path_of "fig_desktop/build-config.json"))
    then Some ("", add_file (key (Path_of tauri_bundle </> "Contents/Info.plist"))
                            (Plist ∅) fs)
    else None
  else if starts ["defaults"; "write"] args then
    match drop 2 args with
    | file :: AStr k :: v => defaults_write (arg_key file) k v fs
    | _ => None
    end
  else if starts ["plutil"; "-insert"] args then
    match drop 2 args with
    | [AStr k; ty; v; file] => plutil_insert (arg_key file) k [ty; v] fs
    | _ => None
    end
  else if starts ["git"; "clone"] args then
    match drop 3 args with
    | [dst] => Some ("", add_file (arg_key dst ++ ["themes"; "dark.json"]) (Bytes "theme") fs)
    | _ => None
    end
  else if starts ["pnpm"; "appdmg"] args then
    match drop 2 args with
    | [spec; dmg] =>
        if is_file fs (arg_key spec)
        then Some ("", <[arg_key dmg := File (Bytes "disk image")]> fs)
        else None
    | _ => None
    end
  else if starts ["pnpm"] args then Some ("", fs)
  else if starts ["aws"; "s3"; "cp"] args then
    match drop 3 args with
    | file :: _ => if is_file fs (arg_key file) then Some ("", fs) else None
    | [] => None
    end
  else None.

Definition run_tool_output (args : list Arg) (fs : FS) : option (string * FS) :=
  if starts ["cargo"; "metadata"] args then Some ("cargo-metadata", fs)
  else if starts ["shasum"; "-a"; "256"] args then
    match drop 3 args with
    | [file] =>
        match fs !! arg_key file with
        | Some (File c) => Some (digest c +:+ "  " +:+ arg_str file +:+ newline, fs)
        | _ => None
        end
    | _ => None
    end
  else None.

Definition respond_ok (ev : Event) (fs : FS) : option (string * FS) :=
  match ev with
  | Run args _ _ => run_tool args fs
  | RunOutput args => run_tool_output args fs
  | SignFile file _ _ | NotarizeFile file _ =>
      if bool_decide (is_Some (fs !! key file)) then Some ("", fs) else None
  | RebundleDmg app_path dmg_path =>
      if is_dir fs (key app_path)
      then Some ("", <[key dmg_path := File (Bytes "disk image of the signed app")]> fs)
      else None
  end.

Definition cargo_metadata : json :=
  JObj (list_to_map [
    ("metadata", JObj {[ "channel" := JStr "stable" ]});
    ("packages", JArr [
       JObj (list_to_map [("name", JStr "fig_input_method"); ("version", JStr "0.1.0")]);
       JObj (list_to_map [("name", JStr "fig_desktop"); ("version", JStr "1.2.3")])])]).

Definition signing_args : json :=
  JObj (list_to_map [
    ("signing_bucket", JStr "sign-bucket");
    ("signing_queue", JStr "sign-queue");
    ("apple_id_secret", JStr "apple-secret");
    ("aws_account_id", JStr "123456789012");
    ("signing_role_name", JStr "signer");
    ("output_bucket", JStr "releases")]).

Definition the_json_loads (s : string) : option json :=
  if bool_decide (s = "{}") then Some (JObj ∅)
  else if bool_decide (s = "cargo-metadata") then Some cargo_metadata
  else if bool_decide (s = "signing") then Some signing_args
  else if bool_decide (s = "bucket") then Some (JObj {[ "output_bucket" := JStr "releases" ]})
  else None.

(** A key counts as given when it is present with a value other than
    [null]. *)
Definition given (v : json) (k : string) : bool :=
  match v with
  | JObj m => match m !! k with Some JNull | None => false | Some _ => true end
  | _ => false
  end.

Definition host (darwin linux : bool) (args : list string) (fails : Event → bool) : Host := {|
  cwd := root;
  IS_DARWIN := darwin;
  IS_LINUX := linux;
  os_environ := {[ "PATH" := "/usr/bin" ]};
  argv := "build.py" :: args;
  now_isoformat := "2024-01-01T00:00:00";
  json_loads := the_json_loads;
  json_dumps := λ _, "{...}";
  format_value := λ v, match v with JStr s => s | _ => "?" end;
  n := given;
  respond := λ ev fs, if fails ev then None else respond_ok ev fs;
|}.

Definition never (_ : Event) : bool := false.

Definition checkout : FS :=
  foldr (λ '(p, c), add_file (root ++ p) c) ∅ [
    (["apps"; "dashboard"; "dist"; "index.html"], Bytes "dashboard");
    (["apps"; "autocomplete"; "dist"; "index.html"], Bytes "autocomplete");
    (["fig_input_method"; "Info.plist"], Plist ∅);
    (["fig_input_method"; "resources"; "icon.icns"], Bytes "icon");
    (["fig_desktop"; "Cargo.toml"], Bytes "[package]");
    (["bundle"; "dmg"; "background.png"], Bytes "png")].

Definition start (fs : FS) : World := MkWorld fs [] [].

(** A checkout whose staging directory holds a file of an earlier run. *)
Definition stale_file : list string := root ++ ["build"; "stale.txt"].

Definition stale_checkout : FS := add_file stale_file (Bytes "left over") checkout.

(** The checkout with an empty staging directory. *)
Definition staged : FS := add_dir (root ++ ["build"]) checkout.


(** A freshly built bundle: its metadata file has none of the patched keys. *)
Definition info_plist : Path :=
  MkPath true (root ++ ["build"; "CodeWhisperer.app"; "Contents"; "Info.plist"]).

Definition fresh_bundle : FS :=
  add_file (key info_plist) (Plist {[ "CFBundleExecutable" := "codewhisperer_desktop" ]})
           checkout.


(** The checkout once the web assets have been fetched into the staging
    directory, and the arguments the entry point passes to the bundle
    assembly. *)
Definition prepared : FS :=
  add_file (root ++ ["build"; "dashboard"; "index.html"]) (Bytes "dashboard")
    (add_file (root ++ ["build"; "autocomplete"; "index.html"]) (Bytes "autocomplete")
       checkout).

Definition staging : Path := MkPath true (root ++ ["build"]).

Definition cw_cli : Path := staging </> "cw-universal-apple-darwin".
Definition cwterm : Path := staging </> "cwterm-universal-apple-darwin".

Definition assets : list (string * Path) :=
  [("dashboard", staging </> "dashboard"); ("autocomplete", staging </> "autocomplete")].


(** A Linux checkout: the icons of the desktop application with the
    directories that receive them, the two overlays, and the three binaries in
    the staging directory. *)
Definition linux_checkout : FS :=
  foldr (λ res acc, add_dir (parent (key (icon_target res)))
                      (add_file (key (icon_source res)) (Bytes "icon") acc))
    (foldr (λ '(p, c), add_file (root ++ p) c) checkout [
       (["bundle"; "linux"; "headless"; "usr"; "share"; "licenses"; "cw"; "LICENSE"],
        Bytes "license");
       (["bundle"; "linux"; "desktop"; "usr"; "share"; "applications"; "cw.desktop"],
        Bytes "[Desktop Entry]");
       (["build"; "cw"], Bytes "cw");
       (["build"; "cwterm"], Bytes "cwterm");
       (["build"; "codewhisperer_desktop"], Bytes "desktop")])
    icon_resolutions.

Definition linux_cw : Path := staging </> "cw".
Definition linux_cwterm : Path := staging </> "cwterm".
Definition linux_desktop : Path := staging </> "codewhisperer_desktop".


(** A host whose command line carries the configuration [blob] and whose
    workspace metadata is [metadata]. *)
Definition host_with (blob metadata : json) (darwin linux : bool) : Host := {|
  cwd := root;
  IS_DARWIN := darwin;
  IS_LINUX := linux;
  os_environ := {[ "PATH" := "/usr/bin"; "RUSTFLAGS" := "-C opt-level=0" ]};
  argv := ["build.py"; "blob"];
  now_isoformat := "2024-01-01T00:00:00";
  json_loads := λ s, if bool_decide (s = "blob") then Some blob
                     else if bool_decide (s = "cargo-metadata") then Some metadata
                     else the_json_loads s;
  json_dumps := λ _, "{...}";
  format_value := λ v, match v with JStr s => s | _ => "?" end;
  n := given;
  respond := respond_ok;
|}.

(** A signing configuration without the account id and the role name. *)
Definition incomplete_signing : gmap string json :=
  list_to_map [
    ("signing_bucket", JStr "sign-bucket");
    ("signing_queue", JStr "sign-queue");
    ("apple_id_secret", JStr "apple-secret")].

Definition the_signing_data : SigningData := {|
  bucket_name := JStr "sign-bucket";
  aws_account_id := JStr "123456789012";
  notarizing_secret_id := JStr "apple-secret";
  signing_request_queue_name := JStr "sign-queue";
  signing_role_name := JStr "signer" |}.


End Demo.

(** * Vocabulary of the statements *)

(** The events a computation adds to the trace. *)
Definition events_of {A} (m : M A) (w : World) : list Event :=
  drop (length (trace w)) (trace (world_after m w)).

(** An exception of the file-system layer. *)
Definition fs_error (e : exn) : Prop :=
  match e with OSError _ _ | ShutilError _ _ => True | _ => False end.

(** A tree entry meets an entry of the other kind. *)
Definition clash (x : node) (y : option node) : bool :=
  match x, y with
  | Dir, Some (File _) | File _, Some Dir => true
  | _, _ => false
  end.

(** A call into the signing module. *)
Definition is_signing (ev : Event) : bool :=
  match ev with
  | SignFile _ _ _ | NotarizeFile _ _ | RebundleDmg _ _ => true
  | _ => false
  end.

(** The five operations of the signing stage, in order. *)
Definition signing_plan (app_path dmg_path : Path) (sd : SigningData) : list Event :=
  [SignFile app_path APP sd;
   NotarizeFile app_path sd;
   RebundleDmg app_path dmg_path;
   SignFile dmg_path DMG sd;
   NotarizeFile dmg_path sd].

(** How the world may move: the file system along [Rfs], the trace by
    events that satisfy [Pev]. *)
Definition evolves (Rfs : relation FS) (Pev : Event → Prop) (w w' : World) : Prop :=
  Rfs (fs w) (fs w') ∧ ∃ evs, trace w' = trace w ++ evs ∧ Forall Pev evs.

(** Every run of [m] moves the world that way, whatever its result. *)
Definition steady (Rfs : relation FS) (Pev : Event → Prop) {A} (m : M A) : Prop :=
  ∀ w, evolves Rfs Pev w (world_after m w).

(** Partial correctness with a postcondition for each kind of exit. *)
Definition hoare {A} (P : World → Prop) (m : M A)
    (Q : A → World → Prop) (E : exn → World → Prop) : Prop :=
  ∀ w, P w → match m w with
             | (Ok a, w') => Q a w'
             | (Raise e, w') => E e w'
             end.

(** No constraint on the file system. *)
Definition any_fs : relation FS := λ _ _, True.

(** A signing-module call on one of [paths]. *)
Definition concerns (paths : list Path) (ev : Event) : bool :=
  match ev with
  | SignFile file _ _ | NotarizeFile file _ => bool_decide (file ∈ paths)
  | RebundleDmg app_path dmg_path => bool_decide (app_path ∈ paths ∨ dmg_path ∈ paths)
  | _ => false
  end.

(** C9 as stated: whatever was below the staging directory before the run is
    gone once [OUTDIR.mkdir(parents=True, exist_ok=True)] has run. *)
Definition staging_cleared (H : Host) (w : World) : Prop :=
  ∀ q, resolve H (OUTDIR H) `prefix_of` q → q ≠ resolve H (OUTDIR H) →
       is_Some (fs w !! q) →
       fs (world_after (mkdir H (OUTDIR H)) w) !! q = None.

(** The fat-binary merge tool refuses to run when one of its inputs is not a
    file. *)
Definition merge_needs_inputs (H : Host) : Prop :=
  ∀ (out : Path) (inputs : list string) (fs : FS),
    Exists (λ i, is_file fs (resolve H (Path_of i)) = false) inputs →
    respond H (Run ([AStr "lipo"; AStr "-create"; AStr "-output"; APath out]
                    ++ (AStr <$> inputs)) None None) fs = None.


(** The host runs the two property-list tools as modelled above. *)
Definition plist_tools (H : Host) : Prop :=
  (∀ (file : Path) (k : string) (v : list Arg) (fs : FS),
     respond H (Run ([AStr "defaults"; AStr "write"; APath file; AStr k] ++ v) None None) fs
     = defaults_write (resolve H file) k v fs)
  ∧ (∀ (file : Path) (k : string) (ty v : Arg) (fs : FS),
       respond H (Run [AStr "plutil"; AStr "-insert"; AStr k; ty; v; APath file] None None) fs
       = plutil_insert (resolve H file) k [ty; v] fs).

(** The values the metadata patch sets. *)
Definition patched (d : gmap string string) : Prop :=
  d !! "CFBundleDisplayName" = Some "CodeWhisperer"
  ∧ d !! "CFBundleName" = Some "CodeWhisperer"
  ∧ d !! "LSUIElement" = Some "-bool TRUE"
  ∧ d !! "CFBundleURLTypes" = Some ("-xml " +:+ url_types_xml).

(** C8 as stated: on a bundle that has been patched, patching again succeeds
    and leaves the metadata file as it was. *)
Definition patch_idempotent (H : Host) (info_plist_path : Path) (w : World) : Prop :=
  ∀ w1, patch_metadata H info_plist_path w = (Ok tt, w1) →
        ∃ w2, patch_metadata H info_plist_path w1 = (Ok tt, w2)
              ∧ fs w2 !! resolve H info_plist_path = fs w1 !! resolve H info_plist_path.


(** The entry at [p] is not created. *)
Definition keeps_absent (p : list string) : relation FS :=
  λ fs fs', fs !! p = None → fs' !! p = None.

(** The three transient files of the bundle assembly. *)
Definition transient_files : list Path :=
  [manifest_path; tauri_config_path; dmg_spec_path].

(** C2 as stated: none of the transient files exists in the world the stage
    leaves. *)
Definition transients_removed (H : Host) (w' : World) : Prop :=
  ∀ p, p ∈ transient_files → fs w' !! resolve H p = None.

(** The external operations of the bundle assembly that come after the
    clean-up of the manifest and of the packaging configuration. *)
Definition after_cleanup_events (H : Host) (signing_data : option SigningData)
    : list Event :=
  let bundle_path := OUTDIR H </> "CodeWhisperer.app" in
  let dmg_path := OUTDIR H </> "CodeWhisperer.dmg" in
  let info_plist_path := bundle_path </> "Contents/Info.plist" in
  [Run [AStr "defaults"; AStr "write"; APath info_plist_path;
        AStr "CFBundleDisplayName"; AStr "CodeWhisperer"] None None;
   Run [AStr "defaults"; AStr "write"; APath info_plist_path;
        AStr "CFBundleName"; AStr "CodeWhisperer"] None None;
   Run [AStr "defaults"; AStr "write"; APath info_plist_path;
        AStr "LSUIElement"; AStr "-bool"; AStr "TRUE"] None None;
   Run [AStr "plutil"; AStr "-insert"; AStr "CFBundleURLTypes"; AStr "-xml";
        AStr url_types_xml; APath info_plist_path] None None;
   Run [AStr "git"; AStr "clone"; AStr "https://github.com/withfig/themes.git";
        APath (OUTDIR H </> "themes")] None None;
   Run [AStr "pnpm"; AStr "appdmg"; APath dmg_spec_path; APath dmg_path] None None]
  ++ match signing_data with
     | Some sd => signing_plan bundle_path dmg_path sd
     | None => []
     end.

(** Those operations do not create the transient files. *)
Definition tools_leave_transients (H : Host) (signing_data : option SigningData) : Prop :=
  ∀ ev p, ev ∈ after_cleanup_events H signing_data → p ∈ transient_files →
          ∀ fs out fs', respond H ev fs = Some (out, fs') →
                        keeps_absent (resolve H p) fs fs'.

(** The keys of the asset dictionary are relative names. *)
Definition relative_names (npm_packages : list (string * Path)) : Prop :=
  Forall (λ kv, starts_with_slash kv.1 = false) npm_packages.

(** Exceptions a computation may end with. *)
Definition throws {A} (X : exn → Prop) (m : M A) : Prop :=
  ∀ w e w', m w = (Raise e, w') → X e.


(** An exception raised inside the process, not by an external operation. *)
Definition internal (e : exn) : Prop :=
  match e with ExternalError _ => False | _ => True end.


(** Every path of [ps] is a regular file. *)
Definition files (ps : list (list string)) (w : World) : Prop :=
  Forall (λ q, is_file (fs w) q = true) ps.


(** Two entries of the same kind. *)
Definition same_kind (x y : node) : Prop :=
  match x, y with
  | File _, File _ | Dir, Dir => True
  | _, _ => False
  end.

(** Nothing is removed and nothing changes kind. *)
Definition extends : relation FS :=
  λ fs fs', ∀ q x, fs !! q = Some x → ∃ y, fs' !! q = Some y ∧ same_kind x y.

(** The tree below [src] is as it was. *)
Definition keeps_tree (src : list string) : relation FS :=
  λ fs fs', ∀ rel, fs' !! (src ++ rel) = fs !! (src ++ rel).

(** Every entry of [fs] below [src] has a counterpart of the same kind at
    the same relative place below [dst] in [fs']. *)
Definition overlaid (src dst : list string) (fs fs' : FS) : Prop :=
  ∀ rel x, fs !! (src ++ rel) = Some x →
           ∃ y, fs' !! (dst ++ rel) = Some y ∧ same_kind x y.

(** [os.path.basename] of a path, as [shutil.copy2] uses it for a copy into a
    directory. *)
Definition basename (H : Host) (p : Path) : string := List.last (resolve H p) "".

(** The places a headless Linux bundle may write: the binary directory and
    its ancestors, the two binaries in it, the staging directory and its
    ancestors, and the counterparts of the headless overlay. *)
Definition headless_writes (H : Host) (cwterm_path cw_cli_path : Path) (fs : FS)
    (q : list string) : Prop :=
  let bin := resolve H (Path_of "build/usr/bin") in
  q `prefix_of` bin
  ∨ q = bin ++ [basename H cw_cli_path]
  ∨ q = bin ++ [basename H cwterm_path]
  ∨ q `prefix_of` resolve H (OUTDIR H)
  ∨ ∃ rel, q = resolve H (OUTDIR H) ++ rel
           ∧ is_Some (fs !! (resolve H (Path_of "bundle/linux/headless") ++ rel)).


(** The commands of the stages of a pipeline run. *)
Definition is_test (ev : Event) : bool := runs ["cargo"; "test"] ev.
Definition is_compile (ev : Event) : bool := runs ["cargo"; "build"] ev.

(** The two commands that build the web assets. *)
Definition asset_build_events : list Event :=
  [Run [AStr "pnpm"; AStr "install"; AStr "--frozen-lockfile"] None None;
   Run [AStr "pnpm"; AStr "build"] None None].

(** Every [b] event of the trace has an [a] event before it. *)
Definition precedes (a b : Event → bool) (evs : list Event) : Prop :=
  ∀ j, b <$> evs !! j = Some true → ∃ i, i < j ∧ a <$> evs !! i = Some true.

(** The test suite fails whenever it is run. *)
Definition tests_fail (H : Host) : Prop :=
  ∀ ev fs, is_test ev = true → respond H ev fs = None.

(** The trace since [w] has passed the test command, with no compilation
    before it. *)
Definition gate_passed (w w' : World) : Prop :=
  ∃ pre t post, trace w' = trace w ++ pre ++ t :: post
                ∧ Forall (λ ev, is_compile ev = false) pre ∧ is_test t = true.

(** The web asset trees are in the staging directory. *)
Definition assets_staged (H : Host) (w : World) : Prop :=
  is_dir (fs w) (resolve H (OUTDIR H </> "dashboard")) = true
  ∧ is_dir (fs w) (resolve H (OUTDIR H </> "autocomplete")) = true.

(** How a run ends when the tests fail: before the test command, with
    nothing but the asset build invoked, or at the test command, with the web
    assets staged. *)
Definition stopped_at_gate (H : Host) (w w' : World) : Prop :=
  evolves any_fs (λ ev, ev ∈ asset_build_events) w w'
  ∨ ∃ w1 t, evolves any_fs (λ ev, ev ∈ asset_build_events) w w1
            ∧ assets_staged H w1 ∧ is_test t = true
            ∧ fs w' = fs w1 ∧ trace w' = trace w1 ++ [t].


(** The condition under which the script builds a signing configuration. *)
Definition signing_configured (H : Host) (build_args : json) : bool :=
  n H build_args "signing_bucket"
  && n H build_args "signing_queue"
  && n H build_args "apple_id_secret".

(** An upload to the staging location. *)
Definition is_upload (ev : Event) : bool := runs ["aws"; "s3"; "cp"] ev.

(** [sys.argv[1] if len(sys.argv) > 1 else "{}"] *)
Definition command_line (H : Host) : string :=
  match argv H with _ :: a :: _ => a | _ => "{}" end.


(** A space occurs in the string. *)
Fixpoint has_space (s : string) : bool :=
  match s with
  | EmptyString => false
  | String c s' => Ascii.eqb c " " || has_space s'
  end.

(** The checksum file of an artifact: [p.with_name(p.name + ".sha256")]. *)
Definition sidecar (p : Path) : Path :=
  MkPath (anchored p) (removelast (parts p) ++ [name p +:+ ".sha256"]).

(** The command that computes the digest of a file, and a run of it. *)
Definition shasum (file : Path) : Event :=
  RunOutput [AStr "shasum"; AStr "-a"; AStr "256"; APath file].

Definition is_digest (ev : Event) : bool :=
  match ev with RunOutput args => starts ["shasum"] args | _ => false end.

(** The upload of a file to the staging location. *)
Definition upload (file : Path) (staging_location : string) : Event :=
  Run [AStr "aws"; AStr "s3"; AStr "cp"; APath file; AStr staging_location] None None.

(** The values a computation may return. *)
Definition returns {A} (V : A → Prop) (m : M A) : Prop :=
  ∀ w a w', m w = (Ok a, w') → V a.

(** Since [w]: events that are no upload, among them the digest of [file]. *)
Definition digest_taken (file : Path) (w w' : World) : Prop :=
  ∃ pre, trace w' = trace w ++ pre
         ∧ Forall (λ ev, is_upload ev = false) pre ∧ shasum file ∈ pre.


(** ** Further vocabulary *)

(** A command of the Rust toolchain that takes feature flags. *)
Definition is_toolchain (ev : Event) : bool :=
  match ev with
  | Run args _ _ => starts ["cargo"] args || starts ["cargo-tauri"] args
  | _ => false
  end.

(** The toolchain commands of a run with the feature list [f]: the tests, a
    build of a package other than the input method, the build of the input
    method (always without features), the desktop application. *)
Definition toolchain_command (f : option (list string)) (ev : Event) : Prop :=
  ∃ cwd env,
    ev = Run (cargo_test_args f) cwd env
    ∨ (∃ p ts, p ≠ "fig_input_method" ∧ ev = Run (cargo_build_args p ts f) cwd env)
    ∨ (∃ ts, ev = Run (cargo_build_args "fig_input_method" ts None) cwd env)
    ∨ ev = Run (cargo_tauri_args "universal-apple-darwin" f) cwd env.

(** The commands of a run on a platform without the bundle assembly: the web
    asset build, the tests, the compilations and the uploads. *)
Definition is_plain_command (ev : Event) : bool :=
  runs ["pnpm"; "install"] ev || runs ["pnpm"; "build"] ev
  || is_test ev || is_compile ev || is_upload ev.

(** A computation that raises the error of an external operation has that
    operation as the last event of the trace: nothing is invoked after the
    failure. *)
Definition fail_fast {A} (m : M A) : Prop :=
  ∀ w e w', m w = (Raise e, w') →
            match e with
            | ExternalError ev => last (trace w') = Some ev
            | _ => True
            end.

(** A package of the workspace metadata that is not the desktop application. *)
Definition other_package (pkg : json) : Prop :=
  ∃ nm, getitem pkg "name" = Ok nm ∧ eq_str nm "fig_desktop" = false.

(** The query of the workspace metadata. *)
Definition metadata_query : Event := RunOutput cargo_metadata_args.

(** Nothing lies below a path that does not exist. *)
Definition no_orphans (fs : FS) (p : list string) : Prop :=
  fs !! p = None → ∀ rel, fs !! (p ++ rel) = None.

(** The two commands of the web asset build. *)
Definition pnpm_install : Event :=
  Run [AStr "pnpm"; AStr "install"; AStr "--frozen-lockfile"] None None.
Definition pnpm_build : Event := Run [AStr "pnpm"; AStr "build"] None None.

(** Outside [base], its ancestors apart, the file system is as it was. *)
Definition confined (base : list string) : relation FS :=
  λ fs fs', ∀ q, ¬ base `prefix_of` q → ¬ q `prefix_of` base → fs' !! q = fs !! q.

(** The environment a command is run with. *)
Definition env_of (ev : Event) : option (gmap string string) :=
  match ev with Run _ _ env => env | _ => None end.

(** An environment in which every variable of [rust_env] has the value
    [rust_env] gives it, and every other variable, [RUST_BACKTRACE] and
    [BUILD_DIR] apart, the value of the process environment. *)
Definition toolchain_env (H : Host) (env : gmap string string) : Prop :=
  (∀ k v, rust_env H None !! k = Some v → env !! k = Some v)
  ∧ (∀ k, rust_env H None !! k = None → k ≠ "RUST_BACKTRACE" → k ≠ "BUILD_DIR" →
          env !! k = os_environ H !! k).

(** A computation that returns has added exactly the events [evs] to the
    trace. *)
Definition emits {A} (evs : list Event) (m : M A) : Prop :=
  ∀ w a w', m w = (Ok a, w') → trace w' = trace w ++ evs.

(** The commands of an unsigned bundle assembly, in the order of their
    invocation: the input method, the manifest, the desktop application, the
    metadata patch, the themes, the disk image. *)
Definition desktop_commands (H : Host) (f : option (list string)) : list Event :=
  let both := ["x86_64-apple-darwin"; "aarch64-apple-darwin"] in
  let env := over_environ H (rust_env H None) in
  let plist := OUTDIR H </> "CodeWhisperer.app" </> "Contents/Info.plist" in
  [Run (cargo_build_args "fig_input_method" both None) None (Some env);
   Run (lipo_args "fig_input_method"
          (OUTDIR H </> "fig_input_method-universal-apple-darwin") both) None None;
   metadata_query; metadata_query;
   Run (cargo_tauri_args "universal-apple-darwin" f) (Some "fig_desktop")
       (Some (<["BUILD_DIR" := str (OUTDIR H)]> env));
   Run [AStr "defaults"; AStr "write"; APath plist;
        AStr "CFBundleDisplayName"; AStr "CodeWhisperer"] None None;
   Run [AStr "defaults"; AStr "write"; APath plist;
        AStr "CFBundleName"; AStr "CodeWhisperer"] None None;
   Run [AStr "defaults"; AStr "write"; APath plist;
        AStr "LSUIElement"; AStr "-bool"; AStr "TRUE"] None None;
   Run [AStr "plutil"; AStr "-insert"; AStr "CFBundleURLTypes"; AStr "-xml";
        AStr url_types_xml; APath plist] None None;
   Run [AStr "git"; AStr "clone"; AStr "https://github.com/withfig/themes.git";
        APath (OUTDIR H </> "themes")] None None;
   Run [AStr "pnpm"; AStr "appdmg"; APath dmg_spec_path;
        APath (OUTDIR H </> "CodeWhisperer.dmg")] None None].

(** The commands of a macOS run that signs nothing and uploads nothing, in
    the order of their invocation. *)
Definition macos_commands (H : Host) (f : option (list string)) : list Event :=
  let both := ["x86_64-apple-darwin"; "aarch64-apple-darwin"] in
  let env := over_environ H (rust_env H None) in
  [pnpm_install; pnpm_build;
   Run (cargo_test_args f) None (Some (<["RUST_BACKTRACE" := "1"]> env));
   Run (cargo_build_args "cw_cli" both f) None (Some env);
   Run (lipo_args "cw_cli" (OUTDIR H </> "cw-universal-apple-darwin") both) None None;
   Run (cargo_build_args "figterm" both f) None (Some env);
   Run (lipo_args "figterm" (OUTDIR H </> "cwterm-universal-apple-darwin") both) None None]
  ++ desktop_commands H f
  ++ [shasum (OUTDIR H </> "CodeWhisperer.dmg")].

(** The commands of a Linux run that uploads nothing. *)
Definition linux_commands (H : Host) (f : option (list string)) : list Event :=
  let env := over_environ H (rust_env H None) in
  let build package :=
    Run (cargo_build_args package ["x86_64-unknown-linux-gnu"] f) None (Some env) in
  [pnpm_install; pnpm_build;
   Run (cargo_test_args f) None (Some (<["RUST_BACKTRACE" := "1"]> env));
   build "cw_cli"; build "figterm"].

(** A string that is one path component. *)
Definition component (s : string) : Prop := Path_of s = MkPath false [s].

(** The packaging configuration that names the external binaries [a], [b]. *)
Definition external_bins (H : Host) (a b : string) : string :=
  json_dumps H (JObj {[ "tauri" := JObj {[ "bundle" := JObj (list_to_map [
    ("externalBin", JArr [JStr a; JStr b]);
    ("resources", JArr [JStr "manifest.json"])]) ]} ]}).


(** * Facts *)

(** ** Lists of path components *)

Lemma strip_prefix_app pre rel : strip_prefix pre (pre ++ rel) = Some rel.
Proof.
  induction pre as [|a pre IH]; simpl; [done|].
  by rewrite decide_True.
Qed.

Lemma strip_prefix_Some pre l rel : strip_prefix pre l = Some rel ↔ l = pre ++ rel.
Proof.
  split; [|intros ->; apply strip_prefix_app].
  revert l. induction pre as [|a pre IH]; intros [|b l]; simpl; try naive_solver.
  case_decide; [|done]. intros ?%IH. by subst.
Qed.

Lemma strip_prefix_None pre l : strip_prefix pre l = None ↔ ¬ pre `prefix_of` l.
Proof.
  split.
  - intros Hn [rel ->]. by rewrite strip_prefix_app in Hn.
  - intros Hn. destruct (strip_prefix pre l) as [rel|] eqn:E; [|done].
    apply strip_prefix_Some in E. destruct Hn. by exists rel.
Qed.

Lemma elem_of_prefixes q p : q ∈ prefixes p ↔ q `prefix_of` p.
Proof.
  unfold prefixes. rewrite list_elem_of_fmap. split.
  - intros (k & -> & _). apply prefix_take.
  - intros [rel ->]. exists (length q). split.
    + by rewrite take_app_length.
    + apply elem_of_seq. rewrite length_app. lia.
Qed.

Lemma prefix_unrelated (base a b : list string) (x y : string) :
  x ≠ y → ¬ (base ++ x :: a) `prefix_of` (base ++ y :: b).
Proof.
  intros Hxy [k Hk]. rewrite <- app_assoc in Hk.
  apply app_inv_head in Hk. simpl in Hk. congruence.
Qed.

(** ** Directories *)

Lemma lookup_add_dirs (qs : list (list string)) (fs : FS) q :
  foldr (λ q acc, <[q := Dir]> acc) fs qs !! q
  = if decide (q ∈ qs) then Some Dir else fs !! q.
Proof.
  induction qs as [|q' qs IH]; cbn [foldr].
  - rewrite decide_False; [done|]. apply not_elem_of_nil.
  - destruct (decide (q' = q)) as [->|Hne].
    + rewrite lookup_insert_eq, decide_True; [done|]. set_solver.
    + rewrite lookup_insert_ne by done. rewrite IH.
      destruct (decide (q ∈ qs)) as [Ha|Ha], (decide (q ∈ q' :: qs)) as [Hb|Hb];
        try done; set_solver.
Qed.

Lemma makedirs_Ok (p : list string) (fs fs' : FS) :
  makedirs p fs = Ok fs' →
  (∀ q, q `prefix_of` p → is_file fs q = false)
  ∧ ∀ q, fs' !! q = if decide (q `prefix_of` p) then Some Dir else fs !! q.
Proof.
  unfold makedirs. destruct (list_find _ _) as [[i q]|] eqn:E; [done|].
  intros Heq.
  assert (fs' = foldr (λ q acc, <[q := Dir]> acc) fs (prefixes p)) as -> by congruence.
  clear Heq. apply list_find_None in E. split.
  - intros q Hq. apply elem_of_prefixes in Hq.
    rewrite Forall_forall in E. specialize (E q Hq).
    by destruct (is_file fs q).
  - intros q. rewrite lookup_add_dirs.
    destruct (decide (q ∈ prefixes p)) as [Hin|Hin].
    + rewrite decide_True; [done|]. by apply elem_of_prefixes.
    + rewrite decide_False; [done|]. by rewrite <- elem_of_prefixes.
Qed.

Lemma makedirs_Raise (p : list string) (fs : FS) (e : exn) : makedirs p fs = Raise e → fs_error e.
Proof.
  unfold makedirs. destruct (list_find _ _) as [[i q]|]; [|done].
  by intros [= <-].
Qed.

Lemma makedirs_is_dir (p : list string) (fs fs' : FS) : makedirs p fs = Ok fs' → is_dir fs' p = true.
Proof.
  intros [_ Hl]%makedirs_Ok. unfold is_dir. rewrite Hl, decide_True; done.
Qed.

Lemma makedirs_keeps (p : list string) (fs fs' : FS) :
  makedirs p fs = Ok fs' → ∀ q x, fs !! q = Some x → fs' !! q = Some x.
Proof.
  intros [Hfile Hl]%makedirs_Ok q x Hq. rewrite Hl.
  case_decide as Hp; [|done].
  specialize (Hfile q Hp). unfold is_file in Hfile. rewrite Hq in Hfile.
  by destruct x.
Qed.

(** ** Removing a tree *)

Lemma rmtree_lookup (p : list string) (fs : FS) (q : list string) :
  rmtree p fs !! q
  = if is_dir fs p && bool_decide (p `prefix_of` q) then None else fs !! q.
Proof.
  unfold rmtree. destruct (is_dir fs p); simpl; [|done].
  case_bool_decide as Hp.
  - apply map_lookup_filter_None. right. intros x _ Hn. by apply Hn.
  - destruct (fs !! q) as [x|] eqn:E.
    + by apply map_lookup_filter_Some.
    + apply map_lookup_filter_None. by left.
Qed.

(** ** Copying a tree *)

Lemma graft_lookup (src dst : list string) (fs : FS) (q : list string) :
  graft src dst fs !! q
  = match strip_prefix dst q with
    | Some rel => match fs !! (src ++ rel) with Some x => Some x | None => fs !! q end
    | None => fs !! q
    end.
Proof.
  unfold graft.
  generalize fs at 1 4 5. intros base. revert q.
  apply (map_fold_weak_ind (λ (r : FS) (m : FS), ∀ q,
    r !! q = match strip_prefix dst q with
             | Some rel => match m !! (src ++ rel) with Some x => Some x | None => base !! q end
             | None => base !! q
             end)).
  - intros q. destruct (strip_prefix dst q); by rewrite ?lookup_empty.
  - intros p x m r Hp IH q.
    destruct (strip_prefix src p) as [rel0|] eqn:E0.
    + apply strip_prefix_Some in E0 as ->.
      destruct (decide (q = dst ++ rel0)) as [->|Hne].
      * by rewrite lookup_insert_eq, strip_prefix_app, lookup_insert_eq.
      * rewrite lookup_insert_ne by done. rewrite IH.
        destruct (strip_prefix dst q) as [rel|] eqn:E; [|done].
        apply strip_prefix_Some in E as ->.
        rewrite lookup_insert_ne; [done|]. intros ?%app_inv_head. by subst.
    + rewrite IH. destruct (strip_prefix dst q) as [rel|] eqn:E; [|done].
      rewrite lookup_insert_ne; [done|].
      intros ->. by rewrite strip_prefix_app in E0.
Qed.

Lemma clashes_over (src dst : list string) (base m : FS) :
  map_fold (λ p n acc,
              match strip_prefix src p with
              | Some rel =>
                  match n, base !! (dst ++ rel) with
                  | Dir, Some (File _) | File _, Some Dir => true
                  | _, _ => acc
                  end
              | None => acc
              end) false m = false →
  ∀ rel x, m !! (src ++ rel) = Some x → clash x (base !! (dst ++ rel)) = false.
Proof.
  revert m.
  apply (map_fold_weak_ind (λ (r : bool) (m : FS),
    r = false → ∀ rel x, m !! (src ++ rel) = Some x → clash x (base !! (dst ++ rel)) = false)).
  - intros _ rel x. by rewrite lookup_empty.
  - intros p x m r Hp IH Hr rel y.
    destruct (strip_prefix src p) as [rel0|] eqn:E0.
    + apply strip_prefix_Some in E0 as ->.
      destruct (decide (rel = rel0)) as [->|Hne].
      * rewrite lookup_insert_eq. intros [= <-].
        unfold clash. destruct x as [c|], (base !! (dst ++ rel0)) as [[c'|]|]; done.
      * rewrite lookup_insert_ne; [|intros ?%app_inv_head; by subst].
        apply IH. destruct x as [c|], (base !! (dst ++ rel0)) as [[c'|]|]; done.
    + rewrite lookup_insert_ne; [by apply IH|].
      intros ->. by rewrite strip_prefix_app in E0.
Qed.

Lemma clashes_false (src dst : list string) (fs : FS) :
  clashes src dst fs = false →
  ∀ rel x, fs !! (src ++ rel) = Some x → clash x (fs !! (dst ++ rel)) = false.
Proof. apply clashes_over. Qed.

(** ** Files *)

Lemma write_file_Ok (p : list string) (c : content) (fs fs' : FS) :
  write_file p c fs = Ok fs' →
  fs' = <[p := File c]> fs ∧ fs !! p ≠ Some Dir ∧ is_dir fs (parent p) = true.
Proof.
  unfold write_file, is_dir.
  destruct (fs !! p) as [[c0|]|]; try done;
    destruct (fs !! parent p) as [[c1|]|]; naive_solver.
Qed.

Lemma write_file_Raise (p : list string) (c : content) (fs : FS) (e : exn) :
  write_file p c fs = Raise e → fs_error e.
Proof.
  unfold write_file.
  destruct (fs !! p) as [[c0|]|]; destruct (fs !! parent p) as [[c1|]|];
    intros [= <-]; done.
Qed.

Lemma copy2_Ok (src dst : list string) (fs fs' : FS) :
  copy2 src dst fs = Ok fs' →
  ∃ c, fs !! src = Some (File c)
       ∧ fs' = <[(if is_dir fs dst then dst ++ [List.last src ""] else dst) := File c]> fs.
Proof.
  unfold copy2. destruct (fs !! src) as [[c|]|]; try done.
  intros [-> _]%write_file_Ok. by exists c.
Qed.

Lemma copy2_Raise (src dst : list string) (fs : FS) (e : exn) :
  copy2 src dst fs = Raise e → fs_error e.
Proof.
  unfold copy2. destruct (fs !! src) as [[c|]|]; try (intros [= <-]; done).
  apply write_file_Raise.
Qed.

Lemma unlink_file_Ok (b : bool) (p : list string) (fs fs' : FS) :
  unlink_file b p fs = Ok fs' → fs' = delete p fs.
Proof. unfold unlink_file. destruct (fs !! p) as [[c|]|]; naive_solver. Qed.

Lemma unlink_file_Raise (b : bool) (p : list string) (fs : FS) (e : exn) :
  unlink_file b p fs = Raise e → fs_error e.
Proof.
  unfold unlink_file. destruct (fs !! p) as [[c|]|]; try done. by intros [= <-].
Qed.

Lemma copytree_Ok (src dst : list string) (b : bool) (fs fs' : FS) :
  copytree src dst b fs = Ok fs' →
  fs !! src = Some Dir
  ∧ ∃ fs1, makedirs dst fs = Ok fs1
           ∧ clashes src dst fs1 = false
           ∧ fs' = graft src dst fs1.
Proof.
  unfold copytree. destruct (fs !! src) as [[c|]|]; try done.
  destruct (negb b && bool_decide (is_Some (fs !! dst))); [done|].
  destruct (makedirs dst fs) as [fs1|e] eqn:E; [|done].
  destruct (clashes src dst fs1) eqn:Ec; [done|].
  intros [= <-]. split; [done|]. by exists fs1.
Qed.

Lemma copytree_Raise (src dst : list string) (b : bool) (fs : FS) (e : exn) :
  copytree src dst b fs = Raise e → fs_error e.
Proof.
  unfold copytree. destruct (fs !! src) as [[c|]|]; try (intros [= <-]; done).
  destruct (negb b && bool_decide (is_Some (fs !! dst))); [by intros [= <-]|].
  destruct (makedirs dst fs) as [fs1|e1] eqn:E.
  - destruct (clashes src dst fs1); [by intros [= <-]|done].
  - intros [= <-]. by eapply makedirs_Raise.
Qed.


(** ** What an operation leaves alone *)

Lemma makedirs_frame (p q : list string) (fs fs' : FS) :
  makedirs q fs = Ok fs' → ¬ p `prefix_of` q → fs' !! p = fs !! p.
Proof. intros [_ Hl]%makedirs_Ok Hp. rewrite Hl. by rewrite decide_False. Qed.

Lemma write_file_frame (p q : list string) (c : content) (fs fs' : FS) :
  write_file q c fs = Ok fs' → p ≠ q → fs' !! p = fs !! p.
Proof. intros [-> _]%write_file_Ok Hp. by rewrite lookup_insert_ne. Qed.

Lemma copy2_frame (p src dst : list string) (fs fs' : FS) :
  copy2 src dst fs = Ok fs' → ¬ dst `prefix_of` p → fs' !! p = fs !! p.
Proof.
  intros (c & _ & ->)%copy2_Ok Hp. rewrite lookup_insert_ne; [done|].
  intros <-. apply Hp. destruct (is_dir fs dst); [by eexists|done].
Qed.

Lemma graft_frame (p src dst : list string) (fs : FS) :
  ¬ dst `prefix_of` p → graft src dst fs !! p = fs !! p.
Proof.
  intros Hp. rewrite graft_lookup.
  by apply strip_prefix_None in Hp as ->.
Qed.

Lemma copytree_frame (p src dst : list string) (b : bool) (fs fs' : FS) :
  copytree src dst b fs = Ok fs' →
  ¬ p `prefix_of` dst → ¬ dst `prefix_of` p → fs' !! p = fs !! p.
Proof.
  intros (_ & fs1 & Hmk & _ & ->)%copytree_Ok Hp1 Hp2.
  rewrite graft_frame by done. by eapply makedirs_frame.
Qed.

Lemma rmtree_absent (p q : list string) (fs : FS) :
  fs !! p = None → rmtree q fs !! p = None.
Proof.
  intros Hp. rewrite rmtree_lookup.
  by destruct (is_dir fs q && bool_decide (q `prefix_of` p)).
Qed.

Global Instance keeps_absent_preorder p : PreOrder (keeps_absent p).
Proof.
  split.
  - intros fs Hp. exact Hp.
  - intros f1 f2 f3 H1 H2 Hp. apply H2, H1, Hp.
Qed.

Lemma keeps_absent_unlink (b : bool) (p q : list string) (fs fs' : FS) :
  unlink_file b q fs = Ok fs' → keeps_absent p fs fs'.
Proof. intros ->%unlink_file_Ok Hp. apply lookup_delete_None. by right. Qed.

Lemma keeps_absent_rmtree (p q : list string) (fs fs' : FS) :
  Ok (rmtree q fs) = Ok fs' → keeps_absent p fs fs'.
Proof. intros [= <-] Hp. by apply rmtree_absent. Qed.

Lemma keeps_absent_makedirs (p q : list string) (fs fs' : FS) :
  ¬ p `prefix_of` q → makedirs q fs = Ok fs' → keeps_absent p fs fs'.
Proof. intros Hp Hop Habs. by rewrite (makedirs_frame p q fs fs'). Qed.

Lemma keeps_absent_write_file (p q : list string) (c : content) (fs fs' : FS) :
  p ≠ q → write_file q c fs = Ok fs' → keeps_absent p fs fs'.
Proof. intros Hp Hop Habs. by rewrite (write_file_frame p q c fs fs'). Qed.

Lemma keeps_absent_copy2 (p src dst : list string) (fs fs' : FS) :
  ¬ dst `prefix_of` p → copy2 src dst fs = Ok fs' → keeps_absent p fs fs'.
Proof. intros Hp Hop Habs. by rewrite (copy2_frame p src dst fs fs'). Qed.

Lemma keeps_absent_copytree (p src dst : list string) (b : bool) (fs fs' : FS) :
  ¬ p `prefix_of` dst → ¬ dst `prefix_of` p →
  copytree src dst b fs = Ok fs' → keeps_absent p fs fs'.
Proof. intros Hp1 Hp2 Hop Habs. by rewrite (copytree_frame p src dst b fs fs'). Qed.

Lemma head_unrelated (base a b : list string) (x y : string) :
  x ≠ y → base ++ x :: a ≠ base ++ y :: b.
Proof. intros Hxy ?%app_inv_head. congruence. Qed.


(** ** The monad *)

Lemma bind_Ok {A B} (m : M A) (k : A → M B) w b w' :
  bind m k w = (Ok b, w') ↔ ∃ a w1, m w = (Ok a, w1) ∧ k a w1 = (Ok b, w').
Proof. unfold bind. destruct (m w) as [[a|e] w1]; naive_solver. Qed.

Lemma bind_Raise {A B} (m : M A) (k : A → M B) w e w' :
  bind m k w = (Raise e, w')
  ↔ m w = (Raise e, w') ∨ ∃ a w1, m w = (Ok a, w1) ∧ k a w1 = (Raise e, w').
Proof. unfold bind. destruct (m w) as [[a|e1] w1]; naive_solver. Qed.

Lemma world_after_bind_Ok {A B} (m : M A) (k : A → M B) w a w1 :
  m w = (Ok a, w1) → bind m k w = k a w1.
Proof. unfold bind. by intros ->. Qed.

Lemma world_after_bind_Raise {A B} (m : M A) (k : A → M B) w e w1 :
  m w = (Raise e, w1) → bind m k w = (Raise e, w1).
Proof. unfold bind. by intros ->. Qed.

Lemma on_fs_Ok (f : FS → Result FS) w u w' :
  on_fs f w = (Ok u, w')
  ↔ ∃ fs', f (fs w) = Ok fs' ∧ w' = MkWorld fs' (trace w) (log w).
Proof.
  unfold on_fs. destruct (f (fs w)) as [fs'|e]; [|naive_solver].
  destruct u. naive_solver.
Qed.

Lemma on_fs_Raise (f : FS → Result FS) w e w' :
  on_fs f w = (Raise e, w') ↔ f (fs w) = Raise e ∧ w' = w.
Proof. unfold on_fs. destruct (f (fs w)) as [fs'|e1]; naive_solver. Qed.

Lemma events_of_app {A} (m : M A) w evs :
  trace (world_after m w) = trace w ++ evs → events_of m w = evs.
Proof. unfold events_of. intros ->. by rewrite drop_app_length. Qed.

(** A run known to return, as an equation. *)
Lemma run_returns (m : M unit) (w : World) :
  is_Ok (m w).1 = true → m w = (Ok tt, (m w).2).
Proof. destruct (m w) as [[[]|e] w']; [done|discriminate]. Qed.

Lemma run_returns_value {A} (m : M A) (w : World) :
  is_Ok (m w).1 = true → ∃ a, m w = (Ok a, (m w).2).
Proof. destruct (m w) as [[a|e] w']; [by exists a|discriminate]. Qed.


(** ** Worlds that evolve along a preorder *)

Section Evolves.
Context (Rfs : relation FS) `{!PreOrder Rfs} (Pev : Event → Prop).

Lemma evolves_refl w : evolves Rfs Pev w w.
Proof. split; [done|]. exists []. by rewrite app_nil_r. Qed.

Lemma evolves_trans w1 w2 w3 :
  evolves Rfs Pev w1 w2 → evolves Rfs Pev w2 w3 → evolves Rfs Pev w1 w3.
Proof.
  intros [Hf1 (e1 & Ht1 & Hp1)] [Hf2 (e2 & Ht2 & Hp2)]. split; [by etrans|].
  exists (e1 ++ e2). rewrite Ht2, Ht1, app_assoc. split; [done|].
  by apply Forall_app.
Qed.

Lemma steady_ret {A} (a : A) : steady Rfs Pev (ret a).
Proof. intros w. apply evolves_refl. Qed.

Lemma steady_raise {A} e : steady Rfs Pev (raise (A:=A) e).
Proof. intros w. apply evolves_refl. Qed.

Lemma steady_lift {A} (r : Result A) : steady Rfs Pev (lift r).
Proof. destruct r; [apply steady_ret|apply steady_raise]. Qed.

Lemma steady_bind {A B} (m : M A) (k : A → M B) :
  steady Rfs Pev m → (∀ a, steady Rfs Pev (k a)) → steady Rfs Pev (bind m k).
Proof.
  intros Hm Hk w. specialize (Hm w). unfold world_after, bind in *.
  destruct (m w) as [[a|e] w1]; simpl in *; [|done].
  eapply evolves_trans; [done|]. apply Hk.
Qed.

Lemma steady_for_each {A} (l : list A) (body : A → M unit) :
  (∀ x, x ∈ l → steady Rfs Pev (body x)) → steady Rfs Pev (for_each l body).
Proof.
  induction l as [|x l IH]; intros Hb; simpl; [apply steady_ret|].
  apply steady_bind; [apply Hb; set_solver|]. intros _. apply IH.
  intros y Hy. apply Hb. set_solver.
Qed.

Lemma steady_info msg : steady Rfs Pev (info msg).
Proof. intros w. split; [done|]. exists []. by rewrite app_nil_r. Qed.

Lemma steady_on_fs (f : FS → Result FS) :
  (∀ fs fs', f fs = Ok fs' → Rfs fs fs') → steady Rfs Pev (on_fs f).
Proof.
  intros Hf w. unfold world_after, on_fs.
  destruct (f (fs w)) as [fs'|e] eqn:E; simpl; [|apply evolves_refl].
  split; [by apply Hf|]. exists []. by rewrite app_nil_r.
Qed.

Lemma steady_external H ev :
  Pev ev →
  (∀ fs out fs', respond H ev fs = Some (out, fs') → Rfs fs fs') →
  steady Rfs Pev (external H ev).
Proof.
  intros Hev Hf w. unfold world_after, external.
  destruct (respond H ev (fs w)) as [[out fs']|] eqn:E; simpl.
  - split; [by eapply Hf|]. exists [ev]. split; [done|]. by apply Forall_singleton.
  - split; [done|]. exists [ev]. split; [done|]. by apply Forall_singleton.
Qed.

Lemma steady_loads H s : steady Rfs Pev (loads H s).
Proof. unfold loads. destruct (json_loads H s); [apply steady_ret|apply steady_raise]. Qed.

(** A triple whose postconditions are kept by every step of a steady
    computation. *)
Lemma hoare_steady {A} (m : M A) (w0 : World) :
  steady Rfs Pev m →
  hoare (evolves Rfs Pev w0) m (λ _, evolves Rfs Pev w0) (λ _, evolves Rfs Pev w0).
Proof.
  intros Hm w Hw. specialize (Hm w). unfold world_after in Hm.
  destruct (m w) as [[a|e] w']; simpl in *; by eapply evolves_trans.
Qed.

End Evolves.

(** ** Triples *)

Lemma hoare_bind {A B} (P : World → Prop) (m : M A) (k : A → M B) Q1 Q E :
  hoare P m Q1 E → (∀ a, hoare (Q1 a) (k a) Q E) → hoare P (bind m k) Q E.
Proof.
  intros Hm Hk w HP. specialize (Hm w HP). unfold bind.
  destruct (m w) as [[a|e] w1]; [|done]. by apply Hk.
Qed.

Lemma hoare_ret {A} (P : World → Prop) (a : A) (Q : A → World → Prop) E :
  (∀ w, P w → Q a w) → hoare P (ret a) Q E.
Proof. intros HQ w HP. by apply HQ. Qed.

Lemma hoare_conseq {A} (P P' : World → Prop) (m : M A) (Q Q' : A → World → Prop)
    (E E' : exn → World → Prop) :
  hoare P' m Q' E' →
  (∀ w, P w → P' w) → (∀ a w, Q' a w → Q a w) → (∀ e w, E' e w → E e w) →
  hoare P m Q E.
Proof.
  intros Hm HP HQ HE w Hw. specialize (Hm w (HP w Hw)).
  destruct (m w) as [[a|e] w']; auto.
Qed.

(** ** The signing stage *)

Lemma external_run H ev w :
  external H ev w
  = match respond H ev (fs w) with
    | Some (out, fs') => (Ok out, MkWorld fs' (trace w ++ [ev]) (log w))
    | None => (Raise (ExternalError ev), MkWorld (fs w) (trace w ++ [ev]) (log w))
    end.
Proof. done. Qed.

(** How [sign_and_rebundle_macos] ends, and what it has invoked by then. *)
Lemma sign_and_rebundle_macos_run H app_path dmg_path sd w :
  match sign_and_rebundle_macos H app_path dmg_path sd w with
  | (Ok _, w') => trace w' = trace w ++ signing_plan app_path dmg_path sd
  | (Raise e, w') =>
      ∃ k ev, signing_plan app_path dmg_path sd !! k = Some ev
              ∧ trace w' = trace w ++ take (S k) (signing_plan app_path dmg_path sd)
              ∧ e = ExternalError ev
  end.
Proof.
  unfold sign_and_rebundle_macos, sign_file, notarize_file, rebundle_dmg, info, bind, ret.
  rewrite !external_run. cbn [fs trace log].
  destruct (respond H (SignFile app_path APP sd) _) as [[o1 f1]|];
    [|by exists 0, (SignFile app_path APP sd)].
  rewrite !external_run. cbn [fs trace log].
  destruct (respond H (NotarizeFile app_path sd) _) as [[o2 f2]|];
    [|exists 1, (NotarizeFile app_path sd); by rewrite <- !app_assoc].
  rewrite !external_run. cbn [fs trace log].
  destruct (respond H (RebundleDmg app_path dmg_path) _) as [[o3 f3]|];
    [|exists 2, (RebundleDmg app_path dmg_path); by rewrite <- !app_assoc].
  rewrite !external_run. cbn [fs trace log].
  destruct (respond H (SignFile dmg_path DMG sd) _) as [[o4 f4]|];
    [|exists 3, (SignFile dmg_path DMG sd); by rewrite <- !app_assoc].
  rewrite !external_run. cbn [fs trace log].
  destruct (respond H (NotarizeFile dmg_path sd) _) as [[o5 f5]|];
    [|exists 4, (NotarizeFile dmg_path sd); by rewrite <- !app_assoc].
  by rewrite <- !app_assoc.
Qed.

Global Instance any_fs_preorder : PreOrder any_fs.
Proof. by split. Qed.

Lemma hoare_bind_steady {A B : Type} (Rfs : relation FS) `{!PreOrder Rfs} (Pev : Event → Prop)
    (w0 : World) (m : M A) (k : A → M B) (Q : B → World → Prop) (E : exn → World → Prop) :
  steady Rfs Pev m →
  (∀ e w, evolves Rfs Pev w0 w → E e w) →
  (∀ a, hoare (evolves Rfs Pev w0) (k a) Q E) →
  hoare (evolves Rfs Pev w0) (bind m k) Q E.
Proof.
  intros Hm HE Hk. eapply hoare_bind; [|exact Hk].
  eapply hoare_conseq; [by apply hoare_steady|..]; eauto.
Qed.

Create HintDb script discriminated.
#[global] Hint Unfold build_desktop_app build_macos_ime build_cargo_bin
  build_npm_packages run_cargo_tests gen_manifest version patch_metadata
  sign_and_rebundle_macos generate_sha linux_bundle run_cmd run_cmd_output
  sign_file notarize_file rebundle_dmg mkdir write_text unlink
  shutil_rmtree shutil_copytree shutil_copy2 s3_cp staging_location_of
  signing_data_of : script.

(** Structural decomposition of a [steady] goal; [leaf] closes the side
    conditions of the primitive effects. *)
Ltac steady_step leaf :=
  lazymatch goal with
  | |- steady ?R ?P (ret _) => apply (steady_ret R P)
  | |- steady ?R ?P (raise _) => apply (steady_raise R P)
  | |- steady ?R ?P (lift _) => apply (steady_lift R P)
  | |- steady ?R ?P (info _) => apply (steady_info R P)
  | |- steady ?R ?P (loads _ _) => apply (steady_loads R P)
  | |- steady ?R ?P (bind _ _) => apply (steady_bind R P); [|intros ?]
  | |- steady ?R ?P (for_each _ _) => apply (steady_for_each R P); intros ? ?
  | |- steady ?R ?P (on_fs _) => apply (steady_on_fs R P); leaf
  | |- steady ?R ?P (external _ _) => apply (steady_external R P); leaf
  | |- steady _ _ (match ?x with _ => _ end) => destruct x eqn:?
  | |- steady _ _ _ => progress autounfold with script
  end.

Tactic Notation "steady_with" tactic3(leaf) := repeat (steady_step leaf).

(** Without a signing configuration the bundle assembly never calls the
    signing module. *)
Lemma build_desktop_app_unsigned H cwterm_path cw_cli_path npm_packages features :
  steady any_fs (λ ev, is_signing ev = false)
    (build_desktop_app H cwterm_path cw_cli_path npm_packages None features).
Proof. steady_with done. Qed.

Lemma filter_none {A} (P : A → Prop) `{!∀ x, Decision (P x)} (l : list A) :
  Forall (λ x, ¬ P x) l → filter P l = [].
Proof.
  induction 1 as [|x l Hx _ IH]; [done|].
  by rewrite filter_cons_False.
Qed.

Lemma filter_all {A} (P : A → Prop) `{!∀ x, Decision (P x)} (l : list A) :
  Forall P l → filter P l = l.
Proof.
  induction 1 as [|x l Hx _ IH]; [done|].
  rewrite filter_cons_True by done. by rewrite IH.
Qed.

Lemma Forall_take_of {A} (P : A → Prop) (l : list A) k : Forall P l → Forall P (take k l).
Proof. intros Hl. eapply Forall_impl; [by apply Forall_take|done]. Qed.

Lemma concerns_plan (app_path dmg_path : Path) sd :
  Forall (λ ev, concerns [app_path; dmg_path] ev = true)
         (signing_plan app_path dmg_path sd).
Proof.
  unfold signing_plan. repeat apply Forall_cons_2; try apply Forall_nil_2;
    simpl; apply bool_decide_eq_true; set_solver.
Qed.

Lemma concerns_ime H ty sd :
  let paths := [OUTDIR H </> "CodeWhisperer.app"; OUTDIR H </> "CodeWhisperer.dmg"] in
  concerns paths (SignFile (Path_of "build/CodeWhispererInputMethod.app") ty sd) = false
  ∧ concerns paths (NotarizeFile (Path_of "build/CodeWhispererInputMethod.app") sd) = false.
Proof.
  intros paths.
  assert (Path_of "build/CodeWhispererInputMethod.app"
          ∉ [OUTDIR H </> "CodeWhisperer.app"; OUTDIR H </> "CodeWhisperer.dmg"]) as Hn.
  { intros Hin. repeat (apply elem_of_cons in Hin as [Hin|Hin]);
      [vm_compute in Hin; discriminate..|by apply elem_of_nil in Hin]. }
  split; unfold concerns; by apply bool_decide_eq_false.
Qed.

(** With a signing configuration, the calls of the bundle assembly into the
    signing module that concern the app bundle or the disk image are an
    initial segment of the signing plan, and the whole plan when the stage
    returns. *)
Lemma build_desktop_app_signing H cwterm_path cw_cli_path npm_packages sd features w :
  let app_path := OUTDIR H </> "CodeWhisperer.app" in
  let dmg_path := OUTDIR H </> "CodeWhisperer.dmg" in
  let about := λ ev, concerns [app_path; dmg_path] ev = true in
  match build_desktop_app H cwterm_path cw_cli_path npm_packages (Some sd) features w with
  | (Ok _, w') =>
      ∃ evs, trace w' = trace w ++ evs
             ∧ filter about evs = signing_plan app_path dmg_path sd
  | (Raise _, w') =>
      ∃ evs k, trace w' = trace w ++ evs
               ∧ filter about evs = take k (signing_plan app_path dmg_path sd)
  end.
Proof.
  intros app_path dmg_path about.
  set (Pev := λ ev, concerns [app_path; dmg_path] ev = false).
  set (plan := signing_plan app_path dmg_path sd).
  assert (Hnone : ∀ evs, Forall Pev evs → filter about evs = []).
  { intros evs Hevs. apply filter_none. eapply Forall_impl; [done|].
    unfold Pev, about. intros ev ->. done. }
  assert (Hall : ∀ k, filter about (take k plan) = take k plan).
  { intros k. apply filter_all, Forall_take_of, concerns_plan. }
  cut (hoare (evolves any_fs Pev w)
         (build_desktop_app H cwterm_path cw_cli_path npm_packages (Some sd) features)
         (λ _ w', ∃ evs, trace w' = trace w ++ evs ∧ filter about evs = plan)
         (λ _ w', ∃ evs k, trace w' = trace w ++ evs ∧ filter about evs = take k plan)).
  { intros Hh. apply (Hh w), evolves_refl, _. }
  assert (HE : ∀ (e : exn) w', evolves any_fs Pev w w' →
                 ∃ evs k, trace w' = trace w ++ evs ∧ filter about evs = take k plan).
  { intros _ w' [_ (evs & Ht & Hevs)]. exists evs, 0. by rewrite Hnone. }
  unfold build_desktop_app.
  repeat (apply (hoare_bind_steady any_fs Pev w);
          [solve [steady_with (first [done | apply concerns_ime])] | exact HE | intros ?]).
  eapply hoare_bind; [|intros ?; apply hoare_ret; intros w' Hw'; exact Hw'].
  intros w1 [_ (evs & Ht & Hevs)].
  pose proof (sign_and_rebundle_macos_run H app_path dmg_path sd w1) as Hrun.
  fold app_path dmg_path.
  destruct (sign_and_rebundle_macos H app_path dmg_path sd w1) as [[u|e] w'].
  - exists (evs ++ plan). rewrite Hrun, Ht, app_assoc. split; [done|].
    rewrite filter_app, Hnone by done. simpl. apply (Hall 5).
  - destruct Hrun as (k & ev & _ & Hrun & _).
    exists (evs ++ take (S k) plan), (S k). rewrite Hrun, Ht, app_assoc. split; [done|].
    rewrite filter_app, Hnone by done. simpl. apply (Hall (S k)).
Qed.

(** ** The concrete host *)

Lemma demo_merge_needs_inputs darwin linux args :
  merge_needs_inputs (Demo.host darwin linux args Demo.never).
Proof.
  intros out inputs fs Hmiss. cbn [respond Demo.host Demo.never Demo.respond_ok].
  unfold Demo.run_tool.
  replace (starts ["cargo"; "build"] _) with false by done.
  replace (starts ["cargo"; "test"] _) with false by done.
  replace (starts ["lipo"; "-create"; "-output"] _) with true.
  2:{ symmetry. apply bool_decide_eq_true. by eexists. }
  cbn [drop app].
  replace (forallb _ _) with false; [done|].
  symmetry. apply not_true_is_false. intros Hall.
  rewrite forallb_forall in Hall.
  apply Exists_exists in Hmiss as (i & Hi & Hf).
  assert (is_file fs (resolve (Demo.host darwin linux args Demo.never) (Path_of i)) = true)
    as Ht; [|congruence].
  apply (Hall (AStr i)). apply in_map, list_elem_of_In, Hi.
Qed.


(** ** The compilation driver *)

Lemma build_cargo_bin_darwin H package output_name features w build merge outpath :
  IS_DARWIN H = true →
  outpath = OUTDIR H </> (or_else output_name package +:+ "-universal-apple-darwin") →
  build = Run (cargo_build_args package ["x86_64-apple-darwin"; "aarch64-apple-darwin"]
                                features)
              None (Some (over_environ H (rust_env H None))) →
  merge = Run (lipo_args package outpath ["x86_64-apple-darwin"; "aarch64-apple-darwin"])
              None None →
  build_cargo_bin H package output_name features w
  = match respond H build (fs w) with
    | None => (Raise (ExternalError build), MkWorld (fs w) (trace w ++ [build]) (log w))
    | Some (_, fs1) =>
        match respond H merge fs1 with
        | None =>
            (Raise (ExternalError merge), MkWorld fs1 (trace w ++ [build; merge]) (log w))
        | Some (_, fs2) => (Ok outpath, MkWorld fs2 (trace w ++ [build; merge]) (log w))
        end
    end.
Proof.
  intros Hd -> -> ->. unfold build_cargo_bin, targets. rewrite Hd.
  unfold run_cmd, bind, ret. rewrite external_run.
  destruct (respond H _ (fs w)) as [[out fs1]|]; [|done].
  rewrite external_run. cbn [fs trace log].
  destruct (respond H _ fs1) as [[out2 fs2]|]; by rewrite <- app_assoc.
Qed.

Lemma build_cargo_bin_linux H package output_name features w build :
  IS_DARWIN H = false → IS_LINUX H = true →
  build = Run (cargo_build_args package ["x86_64-unknown-linux-gnu"] features)
              None (Some (over_environ H (rust_env H None))) →
  build_cargo_bin H package output_name features w
  = match respond H build (fs w) with
    | None => (Raise (ExternalError build), MkWorld (fs w) (trace w ++ [build]) (log w))
    | Some (_, fs1) =>
        match copy2 (resolve H (Path_of "target/x86_64-unknown-linux-gnu/release" </> package))
                    (resolve H (OUTDIR H </> or_else output_name package)) fs1 with
        | Ok fs2 =>
            (Ok (OUTDIR H </> or_else output_name package),
             MkWorld fs2 (trace w ++ [build]) (log w))
        | Raise e => (Raise e, MkWorld fs1 (trace w ++ [build]) (log w))
        end
    end.
Proof.
  intros Hd Hl ->. unfold build_cargo_bin, targets. rewrite Hd, Hl.
  unfold run_cmd, bind, ret. rewrite external_run.
  destruct (respond H _ (fs w)) as [[out fs1]|]; [|done].
  unfold shutil_copy2, on_fs. cbn [fs trace log].
  by destruct (copy2 _ _ fs1).
Qed.

(** ** The metadata patch *)

Lemma demo_plist_tools darwin linux args :
  plist_tools (Demo.host darwin linux args Demo.never).
Proof. split; intros; reflexivity. Qed.

(** The run of the patch on a host with the modelled tools: the three
    [defaults write] edits go through on a property list, the insertion only
    when the key is new. *)
Lemma patch_metadata_run (H : Host) (info_plist_path : Path) (w : World) :
  plist_tools H →
  let file := resolve H info_plist_path in
  match fs w !! file with
  | Some (File (Plist d)) =>
      let d3 := <["LSUIElement" := "-bool TRUE"]>
                (<["CFBundleName" := "CodeWhisperer"]>
                (<["CFBundleDisplayName" := "CodeWhisperer"]> d)) in
      match d !! "CFBundleURLTypes" with
      | None =>
          ∃ tr, patch_metadata H info_plist_path w
                = (Ok tt,
                   MkWorld (<[file := File (Plist (<["CFBundleURLTypes" :=
                                                       "-xml " +:+ url_types_xml]> d3))]> (fs w))
                           tr (log w))
      | Some _ =>
          ∃ ev tr, runs ["plutil"; "-insert"] ev = true
                   ∧ patch_metadata H info_plist_path w
                     = (Raise (ExternalError ev),
                        MkWorld (<[file := File (Plist d3)]> (fs w)) tr (log w))
      end
  | _ =>
      ∃ ev tr, runs ["defaults"; "write"] ev = true
               ∧ patch_metadata H info_plist_path w
                 = (Raise (ExternalError ev), MkWorld (fs w) tr (log w))
  end.
Proof.
  intros [Hdef Hplu] file.
  pose proof (Hdef info_plist_path "CFBundleDisplayName" [AStr "CodeWhisperer"]) as H1.
  pose proof (Hdef info_plist_path "CFBundleName" [AStr "CodeWhisperer"]) as H2.
  pose proof (Hdef info_plist_path "LSUIElement" [AStr "-bool"; AStr "TRUE"]) as H3.
  pose proof (Hplu info_plist_path "CFBundleURLTypes" (AStr "-xml") (AStr url_types_xml)) as H4.
  cbn [app] in H1, H2, H3. fold file in H1, H2, H3, H4.
  assert (Hfail : ∀ nd, fs w !! file = nd →
            match nd with Some (File (Plist _)) => False | _ => True end →
            ∃ ev tr, runs ["defaults"; "write"] ev = true
                     ∧ patch_metadata H info_plist_path w
                       = (Raise (ExternalError ev), MkWorld (fs w) tr (log w))).
  { intros nd E Hnd. unfold patch_metadata, run_cmd, bind, ret.
    rewrite external_run, H1. unfold defaults_write. rewrite E.
    destruct nd as [[[s|d]|]|]; try done; eexists _, _; (split; [|reflexivity]); done. }
  destruct (fs w !! file) as [[[s|d]|]|] eqn:E; cbv beta iota zeta;
    try (by apply (Hfail _ eq_refl)).
  clear Hfail.
  assert (Hrun : patch_metadata H info_plist_path w
            = match d !! "CFBundleURLTypes" with
              | Some _ =>
                  (Raise (ExternalError
                     (Run [AStr "plutil"; AStr "-insert"; AStr "CFBundleURLTypes";
                           AStr "-xml"; AStr url_types_xml; APath info_plist_path]
                          None None)),
                   MkWorld (<[file := File (Plist
                              (<["LSUIElement" := "-bool TRUE"]>
                              (<["CFBundleName" := "CodeWhisperer"]>
                              (<["CFBundleDisplayName" := "CodeWhisperer"]> d))))]> (fs w))
                     ((((trace w ++
                      [Run [AStr "defaults"; AStr "write"; APath info_plist_path;
                            AStr "CFBundleDisplayName"; AStr "CodeWhisperer"] None None]) ++
                      [Run [AStr "defaults"; AStr "write"; APath info_plist_path;
                            AStr "CFBundleName"; AStr "CodeWhisperer"] None None]) ++
                      [Run [AStr "defaults"; AStr "write"; APath info_plist_path;
                            AStr "LSUIElement"; AStr "-bool"; AStr "TRUE"] None None]) ++
                      [Run [AStr "plutil"; AStr "-insert"; AStr "CFBundleURLTypes";
                            AStr "-xml"; AStr url_types_xml; APath info_plist_path]
                           None None])
                     (log w))
              | None =>
                  (Ok tt,
                   MkWorld (<[file := File (Plist
                              (<["CFBundleURLTypes" := "-xml " +:+ url_types_xml]>
                              (<["LSUIElement" := "-bool TRUE"]>
                              (<["CFBundleName" := "CodeWhisperer"]>
                              (<["CFBundleDisplayName" := "CodeWhisperer"]> d)))))]> (fs w))
                     ((((trace w ++
                      [Run [AStr "defaults"; AStr "write"; APath info_plist_path;
                            AStr "CFBundleDisplayName"; AStr "CodeWhisperer"] None None]) ++
                      [Run [AStr "defaults"; AStr "write"; APath info_plist_path;
                            AStr "CFBundleName"; AStr "CodeWhisperer"] None None]) ++
                      [Run [AStr "defaults"; AStr "write"; APath info_plist_path;
                            AStr "LSUIElement"; AStr "-bool"; AStr "TRUE"] None None]) ++
                      [Run [AStr "plutil"; AStr "-insert"; AStr "CFBundleURLTypes";
                            AStr "-xml"; AStr url_types_xml; APath info_plist_path]
                           None None])
                     (log w))
              end).
  { unfold patch_metadata, run_cmd, bind, ret.
    rewrite external_run, H1. unfold defaults_write at 1. rewrite E.
    cbn [fs trace log].
    rewrite external_run, H2. unfold defaults_write at 1.
    cbn [fs trace log]. rewrite lookup_insert_eq.
    rewrite external_run, H3. unfold defaults_write at 1.
    cbn [fs trace log]. rewrite lookup_insert_eq.
    rewrite external_run, H4. unfold plutil_insert at 1.
    cbn [fs trace log]. rewrite lookup_insert_eq.
    rewrite !insert_insert_eq.
    rewrite !lookup_insert_ne by done.
    destruct (d !! "CFBundleURLTypes") as [x|]; reflexivity. }
  rewrite Hrun.
  destruct (d !! "CFBundleURLTypes") as [x|].
  - eexists _, _. split; [|reflexivity]. done.
  - eexists. reflexivity.
Qed.

(** ** Exceptions *)

Lemma fs_error_internal e : fs_error e → internal e.
Proof. by destruct e. Qed.

Lemma getitem_Raise v k e : getitem v k = Raise e → internal e.
Proof.
  destruct v as [| | | | |m]; simpl; try (by intros [= <-]).
  destruct (m !! k); [done|by intros [= <-]].
Qed.

Lemma py_iter_Raise v e : py_iter v = Raise e → internal e.
Proof. destruct v; simpl; try done; by intros [= <-]. Qed.

Lemma find_version_Raise pkgs e : find_version pkgs = Raise e → internal e.
Proof.
  induction pkgs as [|pkg pkgs IH]; simpl; [by intros [= <-]|].
  destruct (getitem pkg "name") as [nm|e1] eqn:E.
  - destruct (eq_str nm "fig_desktop"); [apply getitem_Raise|done].
  - intros [= <-]. by eapply getitem_Raise.
Qed.

Lemma with_name_Raise p nm e : with_name p nm = Raise e → internal e.
Proof. unfold with_name. case_bool_decide; [by intros [= <-]|done]. Qed.

Lemma item0_Raise l e : item0 l = Raise e → internal e.
Proof. destruct l; [by intros [= <-]|done]. Qed.

Section Throws.
Context (X : exn → Prop).

Lemma throws_ret {A} (a : A) : throws X (ret a).
Proof. intros w e w' [=]. Qed.

Lemma throws_raise {A} e : X e → throws X (raise (A:=A) e).
Proof. intros He w e' w' [= <- _]. done. Qed.

Lemma throws_lift {A} (r : Result A) : (∀ e, r = Raise e → X e) → throws X (lift r).
Proof.
  intros Hr. destruct r as [a|e]; [apply throws_ret|]. apply throws_raise. by apply Hr.
Qed.

Lemma throws_bind {A B} (m : M A) (k : A → M B) :
  throws X m → (∀ a, throws X (k a)) → throws X (bind m k).
Proof.
  intros Hm Hk w e w' [Hr|(a & w1 & _ & Hr)]%bind_Raise; [by eapply Hm|by eapply Hk].
Qed.

Lemma throws_for_each {A} (l : list A) (body : A → M unit) :
  (∀ x, x ∈ l → throws X (body x)) → throws X (for_each l body).
Proof.
  induction l as [|x l IH]; intros Hb; simpl; [apply throws_ret|].
  apply throws_bind; [apply Hb; set_solver|]. intros _. apply IH.
  intros y Hy. apply Hb. set_solver.
Qed.

Lemma throws_info msg : throws X (info msg).
Proof. intros w e w' [=]. Qed.

Lemma throws_on_fs (f : FS → Result FS) :
  (∀ fs e, f fs = Raise e → X e) → throws X (on_fs f).
Proof. intros Hf w e w' [Hr _]%on_fs_Raise. by eapply Hf. Qed.

Lemma throws_external H ev : X (ExternalError ev) → throws X (external H ev).
Proof.
  intros Hev w e w'. rewrite external_run.
  destruct (respond H ev (fs w)) as [[out fs']|]; [done|]. by intros [= <- _].
Qed.

Lemma throws_loads H s : X JSONDecodeError → throws X (loads H s).
Proof.
  intros Hx. unfold loads. destruct (json_loads H s); [apply throws_ret|by apply throws_raise].
Qed.

Lemma hoare_throws {A} (P : World → Prop) (m : M A) (E : exn → World → Prop) :
  throws X m → (∀ e w, X e → E e w) → hoare P m (λ _ _, True) E.
Proof.
  intros Hm HE w _. destruct (m w) as [[a|e] w'] eqn:Er; [done|].
  apply HE. by eapply Hm.
Qed.

End Throws.

Ltac throws_step leaf :=
  lazymatch goal with
  | |- throws ?X (ret _) => apply (throws_ret X)
  | |- throws ?X (raise _) => apply (throws_raise X); leaf
  | |- throws ?X (lift _) => apply (throws_lift X); leaf
  | |- throws ?X (info _) => apply (throws_info X)
  | |- throws ?X (loads _ _) => apply (throws_loads X); leaf
  | |- throws ?X (bind _ _) => apply (throws_bind X); [|intros ?]
  | |- throws ?X (for_each _ _) => apply (throws_for_each X); intros ? ?
  | |- throws ?X (on_fs _) => apply (throws_on_fs X); leaf
  | |- throws ?X (external _ _) => apply (throws_external X); leaf
  | |- throws _ (match ?x with _ => _ end) => destruct x eqn:?
  | |- throws _ _ => progress autounfold with script
  end.

Tactic Notation "throws_with" tactic3(leaf) := repeat (throws_step leaf).

(** Leaves of a goal [throws (λ e, e ≠ ExternalError ev0) _]. *)
Ltac not_that_event :=
  first
    [ (* a different external operation *)
      cbn [cargo_build_args lipo_args cargo_tauri_args cargo_test_args app];
      discriminate
    | (* an exception of the process itself *)
      intros; cbv beta;
      match goal with
      | |- ?e ≠ ExternalError _ =>
          let Hi := fresh "Hi" in
          assert (internal e) as Hi;
          [ first [ done
                  | apply fs_error_internal;
                    first [ eapply makedirs_Raise; eassumption
                          | eapply write_file_Raise; eassumption
                          | eapply copy2_Raise; eassumption
                          | eapply copytree_Raise; eassumption
                          | eapply unlink_file_Raise; eassumption ]
                  | eapply getitem_Raise; eassumption
                  | eapply py_iter_Raise; eassumption
                  | eapply find_version_Raise; eassumption
                  | eapply with_name_Raise; eassumption
                  | eapply item0_Raise; eassumption ]
          | intros ->; exact Hi ]
      end ].


(** ** Transient files of the bundle assembly *)

Lemma hoare_any {A} (P : World → Prop) (m : M A) :
  hoare P m (λ _ _, True) (λ _ _, True).
Proof. intros w _. by destruct (m w) as [[a|e] w']. Qed.

Lemma hoare_unlink_absent H (P : World → Prop) (q : Path) :
  hoare P (unlink H q) (λ _ w, fs w !! resolve H q = None) (λ _ _, True).
Proof.
  intros w _. unfold unlink, on_fs.
  destruct (unlink_file _ _ _) as [fs'|e] eqn:E; [|done].
  apply unlink_file_Ok in E as ->. cbn [fs]. apply lookup_delete_eq.
Qed.

Lemma hoare_keeps_absent {A} (p : list string) (Pev : Event → Prop) (m : M A) :
  steady (keeps_absent p) Pev m →
  hoare (λ w, fs w !! p = None) m (λ _ w, fs w !! p = None) (λ _ _, True).
Proof.
  intros Hm w Hp. destruct (Hm w) as [Hk _]. unfold world_after in Hk.
  destruct (m w) as [[a|e] w']; [|done]. by apply Hk.
Qed.

(** Paths brought to the form [cwd H ++ components]. *)
Ltac norm_paths :=
  cbv -[app cwd prefix not]; rewrite <- ?app_assoc; cbn [app].

Ltac unrelated :=
  norm_paths;
  first [ apply prefix_unrelated; discriminate
        | apply head_unrelated; discriminate ].

Ltac in_list :=
  cbn [after_cleanup_events app signing_plan];
  repeat first [apply list_elem_of_here | apply list_elem_of_further].

Ltac keeps_fs :=
  intros ? ?;
  first [ apply keeps_absent_unlink
        | apply keeps_absent_rmtree
        | apply keeps_absent_makedirs; unrelated
        | apply keeps_absent_write_file; unrelated
        | apply keeps_absent_copy2; unrelated
        | apply keeps_absent_copytree; unrelated ].


Lemma relative_dst H (base : Path) (s : string) :
  starts_with_slash s = false →
  resolve H (base </> s) = resolve H base ++ parts (Path_of s).
Proof.
  intros Hs. unfold joinpath, resolve. cbn [anchored Path_of]. rewrite Hs.
  cbn [anchored parts]. destruct (anchored base); [done|]. by rewrite app_assoc.
Qed.

Ltac keeps_ext :=
  match goal with
  | Ht : tools_leave_transients _ _ |- _ => apply Ht; in_list
  end.

Ltac keeps_pkg :=
  match goal with
  | Hn : relative_names ?l, Hin : (?s, ?p) ∈ ?l |- _ =>
      let Hs := fresh "Hs" in
      assert (starts_with_slash s = false) as Hs
        by exact (proj1 (Forall_forall _ _) Hn _ Hin);
      intros ? ?; rewrite (relative_dst _ _ _ Hs);
      generalize (parts (Path_of s)); intros ?;
      apply keeps_absent_copytree; unrelated
  end.

(** The stage up to the removal of [q] is arbitrary; from there on [q] stays
    absent. *)
Ltac absent_after q :=
  unfold build_desktop_app;
  repeat lazymatch goal with
         | |- hoare _ (bind (unlink _ q) _) _ _ => fail
         | |- hoare _ (bind _ _) _ _ => eapply hoare_bind; [apply hoare_any|intros ?]
         end;
  (eapply hoare_bind; [apply hoare_unlink_absent|intros ?]);
  apply (hoare_keeps_absent _ (λ _, True));
  steady_with (first [done | keeps_fs | keeps_ext | keeps_pkg]).

Lemma build_desktop_app_cleans H cwterm_path cw_cli_path npm_packages signing_data features
    (w : World) (r : Path) (w' : World) :
  tools_leave_transients H signing_data →
  relative_names npm_packages →
  build_desktop_app H cwterm_path cw_cli_path npm_packages signing_data features w
  = (Ok r, w') →
  transients_removed H w'.
Proof.
  intros Htools Hnames Hrun p Hp.
  assert (∀ q, hoare (λ _, True)
                 (build_desktop_app H cwterm_path cw_cli_path npm_packages signing_data
                    features)
                 (λ _ w', fs w' !! resolve H q = None) (λ _ _, True) →
               fs w' !! resolve H q = None) as Huse.
  { intros q Hq. specialize (Hq w I). by rewrite Hrun in Hq. }
  unfold transient_files in Hp.
  repeat (apply elem_of_cons in Hp as [->|Hp]); [..|by apply elem_of_nil in Hp];
    apply Huse; clear Huse Hrun.
  - absent_after manifest_path.
  - absent_after tauri_config_path.
  - absent_after dmg_spec_path.
Qed.


Lemma is_file_insert (fs : FS) (p q : list string) (c : content) :
  is_file fs q = true → is_file (<[p := File c]> fs) q = true.
Proof.
  unfold is_file. intros Hq. destruct (decide (p = q)) as [->|Hne].
  - by rewrite lookup_insert_eq.
  - by rewrite lookup_insert_ne.
Qed.

Lemma hoare_write_text_files H (ps : list (list string)) (p : Path) (s : string)
    (E : exn → World → Prop) :
  (∀ e w, internal e → E e w) →
  hoare (files ps) (write_text H p s) (λ _, files (resolve H p :: ps)) E.
Proof.
  intros HE w Hps. unfold write_text, on_fs.
  destruct (write_file _ _ _) as [fs'|e] eqn:Ew.
  - apply write_file_Ok in Ew as [-> _]. apply Forall_cons. split.
    + unfold is_file. cbn [fs]. by rewrite lookup_insert_eq.
    + eapply Forall_impl; [exact Hps|]. intros q Hq. by apply is_file_insert.
  - apply HE. eapply fs_error_internal, write_file_Raise, Ew.
Qed.

Lemma hoare_info_files (ps : list (list string)) (msg : string) (E : exn → World → Prop) :
  hoare (files ps) (info msg) (λ _, files ps) E.
Proof. intros w Hps. exact Hps. Qed.

Lemma hoare_unlink_files H (ps : list (list string)) (q : Path) (E : exn → World → Prop) :
  resolve H q ∉ ps →
  (∀ e w, internal e → E e w) →
  hoare (files ps) (unlink H q) (λ _, files ps) E.
Proof.
  intros Hq HE w Hps. unfold unlink, on_fs.
  destruct (unlink_file _ _ _) as [fs'|e] eqn:Eu.
  - apply unlink_file_Ok in Eu as ->. unfold files in *. cbn [fs].
    rewrite Forall_forall in *. intros p Hp. specialize (Hps p Hp).
    unfold is_file in *. rewrite lookup_delete_ne; [done|].
    intros Heq. apply Hq. by rewrite Heq.
  - apply HE. eapply fs_error_internal, unlink_file_Raise, Eu.
Qed.

(** A failed command leaves the files where they are. *)
Lemma hoare_run_cmd_files H (ps : list (list string)) args cwd env :
  hoare (files ps) (run_cmd H args cwd env) (λ _ _, True)
        (λ e w', e = ExternalError (Run args cwd env) → files ps w').
Proof.
  intros w Hps. unfold run_cmd, bind, ret. rewrite external_run.
  destruct (respond H _ (fs w)) as [[out fs']|]; [done|]. intros _. exact Hps.
Qed.

Lemma hoare_write_text_first H (P : World → Prop) (p : Path) (s : string)
    (E : exn → World → Prop) :
  (∀ e w, internal e → E e w) →
  hoare P (write_text H p s) (λ _, files [resolve H p]) E.
Proof.
  intros HE. eapply hoare_conseq; [by apply (hoare_write_text_files H [])|..]; try done.
  intros w _. apply Forall_nil_2.
Qed.

Ltac internal_elsewhere :=
  let Hi := fresh "Hi" in
  let Heq := fresh "Heq" in
  intros ? ? Hi Heq; rewrite Heq in Hi; destruct Hi.

Ltac elsewhere ev0 :=
  apply (hoare_throws (λ e, e ≠ ExternalError ev0));
  [solve [throws_with not_that_event]|intros e w Hne Heq; by destruct Hne].

(** The steps up to the one that writes [q] do not end with the failure of
    [ev0]. *)
Ltac until_write q :=
  repeat lazymatch goal with
         | |- hoare _ (bind (write_text _ q _) _) _ _ => fail
         | |- hoare _ (bind _ _) _ (λ e _, e = ExternalError ?ev0 → _) =>
             eapply hoare_bind; [elsewhere ev0|intros ?]
         end.

Lemma build_desktop_app_packaging_fails H cwterm_path cw_cli_path npm_packages
    signing_data features :
  let packaging :=
    Run (cargo_tauri_args "universal-apple-darwin" features) (Some "fig_desktop")
        (Some (<["BUILD_DIR" := str (OUTDIR H)]> (over_environ H (rust_env H None)))) in
  hoare (λ _, True)
    (build_desktop_app H cwterm_path cw_cli_path npm_packages signing_data features)
    (λ _ _, True)
    (λ e w', e = ExternalError packaging →
             files [resolve H tauri_config_path; resolve H manifest_path] w').
Proof.
  cbv zeta. unfold build_desktop_app.
  until_write manifest_path.
  eapply hoare_bind; [apply hoare_write_text_first; internal_elsewhere|intros ?; cbv beta].
  eapply hoare_bind; [apply hoare_info_files|intros ?; cbv beta].
  eapply hoare_bind; [apply hoare_write_text_files; internal_elsewhere|intros ?; cbv beta].
  eapply hoare_bind; [apply hoare_info_files|intros ?; cbv beta].
  eapply hoare_bind; [apply hoare_run_cmd_files|intros ?; cbv beta].
  match goal with
  | |- hoare _ _ _ (λ e _, e = ExternalError ?ev0 → _) =>
      elsewhere ev0
  end.
Qed.


Lemma build_desktop_app_imaging_fails H cwterm_path cw_cli_path npm_packages
    signing_data features :
  let imaging :=
    Run [AStr "pnpm"; AStr "appdmg"; APath dmg_spec_path;
         APath (OUTDIR H </> "CodeWhisperer.dmg")] None None in
  hoare (λ _, True)
    (build_desktop_app H cwterm_path cw_cli_path npm_packages signing_data features)
    (λ _ _, True)
    (λ e w', e = ExternalError imaging → files [resolve H dmg_spec_path] w').
Proof.
  cbv zeta. unfold build_desktop_app.
  until_write dmg_spec_path.
  eapply hoare_bind; [apply hoare_write_text_first; internal_elsewhere|intros ?; cbv beta].
  eapply hoare_bind.
  { apply hoare_unlink_files; [|internal_elsewhere].
    apply not_elem_of_cons. split; [|apply not_elem_of_nil]. unrelated. }
  intros ?; cbv beta.
  eapply hoare_bind; [apply hoare_run_cmd_files|intros ?; cbv beta].
  match goal with
  | |- hoare _ _ _ (λ e _, e = ExternalError ?ev0 → _) => elsewhere ev0
  end.
Qed.


(** ** The concrete tools and the transient files *)

Lemma demo_defaults (file : Path) (k : string) (v : list Arg) (fs : FS) :
  Demo.respond_ok (Run ([AStr "defaults"; AStr "write"; APath file; AStr k] ++ v) None None) fs
  = defaults_write (Demo.key file) k v fs.
Proof. reflexivity. Qed.

Lemma demo_plutil (file : Path) (k : string) (ty v : Arg) (fs : FS) :
  Demo.respond_ok (Run [AStr "plutil"; AStr "-insert"; AStr k; ty; v; APath file] None None) fs
  = plutil_insert (Demo.key file) k [ty; v] fs.
Proof. reflexivity. Qed.

Lemma demo_git_clone (url : string) (dst : Path) (fs : FS) :
  Demo.respond_ok (Run [AStr "git"; AStr "clone"; AStr url; APath dst] None None) fs
  = Some ("", Demo.add_file (Demo.key dst ++ ["themes"; "dark.json"]) (Bytes "theme") fs).
Proof. reflexivity. Qed.

Lemma demo_appdmg (spec dmg : Path) (fs : FS) :
  Demo.respond_ok (Run [AStr "pnpm"; AStr "appdmg"; APath spec; APath dmg] None None) fs
  = if is_file fs (Demo.key spec)
    then Some ("", <[Demo.key dmg := File (Bytes "disk image")]> fs)
    else None.
Proof. reflexivity. Qed.

Lemma defaults_write_frame (file p : list string) (k : string) (v : list Arg)
    (fs fs' : FS) (out : string) :
  defaults_write file k v fs = Some (out, fs') → p ≠ file → fs' !! p = fs !! p.
Proof.
  unfold defaults_write. destruct (fs !! file) as [[[s|d]|]|]; try done.
  intros [= _ <-] Hp. by rewrite lookup_insert_ne.
Qed.

Lemma plutil_insert_frame (file p : list string) (k : string) (v : list Arg)
    (fs fs' : FS) (out : string) :
  plutil_insert file k v fs = Some (out, fs') → p ≠ file → fs' !! p = fs !! p.
Proof.
  unfold plutil_insert. destruct (fs !! file) as [[[s|d]|]|]; try done.
  destruct (d !! k); [done|]. intros [= _ <-] Hp. by rewrite lookup_insert_ne.
Qed.

Lemma add_file_frame (q p : list string) (c : content) (fs : FS) :
  p ≠ q → ¬ p `prefix_of` parent q → Demo.add_file q c fs !! p = fs !! p.
Proof.
  intros Hne Hpre. unfold Demo.add_file, Demo.add_dir.
  rewrite lookup_insert_ne by done. rewrite lookup_add_dirs.
  rewrite decide_False; [done|]. by rewrite elem_of_prefixes.
Qed.

(** Closed paths of the concrete host, compared by evaluation. *)
Ltac closed_paths :=
  cbn [cwd Demo.host]; cbv -[prefix not];
  first [ discriminate | intros [? ?]; discriminate ].

Lemma demo_tools_leave_transients darwin linux args fails signing_data :
  tools_leave_transients (Demo.host darwin linux args fails) signing_data.
Proof.
  intros ev p Hev Hp fs out fs' Hresp Habs.
  cbn [respond Demo.host] in Hresp.
  destruct (fails ev); [discriminate|].
  rewrite <- Habs. clear Habs.
  unfold after_cleanup_events in Hev. cbn [app] in Hev.
  unfold transient_files in Hp.
  repeat (apply elem_of_cons in Hev as [->|Hev]).
  - pose proof (demo_defaults (OUTDIR (Demo.host darwin linux args fails)
                                 </> "CodeWhisperer.app" </> "Contents/Info.plist")
                  "CFBundleDisplayName" [AStr "CodeWhisperer"] fs) as Heq.
    cbn [app] in Heq. rewrite Heq in Hresp. clear Heq.
    eapply defaults_write_frame; [exact Hresp|].
    repeat (apply elem_of_cons in Hp as [->|Hp]); [..|by apply elem_of_nil in Hp];
      closed_paths.
  - pose proof (demo_defaults (OUTDIR (Demo.host darwin linux args fails)
                                 </> "CodeWhisperer.app" </> "Contents/Info.plist")
                  "CFBundleName" [AStr "CodeWhisperer"] fs) as Heq.
    cbn [app] in Heq. rewrite Heq in Hresp. clear Heq.
    eapply defaults_write_frame; [exact Hresp|].
    repeat (apply elem_of_cons in Hp as [->|Hp]); [..|by apply elem_of_nil in Hp];
      closed_paths.
  - pose proof (demo_defaults (OUTDIR (Demo.host darwin linux args fails)
                                 </> "CodeWhisperer.app" </> "Contents/Info.plist")
                  "LSUIElement" [AStr "-bool"; AStr "TRUE"] fs) as Heq.
    cbn [app] in Heq. rewrite Heq in Hresp. clear Heq.
    eapply defaults_write_frame; [exact Hresp|].
    repeat (apply elem_of_cons in Hp as [->|Hp]); [..|by apply elem_of_nil in Hp];
      closed_paths.
  - rewrite demo_plutil in Hresp.
    eapply plutil_insert_frame; [exact Hresp|].
    repeat (apply elem_of_cons in Hp as [->|Hp]); [..|by apply elem_of_nil in Hp];
      closed_paths.
  - rewrite demo_git_clone in Hresp. injection Hresp as _ <-.
    repeat (apply elem_of_cons in Hp as [->|Hp]); [..|by apply elem_of_nil in Hp];
      apply add_file_frame; closed_paths.
  - rewrite demo_appdmg in Hresp.
    destruct (is_file fs _); [|discriminate]. injection Hresp as _ <-.
    rewrite lookup_insert_ne; [done|].
    repeat (apply elem_of_cons in Hp as [->|Hp]); [..|by apply elem_of_nil in Hp];
      closed_paths.
  - destruct signing_data as [sd|]; [|by apply elem_of_nil in Hev].
    unfold signing_plan in Hev.
    repeat (apply elem_of_cons in Hev as [->|Hev]); [..|by apply elem_of_nil in Hev];
      cbn [Demo.respond_ok] in Hresp;
      try (destruct (bool_decide _); [|discriminate]; by injection Hresp as _ <-).
    destruct (is_dir fs _); [|discriminate]. injection Hresp as _ <-.
    rewrite lookup_insert_ne; [done|].
    repeat (apply elem_of_cons in Hp as [->|Hp]); [..|by apply elem_of_nil in Hp];
      closed_paths.
Qed.


(** ** Trees that only grow *)

Lemma same_kind_refl x : same_kind x x.
Proof. by destruct x. Qed.

Lemma same_kind_trans x y z : same_kind x y → same_kind y z → same_kind x z.
Proof. by destruct x, y, z. Qed.

Global Instance extends_preorder : PreOrder extends.
Proof.
  split.
  - intros fs q x Hq. exists x. split; [done|apply same_kind_refl].
  - intros f1 f2 f3 H12 H23 q x Hq.
    destruct (H12 q x Hq) as (y & Hy & Hxy).
    destruct (H23 q y Hy) as (z & Hz & Hyz).
    exists z. split; [done|]. by eapply same_kind_trans.
Qed.

Global Instance keeps_tree_preorder src : PreOrder (keeps_tree src).
Proof.
  split.
  - by intros fs rel.
  - intros f1 f2 f3 H12 H23 rel. by rewrite H23, H12.
Qed.

Lemma extends_is_file (fs fs' : FS) (q : list string) :
  extends fs fs' → is_file fs q = true → is_file fs' q = true.
Proof.
  unfold is_file. intros Hext Hq.
  destruct (fs !! q) as [[c|]|] eqn:E; try done.
  destruct (Hext q _ E) as (y & -> & Hk). by destruct y.
Qed.

Lemma extends_is_dir (fs fs' : FS) (q : list string) :
  extends fs fs' → is_dir fs q = true → is_dir fs' q = true.
Proof.
  unfold is_dir. intros Hext Hq.
  destruct (fs !! q) as [[c|]|] eqn:E; try done.
  destruct (Hext q _ E) as (y & -> & Hk). by destruct y.
Qed.

Lemma extends_makedirs (p : list string) (fs fs' : FS) :
  makedirs p fs = Ok fs' → extends fs fs'.
Proof.
  intros Hmk q x Hq. exists x. split; [by eapply makedirs_keeps|apply same_kind_refl].
Qed.

Lemma extends_write_file (p : list string) (c : content) (fs fs' : FS) :
  write_file p c fs = Ok fs' → extends fs fs'.
Proof.
  intros (-> & Hnd & _)%write_file_Ok q x Hq.
  destruct (decide (p = q)) as [->|Hne].
  - rewrite lookup_insert_eq. eexists. split; [done|].
    destruct x; [done|]. by destruct Hnd.
  - rewrite lookup_insert_ne by done. exists x. split; [done|apply same_kind_refl].
Qed.

Lemma extends_copy2 (src dst : list string) (fs fs' : FS) :
  copy2 src dst fs = Ok fs' → extends fs fs'.
Proof.
  unfold copy2. destruct (fs !! src) as [[c|]|]; try done. apply extends_write_file.
Qed.

Lemma extends_graft (src dst : list string) (fs : FS) :
  clashes src dst fs = false → extends fs (graft src dst fs).
Proof.
  intros Hc q x Hq. rewrite graft_lookup.
  destruct (strip_prefix dst q) as [rel|] eqn:E.
  - apply strip_prefix_Some in E as ->.
    destruct (fs !! (src ++ rel)) as [x'|] eqn:Es.
    + exists x'. split; [done|].
      pose proof (clashes_false src dst fs Hc rel x' Es) as Hcl.
      rewrite Hq in Hcl. by destruct x' as [c'|], x as [c|].
    + exists x. split; [done|apply same_kind_refl].
  - exists x. split; [done|apply same_kind_refl].
Qed.

Lemma extends_copytree (src dst : list string) (b : bool) (fs fs' : FS) :
  copytree src dst b fs = Ok fs' → extends fs fs'.
Proof.
  intros (_ & fs1 & Hmk & Hc & ->)%copytree_Ok.
  etrans; [by eapply extends_makedirs|by apply extends_graft].
Qed.

Lemma keeps_tree_makedirs (src q : list string) (fs fs' : FS) :
  (∀ rel, ¬ (src ++ rel) `prefix_of` q) → makedirs q fs = Ok fs' → keeps_tree src fs fs'.
Proof. intros Hs Hop rel. by eapply makedirs_frame. Qed.

Lemma keeps_tree_copy2 (src s d : list string) (fs fs' : FS) :
  (∀ rel, ¬ d `prefix_of` (src ++ rel)) → copy2 s d fs = Ok fs' → keeps_tree src fs fs'.
Proof. intros Hs Hop rel. by eapply copy2_frame. Qed.

Lemma keeps_tree_copytree (src s d : list string) (b : bool) (fs fs' : FS) :
  (∀ rel, ¬ (src ++ rel) `prefix_of` d) → (∀ rel, ¬ d `prefix_of` (src ++ rel)) →
  copytree s d b fs = Ok fs' → keeps_tree src fs fs'.
Proof. intros Hs1 Hs2 Hop rel. by eapply copytree_frame. Qed.

Lemma steady_run {A : Type} (Rfs : relation FS) (Pev : Event → Prop) (m : M A)
    (w : World) (r : Result A) (w' : World) :
  steady Rfs Pev m → m w = (r, w') → Rfs (fs w) (fs w').
Proof.
  intros Hm Hrun. destruct (Hm w) as [Hfs _]. unfold world_after in Hfs.
  by rewrite Hrun in Hfs.
Qed.

Ltac extends_fs :=
  intros ? ?;
  first [ apply extends_makedirs | apply extends_copy2 | apply extends_copytree ].

Ltac keeps_tree_fs :=
  intros ? ?;
  first [ apply keeps_tree_makedirs; intros ?; unrelated
        | apply keeps_tree_copy2; intros ?; unrelated
        | apply keeps_tree_copytree; intros ?; unrelated ].

(** [R (fs w) (fs w')] for the worlds of the step [Hstep : m w = (_, w')]. *)
Tactic Notation "relate" constr(R) "along" hyp(Hstep) "as" ident(Hn) "by" tactic3(leaf) :=
  match type of Hstep with
  | ?m ?w = (_, ?w') =>
      assert (R (fs w) (fs w')) as Hn
        by (eapply (steady_run R (λ _, True) m);
            [cbn [for_each icon_resolutions]; steady_with (first [done | leaf])
            |exact Hstep])
  end.


(** ** The Linux tree *)

Lemma copy2_keeps_not_dir (src dst q : list string) (fs fs' : FS) :
  copy2 src dst fs = Ok fs' → is_dir fs q = false → is_dir fs' q = false.
Proof.
  intros (c & _ & ->)%copy2_Ok Hq. unfold is_dir in *.
  match goal with |- context [<[?t := _]> _] => destruct (decide (t = q)) as [->|Hne] end.
  - by rewrite lookup_insert_eq.
  - by rewrite lookup_insert_ne.
Qed.

Lemma copy2_onto (src dst : list string) (fs fs' : FS) :
  copy2 src dst fs = Ok fs' → is_dir fs dst = false → is_file fs' dst = true.
Proof.
  intros (c & _ & ->)%copy2_Ok Hd. rewrite Hd. unfold is_file.
  by rewrite lookup_insert_eq.
Qed.

Lemma copy2_into (src dst : list string) (fs fs' : FS) :
  copy2 src dst fs = Ok fs' → is_dir fs dst = true →
  (∃ c, fs' = <[dst ++ [List.last src ""] := File c]> fs)
  ∧ is_file fs' (dst ++ [List.last src ""]) = true ∧ is_dir fs' dst = true.
Proof.
  intros (c & _ & ->)%copy2_Ok Hd. rewrite Hd. unfold is_file, is_dir in *.
  rewrite lookup_insert_eq. split_and!; [by exists c|done|].
  rewrite lookup_insert_ne; [done|].
  intros Heq. apply (f_equal length) in Heq. rewrite length_app in Heq.
  simpl in Heq. lia.
Qed.

Lemma copy_each_Ok (H : Host) (src dst : nat → Path) (l : list nat) (w w' : World) :
  for_each l (λ r, shutil_copy2 H (src r) (dst r)) w = (Ok tt, w') →
  extends (fs w) (fs w')
  ∧ ∀ r, r ∈ l → is_dir (fs w) (resolve H (dst r)) = false →
         is_file (fs w') (resolve H (dst r)) = true.
Proof.
  revert w. induction l as [|x l IH]; intros w; cbn [for_each].
  - intros [= <-]. split; [done|]. by intros r ?%elem_of_nil.
  - intros (u & w1 & Hx & Hl)%bind_Ok.
    apply on_fs_Ok in Hx as (fs1 & Hcp & ->).
    destruct (IH _ Hl) as [Hext Hfiles]. cbn [fs] in *.
    split; [etrans; [by eapply extends_copy2|done]|].
    intros r [->|Hr]%elem_of_cons Hd.
    + eapply extends_is_file; [done|]. by eapply copy2_onto.
    + apply Hfiles; [done|]. by eapply copy2_keeps_not_dir.
Qed.

Lemma info_Ok (s : string) (u : unit) (w w' : World) :
  info s w = (Ok u, w') → fs w' = fs w.
Proof. unfold info. intros ?. by simplify_eq. Qed.

(** The steps of a run of [linux_bundle] that returns. *)
Lemma linux_bundle_Ok (H : Host) (cwterm_path cw_cli_path desktop : Path) (b : bool)
    (w w' : World) :
  linux_bundle H cwterm_path cw_cli_path desktop b w = (Ok tt, w') →
  let bin := resolve H (Path_of "build/usr/bin") in
  ∃ w1 fs3 fs4 fs5 w6,
    (if negb b then
       for_each icon_resolutions (λ res, shutil_copy2 H (icon_source res) (icon_target res))
     else ret tt) w = (Ok tt, w1)
    ∧ makedirs bin (fs w1) = Ok fs3
    ∧ copy2 (resolve H cw_cli_path) bin fs3 = Ok fs4
    ∧ copy2 (resolve H cwterm_path) bin fs4 = Ok fs5
    ∧ copytree (resolve H (Path_of "bundle/linux/headless")) (resolve H (OUTDIR H)) true fs5
      = Ok (fs w6)
    ∧ (if negb b then
         bind (shutil_copytree H (Path_of "bundle/linux/desktop") (OUTDIR H) true)
              (λ _, shutil_copy2 H desktop (Path_of "build/usr/bin"))
       else ret tt) w6 = (Ok tt, w').
Proof.
  unfold linux_bundle.
  intros ([] & w1 & Hicons & Hrun)%bind_Ok.
  apply bind_Ok in Hrun as (u2 & w2 & Hinfo & Hrun).
  apply bind_Ok in Hrun as (u3 & w3 & Hmk & Hrun).
  apply bind_Ok in Hrun as (u4 & w4 & Hcw & Hrun).
  apply bind_Ok in Hrun as (u5 & w5 & Hterm & Hrun).
  apply bind_Ok in Hrun as (u6 & w6 & Hover & Hrun).
  apply info_Ok in Hinfo.
  apply on_fs_Ok in Hmk as (fs3 & Hmk & ->).
  apply on_fs_Ok in Hcw as (fs4 & Hcw & ->).
  apply on_fs_Ok in Hterm as (fs5 & Hterm & ->).
  apply on_fs_Ok in Hover as (fs6 & Hover & ->).
  cbn [fs] in *. rewrite Hinfo in Hmk.
  eexists w1, fs3, fs4, fs5, _. split_and!; try eassumption. exact Hover.
Qed.

Lemma linux_bundle_binaries (H : Host) (cwterm_path cw_cli_path desktop : Path) (b : bool)
    (w w' : World) :
  linux_bundle H cwterm_path cw_cli_path desktop b w = (Ok tt, w') →
  let bin := resolve H (Path_of "build/usr/bin") in
  is_file (fs w') (bin ++ [basename H cw_cli_path]) = true
  ∧ is_file (fs w') (bin ++ [basename H cwterm_path]) = true
  ∧ is_dir (fs w') bin = true.
Proof.
  intros (w1 & fs3 & fs4 & fs5 & w6 & _ & Hmk & Hcw & Hterm & Hover & Htail)%linux_bundle_Ok.
  intros bin. fold bin in Hmk, Hcw, Hterm.
  apply makedirs_is_dir in Hmk.
  destruct (copy2_into _ _ _ _ Hcw Hmk) as (_ & Hf4 & Hd4).
  destruct (copy2_into _ _ _ _ Hterm Hd4) as (_ & Hf5 & Hd5).
  assert (extends fs5 (fs w')) as Hext.
  { etrans; [by eapply extends_copytree|].
    relate extends along Htail as Ht by extends_fs. done. }
  split_and!.
  - eapply extends_is_file; [done|]. eapply extends_is_file; [|done].
    by eapply extends_copy2.
  - by eapply extends_is_file.
  - by eapply extends_is_dir.
Qed.

Lemma copytree_overlay (src dst : list string) (b : bool) (fs fs' : FS) :
  copytree src dst b fs = Ok fs' →
  ∀ rel x, fs !! (src ++ rel) = Some x → fs' !! (dst ++ rel) = Some x.
Proof.
  intros (_ & fs1 & Hmk & _ & ->)%copytree_Ok rel x Hx.
  rewrite graft_lookup, strip_prefix_app.
  by rewrite (makedirs_keeps _ _ _ Hmk _ _ Hx).
Qed.

Lemma overlaid_extends (src dst : list string) (fs0 fs fs1 fs' : FS) :
  keeps_tree src fs0 fs →
  (∀ rel x, fs !! (src ++ rel) = Some x → fs1 !! (dst ++ rel) = Some x) →
  extends fs1 fs' →
  overlaid src dst fs0 fs'.
Proof.
  intros Hk Hov Hext rel x Hx. apply (Hext (dst ++ rel) x), Hov. by rewrite Hk.
Qed.

Lemma linux_bundle_headless_overlay (H : Host) (cwterm_path cw_cli_path desktop : Path)
    (b : bool) (w w' : World) :
  linux_bundle H cwterm_path cw_cli_path desktop b w = (Ok tt, w') →
  overlaid (resolve H (Path_of "bundle/linux/headless")) (resolve H (OUTDIR H))
           (fs w) (fs w').
Proof.
  intros (w1 & fs3 & fs4 & fs5 & w6 & Hicons & Hmk & Hcw & Hterm & Hover & Htail)%linux_bundle_Ok.
  set (src := resolve H (Path_of "bundle/linux/headless")) in *.
  apply (overlaid_extends src _ (fs w) fs5 (fs w6)).
  - relate (keeps_tree src) along Hicons as Hk1 by keeps_tree_fs.
    etrans; [exact Hk1|].
    etrans; [eapply keeps_tree_makedirs; [|exact Hmk]; intros ?; unrelated|].
    etrans; [eapply keeps_tree_copy2; [|exact Hcw]; intros ?; unrelated|].
    eapply keeps_tree_copy2; [|exact Hterm]; intros ?; unrelated.
  - by eapply copytree_overlay.
  - relate extends along Htail as Ht by extends_fs. done.
Qed.

Lemma linux_bundle_desktop (H : Host) (cwterm_path cw_cli_path desktop : Path)
    (w w' : World) :
  linux_bundle H cwterm_path cw_cli_path desktop false w = (Ok tt, w') →
  is_file (fs w') (resolve H (Path_of "build/usr/bin") ++ [basename H desktop]) = true
  ∧ overlaid (resolve H (Path_of "bundle/linux/desktop")) (resolve H (OUTDIR H))
             (fs w) (fs w')
  ∧ ∀ res, res ∈ icon_resolutions →
           is_dir (fs w) (resolve H (icon_target res)) = false →
           is_file (fs w') (resolve H (icon_target res)) = true.
Proof.
  intros (w1 & fs3 & fs4 & fs5 & w6 & Hicons & Hmk & Hcw & Hterm & Hover & Htail)%linux_bundle_Ok.
  cbn [negb] in Hicons, Htail.
  apply bind_Ok in Htail as (u7 & w7 & Hdesk & Hbin).
  apply on_fs_Ok in Hdesk as (fs7 & Hdesk & ->).
  apply on_fs_Ok in Hbin as (fs8 & Hbin & ->). cbn [fs] in *.
  set (bin := resolve H (Path_of "build/usr/bin")) in *.
  set (src := resolve H (Path_of "bundle/linux/desktop")) in *.
  split_and!.
  - apply makedirs_is_dir in Hmk.
    assert (is_dir fs7 bin = true) as Hd.
    { eapply extends_is_dir; [by eapply extends_copytree|].
      eapply extends_is_dir; [by eapply extends_copytree|].
      eapply extends_is_dir; [by eapply extends_copy2|].
      eapply extends_is_dir; [by eapply extends_copy2|]. done. }
    by destruct (copy2_into _ _ _ _ Hbin Hd) as (_ & Hf & _).
  - apply (overlaid_extends src _ (fs w) (fs w6) fs7).
    + relate (keeps_tree src) along Hicons as Hk1 by keeps_tree_fs.
      etrans; [exact Hk1|].
      etrans; [eapply keeps_tree_makedirs; [|exact Hmk]; intros ?; unrelated|].
      etrans; [eapply keeps_tree_copy2; [|exact Hcw]; intros ?; unrelated|].
      etrans; [eapply keeps_tree_copy2; [|exact Hterm]; intros ?; unrelated|].
      eapply keeps_tree_copytree; [| |exact Hover]; intros ?; unrelated.
    + by eapply copytree_overlay.
    + by eapply extends_copy2.
  - apply copy_each_Ok in Hicons as [_ Hfiles].
    intros res Hres Hd. specialize (Hfiles res Hres Hd).
    eapply extends_is_file; [|done].
    etrans; [by eapply extends_makedirs|].
    etrans; [by eapply extends_copy2|].
    etrans; [by eapply extends_copy2|].
    etrans; [by eapply extends_copytree|].
    etrans; [by eapply extends_copytree|].
    by eapply extends_copy2.
Qed.

Lemma linux_bundle_headless_frame (H : Host) (cwterm_path cw_cli_path desktop : Path)
    (w w' : World) :
  linux_bundle H cwterm_path cw_cli_path desktop true w = (Ok tt, w') →
  ∀ q, ¬ headless_writes H cwterm_path cw_cli_path (fs w) q → fs w' !! q = fs w !! q.
Proof.
  intros (w1 & fs3 & fs4 & fs5 & w6 & Hicons & Hmk & Hcw & Hterm & Hover & Htail)%linux_bundle_Ok.
  cbn [negb] in Hicons, Htail. unfold ret in Hicons, Htail.
  injection Hicons as <-. injection Htail as <-.
  intros q Hq. unfold headless_writes in Hq.
  set (bin := resolve H (Path_of "build/usr/bin")) in *.
  set (src := resolve H (Path_of "bundle/linux/headless")) in *.
  set (out := resolve H (OUTDIR H)) in *.
  assert (keeps_tree src (fs w) fs5) as Hk.
  { etrans; [eapply keeps_tree_makedirs; [|exact Hmk]; intros ?; unrelated|].
    etrans; [eapply keeps_tree_copy2; [|exact Hcw]; intros ?; unrelated|].
    eapply keeps_tree_copy2; [|exact Hterm]; intros ?; unrelated. }
  pose proof (makedirs_is_dir _ _ _ Hmk) as Hd3.
  destruct (copy2_into _ _ _ _ Hcw Hd3) as ([c4 ->] & _ & Hd4).
  destruct (copy2_into _ _ _ _ Hterm Hd4) as ([c5 Heq5] & _ & _).
  assert (fs5 !! q = fs w !! q) as H5.
  { rewrite Heq5.
    rewrite lookup_insert_ne by (intros Heq; apply Hq; right; right; left; done).
    rewrite lookup_insert_ne by (intros Heq; apply Hq; right; left; done).
    eapply makedirs_frame; [done|]. intros Hp. apply Hq. by left. }
  rewrite <- H5.
  apply copytree_Ok in Hover as (_ & fs1 & Hmk' & _ & ->).
  assert (fs1 !! q = fs5 !! q) as H1.
  { eapply makedirs_frame; [done|]. intros Hp. apply Hq. by do 3 right; left. }
  rewrite graft_lookup.
  destruct (strip_prefix out q) as [rel|] eqn:E; [|done].
  apply strip_prefix_Some in E as ->.
  destruct (fs1 !! (src ++ rel)) as [x|] eqn:Es; [|done].
  exfalso. apply Hq. do 4 right. exists rel. split; [done|].
  rewrite <- Hk. exists x. rewrite <- Es. symmetry.
  eapply makedirs_frame; [done|]. unrelated.
Qed.

(** ** The order of the stages *)

Lemma precedes_before (pre : list Event) :
  Forall (λ ev, is_compile ev = false) pre → precedes is_test is_compile pre.
Proof.
  intros Hpre j Hj. destruct (pre !! j) as [ev|] eqn:E; [|done].
  rewrite Forall_lookup in Hpre. specialize (Hpre j ev E).
  simpl in Hj. congruence.
Qed.

Lemma precedes_after (pre post : list Event) (t : Event) :
  Forall (λ ev, is_compile ev = false) pre → is_test t = true →
  precedes is_test is_compile (pre ++ t :: post).
Proof.
  intros Hpre Ht j Hj. exists (length pre). split.
  - destruct (decide (j < length pre)) as [Hlt|Hge]; [|].
    + rewrite lookup_app_l in Hj by done.
      destruct (pre !! j) as [ev|] eqn:E; [|done].
      rewrite Forall_lookup in Hpre. specialize (Hpre j ev E).
      simpl in Hj. congruence.
    + destruct (decide (j = length pre)) as [->|Hne]; [|lia].
      rewrite list_lookup_middle in Hj by done. simpl in Hj.
      destruct t as [args c e| | | |]; try done.
      unfold is_test, is_compile, runs, starts in *.
      apply bool_decide_eq_true in Ht as [k1 ->].
      injection Hj as Hj. done.
  - rewrite list_lookup_middle by done. simpl. by rewrite Ht.
Qed.

Lemma asset_build_not_compile (ev : Event) :
  ev ∈ asset_build_events → is_compile ev = false ∧ is_test ev = false.
Proof.
  unfold asset_build_events.
  intros Hev. repeat (apply elem_of_cons in Hev as [->|Hev]); [done..|].
  by apply elem_of_nil in Hev.
Qed.

Lemma is_test_cargo_test (features : option (list string)) cwd env :
  is_test (Run (cargo_test_args features) cwd env) = true.
Proof.
  unfold is_test, runs, starts, cargo_test_args. apply bool_decide_eq_true.
  by eexists.
Qed.

Lemma hoare_run_cargo_tests_gate (H : Host) (features : option (list string)) (w : World) :
  hoare (evolves any_fs (λ ev, is_compile ev = false) w) (run_cargo_tests H features)
        (λ _, gate_passed w) (λ _, gate_passed w).
Proof.
  intros w0 [_ (pre & Ht & Hpre)].
  unfold run_cargo_tests, run_cmd, bind. rewrite external_run.
  destruct (respond H _ (fs w0)) as [[out fs']|]; cbn [ret];
    (eexists pre, _, []; cbn [trace]; rewrite Ht, <- app_assoc;
     split_and!; [done|done|apply is_test_cargo_test]).
Qed.

Lemma hoare_gate_passed {A : Type} (m : M A) (w : World) :
  steady any_fs (λ _, True) m →
  hoare (gate_passed w) m (λ _, gate_passed w) (λ _, gate_passed w).
Proof.
  intros Hm w0 (pre & t & post & Ht & Hpre & Htest).
  destruct (Hm w0) as [_ (evs & Hevs & _)]. unfold world_after in Hevs.
  destruct (m w0) as [[a|e] w']; cbn [snd] in Hevs;
    (exists pre, t, (post ++ evs); rewrite Hevs, Ht, <- !app_assoc; done).
Qed.

Ltac gate_step leaf :=
  eapply (hoare_bind_steady any_fs (λ ev, is_compile ev = false));
  [steady_with leaf | by left | intros ?].

(** In every run of [main], the test command comes before any compilation. *)
Lemma main_gate (H : Host) (w : World) :
  hoare (evolves any_fs (λ ev, is_compile ev = false) w) (main H)
        (λ _ w', evolves any_fs (λ ev, is_compile ev = false) w w' ∨ gate_passed w w')
        (λ _ w', evolves any_fs (λ ev, is_compile ev = false) w w' ∨ gate_passed w w').
Proof.
  unfold main.
  do 8 gate_step done.
  eapply hoare_bind.
  - eapply hoare_conseq; [apply hoare_run_cargo_tests_gate|done|..].
    + intros ? w1 Hw1. exact Hw1.
    + intros ? w1 Hw1. by right.
  - intros ?. eapply hoare_conseq; [apply hoare_gate_passed|done|..].
    + steady_with done.
    + intros ? w1 Hw1. by right.
    + intros ? w1 Hw1. by right.
Qed.

(** ** A failing test suite *)

Lemma copytree_is_dir (src dst : list string) (b : bool) (fs fs' : FS) :
  copytree src dst b fs = Ok fs' → is_dir fs' dst = true.
Proof.
  intros Hc. pose proof Hc as (Hsrc & fs1 & Hmk & _ & ->)%copytree_Ok.
  unfold is_dir. rewrite graft_lookup.
  pose proof (strip_prefix_app dst []) as Hs. rewrite app_nil_r in Hs.
  rewrite Hs, app_nil_r.
  by rewrite (makedirs_keeps _ _ _ Hmk _ _ Hsrc).
Qed.

Lemma build_npm_packages_Ok (H : Host) (w w' : World) r :
  build_npm_packages H w = (Ok r, w') → assets_staged H w'.
Proof.
  unfold build_npm_packages.
  intros (u1 & w1 & _ & Hrun)%bind_Ok.
  apply bind_Ok in Hrun as (u2 & w2 & _ & Hrun).
  apply bind_Ok in Hrun as (u3 & w3 & _ & Hrun).
  apply bind_Ok in Hrun as (u4 & w4 & Hdash & Hrun).
  apply bind_Ok in Hrun as (u5 & w5 & Hrm & Hrun).
  apply bind_Ok in Hrun as (u6 & w6 & Hauto & Hrun).
  injection Hrun as _ <-.
  apply on_fs_Ok in Hdash as (fs4 & Hdash & ->).
  unfold shutil_rmtree in Hrm. apply on_fs_Ok in Hrm as (fs5 & Hrm & ->).
  apply on_fs_Ok in Hauto as (fs6 & Hauto & ->).
  cbn [fs] in *. injection Hrm as <-.
  split; cbn [fs].
  - eapply extends_is_dir; [by eapply extends_copytree|].
    unfold is_dir. rewrite rmtree_lookup.
    rewrite (bool_decide_eq_false_2 (_ `prefix_of` _)).
    2:{ norm_paths. intros Hp%prefix_app_inv%prefix_cons_inv_2%prefix_cons_inv_1.
        discriminate. }
    rewrite andb_false_r. by eapply copytree_is_dir.
  - by eapply copytree_is_dir.
Qed.

Ltac asset_step :=
  eapply (hoare_bind_steady any_fs (λ ev, ev ∈ asset_build_events));
  [steady_with done | by left | intros ?].

Lemma main_tests_fail (H : Host) (w : World) :
  tests_fail H →
  hoare (evolves any_fs (λ ev, ev ∈ asset_build_events) w) (main H)
        (λ _ _, False) (λ _, stopped_at_gate H w).
Proof.
  intros Hfail. unfold main.
  do 6 asset_step.
  eapply (hoare_bind _ _ _
            (λ _ w1, evolves any_fs (λ ev, ev ∈ asset_build_events) w w1
                     ∧ assets_staged H w1)).
  { intros w0 Hw0.
    assert (steady any_fs (λ ev, ev ∈ asset_build_events) (build_npm_packages H)) as Hst
      by (steady_with (first [done | unfold asset_build_events; in_list])).
    pose proof (hoare_steady any_fs (λ ev, ev ∈ asset_build_events) _ w Hst w0 Hw0) as Hh.
    destruct (build_npm_packages H w0) as [[r|e] w1] eqn:Hrun.
    - split; [done|]. by eapply build_npm_packages_Ok.
    - by left. }
  intros ?.
  eapply (hoare_bind _ _ _
            (λ _ w1, evolves any_fs (λ ev, ev ∈ asset_build_events) w w1
                     ∧ assets_staged H w1)).
  { intros w0 Hw0. exact Hw0. }
  intros ?.
  eapply (hoare_bind _ _ _ (λ _ _, False)); [|by intros ? ? ?].
  intros w0 [Hw0 Hst].
  unfold run_cargo_tests, run_cmd, bind. rewrite external_run.
  rewrite Hfail by apply is_test_cargo_test.
  right. eexists w0, _. split_and!; [done|done|apply is_test_cargo_test|done|done].
Qed.

(** ** Optional configuration *)

Lemma signing_data_of_none (H : Host) (build_args : json) :
  signing_configured H build_args = false → signing_data_of H build_args = ret None.
Proof. unfold signing_configured, signing_data_of. by intros ->. Qed.

Lemma staging_location_of_none (H : Host) (build_args : json) :
  n H build_args "output_bucket" = false → staging_location_of H build_args = ret None.
Proof. unfold staging_location_of. by intros ->. Qed.

Lemma steady_bind_ret {A B : Type} (Rfs : relation FS) (Pev : Event → Prop)
    (a : A) (k : A → M B) :
  steady Rfs Pev (k a) → steady Rfs Pev (bind (ret a) k).
Proof. intros Hk w. exact (Hk w). Qed.

Lemma steady_events {A : Type} (Pev : Event → Prop) (m : M A) (w : World) :
  steady any_fs Pev m → Forall Pev (events_of m w).
Proof.
  intros Hm. destruct (Hm w) as [_ (evs & Ht & Hevs)].
  unfold events_of. by rewrite Ht, drop_app_length.
Qed.

Lemma main_unsigned (H : Host) (build_args : json) :
  json_loads H (command_line H) = Some build_args →
  signing_configured H build_args = false →
  steady any_fs (λ ev, is_signing ev = false) (main H).
Proof.
  intros Hargs Hnone. unfold main, loads. fold (command_line H). rewrite Hargs.
  apply steady_bind_ret. rewrite signing_data_of_none by done.
  apply steady_bind_ret. steady_with done.
Qed.

Lemma main_no_upload (H : Host) (build_args : json) :
  json_loads H (command_line H) = Some build_args →
  n H build_args "output_bucket" = false →
  steady any_fs (λ ev, is_upload ev = false) (main H).
Proof.
  intros Hargs Hnone. unfold main, loads. fold (command_line H). rewrite Hargs.
  apply steady_bind_ret. rewrite staging_location_of_none by done.
  repeat lazymatch goal with
         | |- steady _ _ (bind (ret _) _) => apply steady_bind_ret
         | _ => steady_step done
         end.
Qed.

Lemma build_desktop_app_signs (H : Host) (cwterm_path cw_cli_path : Path)
    (npm_packages : list (string * Path)) (signing_data : option SigningData)
    (features : option (list string)) (w : World) :
  let run := build_desktop_app H cwterm_path cw_cli_path npm_packages signing_data features w in
  let signs := ∃ ev, ev ∈ drop (length (trace w)) (trace run.2) ∧ is_signing ev = true in
  (signs → is_Some signing_data)
  ∧ (is_Ok run.1 = true → is_Some signing_data → signs).
Proof.
  intros run signs. subst run signs. destruct signing_data as [sd|].
  - split; [by eauto|]. intros Hok _.
    pose proof (build_desktop_app_signing H cwterm_path cw_cli_path npm_packages sd
                  features w) as Hrun.
    cbv zeta in Hrun.
    destruct (build_desktop_app _ _ _ _ _ _ _) as [[p|e] w']; [|discriminate Hok].
    destruct Hrun as (evs & Ht & Hplan). cbn [snd]. rewrite Ht, drop_app_length.
    exists (SignFile (OUTDIR H </> "CodeWhisperer.app") APP sd). split; [|done].
    eapply proj2, (list_elem_of_filter _ evs). rewrite Hplan. apply list_elem_of_here.
  - split; [|by intros _ [? [=]]]. intros (ev & Hev & Hs). exfalso.
    pose proof (steady_events _ _ w
                  (build_desktop_app_unsigned H cwterm_path cw_cli_path npm_packages features))
      as Hnone.
    unfold events_of, world_after in Hnone.
    rewrite Forall_forall in Hnone. specialize (Hnone ev Hev). congruence.
Qed.

Lemma signing_data_of_some (H : Host) (build_args : json) (w : World) :
  signing_configured H build_args = true →
  ∃ r, signing_data_of H build_args w = (r, w)
       ∧ match r with Ok sd => is_Some sd | Raise e => internal e end.
Proof.
  unfold signing_configured, signing_data_of. intros ->.
  unfold bind, lift, ret.
  repeat match goal with
         | |- context [getitem build_args ?k] =>
             let E := fresh "E" in
             destruct (getitem build_args k) as [?|?] eqn:E;
             [|eexists; split; [done|]; by eapply getitem_Raise]
         end.
  eexists. split; [done|]. by eexists.
Qed.

(** ** The checksum file *)

Lemma split_on_first (d rest : string) :
  has_space d = false → item0 (split_on " " (d +:+ String " " rest)) = Ok d.
Proof.
  induction d as [|c d IH]; cbn [has_space]; intros Hd.
  - done.
  - apply orb_false_iff in Hd as [Hc Hd].
    change (String c d +:+ String " " rest) with (String c (d +:+ String " " rest)).
    cbn [split_on]. rewrite Hc.
    specialize (IH Hd). destruct (split_on " " (d +:+ String " " rest)) as [|x l]; [done|].
    cbn in IH. by injection IH as ->.
Qed.

Lemma generate_sha_run (H : Host) (path : Path) (d rest : string) (w : World) :
  respond H (shasum path) (fs w) = Some (d +:+ String " " rest, fs w) →
  has_space d = false →
  match generate_sha H path w with
  | (Ok p, w') =>
      p = sidecar path
      ∧ fs w' = <[resolve H (sidecar path) := File (Bytes d)]> (fs w)
      ∧ trace w' = trace w ++ [shasum path]
  | (Raise e, w') => e = ValueError "empty name" ∨ fs_error e
  end.
Proof.
  intros Hout Hd. unfold generate_sha, run_cmd_output, bind. rewrite external_run.
  fold (shasum path). rewrite Hout. unfold lift at 1. rewrite split_on_first by done.
  unfold lift, with_name. case_bool_decide as Hn; [by left|].
  fold (sidecar path). unfold write_text, on_fs, ret. cbn [fs].
  destruct (write_file _ _ _) as [fs'|e] eqn:E.
  - apply write_file_Ok in E as [-> _]. done.
  - right. by eapply write_file_Raise.
Qed.

(** ** Returned values *)

Lemma returns_ret {A : Type} (V : A → Prop) (a : A) : V a → returns V (ret a).
Proof. intros Ha w a' w' [= <- _]. done. Qed.

Lemma returns_raise {A : Type} (V : A → Prop) (e : exn) : returns V (raise (A:=A) e).
Proof. intros w a w' [=]. Qed.

Lemma returns_bind {A B : Type} (V : B → Prop) (m : M A) (k : A → M B) :
  (∀ a, returns V (k a)) → returns V (bind m k).
Proof. intros Hk w b w' (a & w1 & _ & Hr)%bind_Ok. by eapply Hk. Qed.

Lemma returns_lift {A : Type} (V : A → Prop) (r : Result A) :
  (∀ a, r = Ok a → V a) → returns V (lift r).
Proof. intros Hr w a w'. unfold lift. destruct r; intros [= <- _]. by apply Hr. Qed.

Ltac returns_step :=
  lazymatch goal with
  | |- returns ?V (ret _) => apply (returns_ret V)
  | |- returns ?V (raise _) => apply (returns_raise V)
  | |- returns ?V (bind _ _) => apply (returns_bind V); intros ?
  | |- returns _ (match ?x with _ => _ end) => destruct x eqn:?
  end.

Lemma build_desktop_app_returns H cwterm_path cw_cli_path npm_packages signing_data features :
  returns (λ p, p = OUTDIR H </> "CodeWhisperer.dmg")
    (build_desktop_app H cwterm_path cw_cli_path npm_packages signing_data features).
Proof. unfold build_desktop_app. repeat returns_step. done. Qed.

Lemma generate_sha_returns (H : Host) (path : Path) :
  returns (λ p, p = sidecar path) (generate_sha H path).
Proof.
  unfold generate_sha. do 2 returns_step.
  intros w0 r w' (p & w1 & Hp & Hrun)%bind_Ok.
  apply bind_Ok in Hrun as (u & w2 & _ & Hr). injection Hr as -> _.
  revert Hp. unfold lift, with_name. case_bool_decide; [done|]. by intros [= <- _].
Qed.

Lemma build_cargo_bin_returns_linux (H : Host) (package : string)
    (output_name : option string) (features : option (list string)) :
  IS_DARWIN H = false →
  returns (λ p, p = OUTDIR H </> or_else output_name package)
    (build_cargo_bin H package output_name features).
Proof.
  intros Hd. unfold build_cargo_bin. rewrite Hd. repeat returns_step. done.
Qed.

(** ** Publishing *)

Lemma hoare_bind_ret {A B : Type} (P : World → Prop) (a : A) (k : A → M B)
    (Q : B → World → Prop) (E : exn → World → Prop) :
  hoare P (k a) Q E → hoare P (bind (ret a) k) Q E.
Proof. intros Hk w Hw. exact (Hk w Hw). Qed.

Lemma hoare_pure {A : Type} (φ : Prop) (P : World → Prop) (m : M A)
    (Q : A → World → Prop) (E : exn → World → Prop) :
  (φ → hoare P m Q E) → hoare (λ w, φ ∧ P w) m Q E.
Proof. intros Hm w [Hφ Hw]. by apply Hm. Qed.

Lemma hoare_steady_returns {A : Type} (Rfs : relation FS) `{!PreOrder Rfs}
    (Pev : Event → Prop) (V : A → Prop) (m : M A) (w0 : World) :
  steady Rfs Pev m → returns V m →
  hoare (evolves Rfs Pev w0) m (λ a w1, V a ∧ evolves Rfs Pev w0 w1) (λ _ _, True).
Proof.
  intros Hm Hv w Hw. pose proof (hoare_steady Rfs Pev m w0 Hm w Hw) as Hh.
  destruct (m w) as [[a|e] w1] eqn:Hrun; [|done]. split; [by eapply Hv|done].
Qed.

Lemma hoare_generate_sha (H : Host) (file : Path) (w : World) :
  hoare (evolves any_fs (λ ev, is_upload ev = false) w) (generate_sha H file)
        (λ p w1, p = sidecar file ∧ digest_taken file w w1) (λ _ _, True).
Proof.
  intros w0 [_ (pre & Ht & Hpre)].
  destruct (generate_sha H file w0) as [[p|e] w1] eqn:Hrun; [|done].
  split; [by eapply generate_sha_returns|].
  unfold generate_sha in Hrun. apply bind_Ok in Hrun as (out & w2 & Hout & Hrun).
  unfold run_cmd_output in Hout. rewrite external_run in Hout. fold (shasum file) in Hout.
  assert (trace w2 = trace w0 ++ [shasum file]) as Ht2.
  { destruct (respond H _ _) as [[o fs']|]; [|done]. by injection Hout as _ <-. }
  match type of Hrun with
  | ?m _ = _ =>
      assert (steady any_fs (λ _, False) m) as Hst by (steady_with done)
  end.
  destruct (Hst w2) as [_ (evs & Hevs & Hnone)]. unfold world_after in Hevs.
  rewrite Hrun in Hevs. cbn [snd] in Hevs.
  destruct evs as [|ev evs]; [|by apply Forall_cons in Hnone as [[] _]].
  exists (pre ++ [shasum file]).
  rewrite Hevs, app_nil_r, Ht2, Ht, <- app_assoc. split_and!; [done| |set_solver].
  apply Forall_app. split; [done|]. by apply Forall_singleton.
Qed.

Lemma hoare_staging_location (H : Host) (build_args : json) (P : World → Prop) :
  n H build_args "output_bucket" = true →
  (∀ w s, P w → P (MkWorld (fs w) (trace w) (log w ++ [s]))) →
  hoare P (staging_location_of H build_args)
        (λ s w1, (∃ loc, s = Some loc) ∧ P w1) (λ _ _, True).
Proof.
  intros Hn HP w Hw. unfold staging_location_of. rewrite Hn.
  unfold bind, lift. destruct (getitem build_args "output_bucket") as [b|e]; [|done].
  unfold info, ret. cbn. split; [by eexists|]. by apply HP.
Qed.

(** The two uploads at the end of a run. *)
Lemma hoare_uploads (H : Host) (a b : Path) (loc : string) (w : World)
    (Pre : list Event → Prop) :
  hoare (λ w0, ∃ pre, trace w0 = trace w ++ pre ∧ Pre pre)
        (bind (s3_cp H a loc) (λ _, s3_cp H b loc))
        (λ _ w', ∃ pre, trace w' = trace w ++ pre ++ [upload a loc; upload b loc] ∧ Pre pre)
        (λ _ _, True).
Proof.
  intros w0 (pre & Ht & Hpre). unfold s3_cp, run_cmd, bind. rewrite !external_run.
  fold (upload a loc) (upload b loc).
  destruct (respond H (upload a loc) (fs w0)) as [[o1 fs1]|]; cbn; [|done].
  rewrite external_run. cbn [fs].
  destruct (respond H (upload b loc) fs1) as [[o2 fs2]|]; cbn; [|done].
  exists pre. split; [|done]. by rewrite Ht, <- !app_assoc.
Qed.

Ltac quiet_step leaf :=
  lazymatch goal with
  | |- hoare (evolves ?R ?P ?w) (bind _ _) _ _ =>
      eapply (hoare_bind_steady R P); [steady_with leaf | done | intros ?]
  end.

(** A run of [main] on macOS that returns with an output bucket given has
    taken the digest of the disk image and ends with the upload of the image
    and of its checksum file. *)
Lemma main_publishes_darwin (H : Host) (build_args : json) (w w' : World) :
  json_loads H (command_line H) = Some build_args →
  IS_DARWIN H = true →
  n H build_args "output_bucket" = true →
  main H w = (Ok tt, w') →
  let dmg := OUTDIR H </> "CodeWhisperer.dmg" in
  ∃ loc pre, trace w' = trace w ++ pre ++ [upload dmg loc; upload (sidecar dmg) loc]
             ∧ Forall (λ ev, is_upload ev = false) pre ∧ shasum dmg ∈ pre.
Proof.
  intros Hargs Hd Hn Hrun dmg.
  cut (hoare (evolves any_fs (λ ev, is_upload ev = false) w) (main H)
         (λ _ w', ∃ loc pre, trace w' = trace w ++ pre
                               ++ [upload dmg loc; upload (sidecar dmg) loc]
                             ∧ Forall (λ ev, is_upload ev = false) pre ∧ shasum dmg ∈ pre)
         (λ _ _, True)).
  { intros Hh. specialize (Hh w (evolves_refl _ _ w)). by rewrite Hrun in Hh. }
  clear Hrun. unfold main, loads. fold (command_line H). rewrite Hargs, Hd.
  apply hoare_bind_ret.
  do 13 quiet_step done.
  eapply hoare_bind.
  { apply hoare_steady_returns; [apply _|steady_with done|apply build_desktop_app_returns]. }
  intros p. apply hoare_pure. intros ->. fold dmg.
  eapply hoare_bind; [apply hoare_generate_sha|].
  intros p. apply hoare_pure. intros ->.
  eapply hoare_bind.
  { apply (hoare_staging_location H build_args (digest_taken dmg w) Hn). by intros w0 s. }
  intros s. apply hoare_pure. intros [loc ->].
  eapply hoare_conseq;
    [apply (hoare_uploads H dmg (sidecar dmg) loc w
              (λ pre, Forall (λ ev, is_upload ev = false) pre ∧ shasum dmg ∈ pre))|..].
  - intros w0 (pre & Ht & Hpre). by exists pre.
  - intros _ w0 (pre & Ht & Hpre & Hsha). by exists loc, pre.
  - done.
Qed.

(** On Linux such a run ends with the upload of the two binaries; no digest
    is taken and nothing else is uploaded. *)
Lemma main_publishes_linux (H : Host) (build_args : json) (w w' : World) :
  json_loads H (command_line H) = Some build_args →
  IS_DARWIN H = false → IS_LINUX H = true →
  n H build_args "output_bucket" = true →
  main H w = (Ok tt, w') →
  ∃ loc pre, trace w' = trace w ++ pre ++ [upload (OUTDIR H </> "cw") loc;
                                           upload (OUTDIR H </> "cwterm") loc]
             ∧ Forall (λ ev, is_upload ev = false ∧ is_digest ev = false) pre.
Proof.
  intros Hargs Hd Hl Hn Hrun.
  set (quiet := λ ev, is_upload ev = false ∧ is_digest ev = false).
  cut (hoare (evolves any_fs quiet w) (main H)
         (λ _ w', ∃ loc pre, trace w' = trace w ++ pre
                               ++ [upload (OUTDIR H </> "cw") loc;
                                   upload (OUTDIR H </> "cwterm") loc]
                             ∧ Forall quiet pre)
         (λ _ _, True)).
  { intros Hh. specialize (Hh w (evolves_refl _ _ w)). by rewrite Hrun in Hh. }
  clear Hrun. unfold main, loads. fold (command_line H). rewrite Hargs, Hd, Hl.
  apply hoare_bind_ret.
  do 9 quiet_step ltac:(by split).
  eapply hoare_bind.
  { apply hoare_steady_returns;
      [apply _|steady_with (by split)|by apply build_cargo_bin_returns_linux]. }
  intros p. apply hoare_pure. intros ->.
  quiet_step ltac:(by split).
  eapply hoare_bind.
  { apply hoare_steady_returns;
      [apply _|steady_with (by split)|by apply build_cargo_bin_returns_linux]. }
  intros p. apply hoare_pure. intros ->.
  eapply hoare_bind.
  { apply (hoare_staging_location H build_args (evolves any_fs quiet w) Hn).
    by intros w0 s. }
  intros s. apply hoare_pure. intros [loc ->].
  eapply hoare_conseq;
    [apply (hoare_uploads H (OUTDIR H </> "cw") (OUTDIR H </> "cwterm") loc w
              (Forall quiet))|..].
  - intros w0 [_ (pre & Ht & Hpre)]. by exists pre.
  - intros _ w0 (pre & Ht & Hpre). by exists loc, pre.
  - done.
Qed.

Lemma main_no_digest (H : Host) :
  IS_DARWIN H = false → steady any_fs (λ ev, is_digest ev = false) (main H).
Proof. intros Hd. unfold main. rewrite Hd. steady_with done. Qed.

(** ** Feature flags *)

Ltac toolchain_leaf :=
  first
    [ done
    | by (intros Hs; discriminate Hs)
    | by (intros _; do 2 eexists; left)
    | by (intros _; do 2 eexists; right; left; do 2 eexists; split; [|reflexivity])
    | by (intros _; do 2 eexists; right; right; left; eexists)
    | by (intros _; do 2 eexists; right; right; right) ].

Lemma main_toolchain (H : Host) (build_args : json) :
  json_loads H (command_line H) = Some build_args →
  steady any_fs (λ ev, is_toolchain ev = true →
                       toolchain_command (features_of H build_args) ev) (main H).
Proof.
  intros Hargs. unfold main, loads. fold (command_line H). rewrite Hargs.
  apply steady_bind_ret. steady_with toolchain_leaf.
Qed.

(** ** Platforms without the bundle assembly *)

Lemma main_plain_commands (H : Host) :
  IS_DARWIN H = false →
  steady any_fs (λ ev, is_plain_command ev = true) (main H).
Proof. intros Hd. unfold main. rewrite Hd. steady_with done. Qed.

Lemma main_unsupported (H : Host) (w : World) :
  IS_DARWIN H = false → IS_LINUX H = false →
  hoare (evolves any_fs (λ ev, ev ∈ asset_build_events ∨ is_test ev = true) w) (main H)
        (λ _ _, False)
        (λ _, evolves any_fs (λ ev, ev ∈ asset_build_events ∨ is_test ev = true) w).
Proof.
  intros Hd Hl. unfold main.
  do 10 (eapply (hoare_bind_steady any_fs
                   (λ ev, ev ∈ asset_build_events ∨ is_test ev = true));
         [steady_with (first [done
                             | solve [left; unfold asset_build_events; in_list]
                             | solve [right; apply is_test_cargo_test]])
         |done|intros ?]).
  eapply (hoare_bind _ _ _ (λ _ _, False)); [|by intros ? ? ?].
  intros w0 Hw0. unfold build_cargo_bin, targets. rewrite Hd, Hl. exact Hw0.
Qed.

(** ** Failing commands *)

Lemma fail_fast_internal {A : Type} (m : M A) : throws internal m → fail_fast m.
Proof.
  intros Hm w e w' Hrun. specialize (Hm w e w' Hrun). by destruct e.
Qed.

Lemma fail_fast_ret {A : Type} (a : A) : fail_fast (ret a).
Proof. intros w e w' [=]. Qed.

Lemma fail_fast_info (s : string) : fail_fast (info s).
Proof. intros w e w' [=]. Qed.

Lemma fail_fast_external (H : Host) (ev : Event) : fail_fast (external H ev).
Proof.
  intros w e w'. rewrite external_run.
  destruct (respond H ev (fs w)) as [[out fs']|]; [done|].
  intros [= <- <-]. cbn [trace]. apply last_snoc.
Qed.

Lemma fail_fast_bind {A B : Type} (m : M A) (k : A → M B) :
  fail_fast m → (∀ a, fail_fast (k a)) → fail_fast (bind m k).
Proof.
  intros Hm Hk w e w' [Hr|(a & w1 & _ & Hr)]%bind_Raise; [by eapply Hm|by eapply Hk].
Qed.

Lemma fail_fast_for_each {A : Type} (l : list A) (body : A → M unit) :
  (∀ x, fail_fast (body x)) → fail_fast (for_each l body).
Proof.
  intros Hb. induction l as [|x l IH]; cbn [for_each]; [apply fail_fast_ret|].
  apply fail_fast_bind; [apply Hb|]. intros _. exact IH.
Qed.

(** Leaves: the exceptions of the process itself. *)
Ltac internal_leaf :=
  intros; cbv beta;
  first [ done
        | apply fs_error_internal;
          first [ eapply makedirs_Raise; eassumption
                | eapply write_file_Raise; eassumption
                | eapply copy2_Raise; eassumption
                | eapply copytree_Raise; eassumption
                | eapply unlink_file_Raise; eassumption ]
        | eapply getitem_Raise; eassumption
        | eapply py_iter_Raise; eassumption
        | eapply find_version_Raise; eassumption
        | eapply with_name_Raise; eassumption
        | eapply item0_Raise; eassumption ].

Ltac fail_fast_step :=
  lazymatch goal with
  | |- fail_fast (ret _) => apply fail_fast_ret
  | |- fail_fast (info _) => apply fail_fast_info
  | |- fail_fast (external _ _) => apply fail_fast_external
  | |- fail_fast (bind _ _) => apply fail_fast_bind; [|intros ?]
  | |- fail_fast (for_each _ _) => apply fail_fast_for_each; intros ?
  | |- fail_fast (raise _) => apply fail_fast_internal, throws_raise; internal_leaf
  | |- fail_fast (lift _) => apply fail_fast_internal, throws_lift; internal_leaf
  | |- fail_fast (loads _ _) => apply fail_fast_internal, throws_loads; internal_leaf
  | |- fail_fast (on_fs _) => apply fail_fast_internal, throws_on_fs; internal_leaf
  | |- fail_fast (match ?x with _ => _ end) => destruct x eqn:?
  | |- fail_fast _ => progress autounfold with script
  end.

Lemma main_fail_fast (H : Host) : fail_fast (main H).
Proof. unfold main. repeat fail_fast_step. Qed.

(** ** The version and the manifest *)

Lemma find_version_skips (pre rest : list json) :
  Forall other_package pre → find_version (pre ++ rest) = find_version rest.
Proof.
  induction 1 as [|p pre (nm & Hnm & Hne) _ IH]; [done|].
  cbn [app find_version]. by rewrite Hnm, Hne.
Qed.

Lemma version_run (H : Host) (w : World) (out : string) (fs1 : FS) (data : json)
    (pkgs : list json) :
  respond H metadata_query (fs w) = Some (out, fs1) →
  json_loads H out = Some data →
  getitem data "packages" = Ok (JArr pkgs) →
  version H w = (find_version pkgs, MkWorld fs1 (trace w ++ [metadata_query]) (log w)).
Proof.
  intros Hout Hdata Hpkgs. unfold version, run_cmd_output, bind.
  rewrite external_run. fold metadata_query. rewrite Hout.
  unfold loads. rewrite Hdata. unfold ret, lift. rewrite Hpkgs. unfold ret, raise.
  cbn [py_iter]. by destruct (find_version pkgs).
Qed.

Lemma gen_manifest_Ok (H : Host) (w w' : World) (s : string) :
  gen_manifest H w = (Ok s, w') → trace w' = trace w ++ [metadata_query; metadata_query].
Proof.
  unfold gen_manifest.
  intros (o1 & w1 & Hq1 & Hrun)%bind_Ok.
  apply bind_Ok in Hrun as (data & w2 & Hd & Hrun).
  apply bind_Ok in Hrun as (md & w3 & Hmd & Hrun).
  apply bind_Ok in Hrun as (dc & w4 & Hdc & Hrun).
  apply bind_Ok in Hrun as (v & w5 & Hv & Hrun).
  injection Hrun as _ <-.
  unfold run_cmd_output in Hq1. rewrite external_run in Hq1.
  fold metadata_query in Hq1.
  destruct (respond H metadata_query (fs w)) as [[o fsa]|]; [|done].
  injection Hq1 as _ <-.
  assert (w2 = MkWorld fsa (trace w ++ [metadata_query]) (log w)) as ->.
  { unfold loads in Hd. destruct (json_loads H o1); [|done]. by injection Hd as _ <-. }
  assert (w3 = MkWorld fsa (trace w ++ [metadata_query]) (log w)) as ->.
  { unfold lift in Hmd. destruct (getitem data "metadata"); [|done]. by injection Hmd as _ <-. }
  assert (w4 = MkWorld fsa (trace w ++ [metadata_query]) (log w)) as ->.
  { unfold lift in Hdc. destruct (getitem md "channel"); [|done]. by injection Hdc as _ <-. }
  unfold version in Hv.
  apply bind_Ok in Hv as (o2 & w6 & Hq2 & Hv).
  unfold run_cmd_output in Hq2. rewrite external_run in Hq2.
  fold metadata_query in Hq2. cbn [fs trace log] in Hq2.
  destruct (respond H metadata_query fsa) as [[o' fsb]|]; [|done].
  injection Hq2 as _ <-.
  match type of Hv with
  | ?m ?w0 = _ =>
      assert (steady any_fs (λ _, False) m) as Hst by (steady_with done);
      destruct (Hst w0) as [_ (evs & Hevs & Hnone)]
  end.
  unfold world_after in Hevs.
  rewrite Hv in Hevs. cbn [snd trace] in Hevs.
  destruct evs as [|ev evs]; [|by apply Forall_cons in Hnone as [[] _]].
  rewrite Hevs, app_nil_r, <- app_assoc. done.
Qed.

Lemma gen_manifest_no_channel (H : Host) (w : World) (out : string) (fs1 : FS)
    (data : json) (e : exn) :
  respond H metadata_query (fs w) = Some (out, fs1) →
  json_loads H out = Some data →
  match getitem data "metadata" with
  | Ok md => getitem md "channel"
  | Raise e => Raise e
  end = Raise e →
  gen_manifest H w = (Raise e, MkWorld fs1 (trace w ++ [metadata_query]) (log w)).
Proof.
  intros Hout Hdata Hch. unfold gen_manifest, run_cmd_output, bind.
  rewrite external_run. fold metadata_query. rewrite Hout.
  unfold loads. rewrite Hdata. unfold lift, ret, raise.
  destruct (getitem data "metadata") as [md|e1]; [|by injection Hch as ->].
  by rewrite Hch.
Qed.

(** ** The web assets *)

Lemma copytree_fresh (src dst : list string) (fs fs' : FS) :
  copytree src dst false fs = Ok fs' → fs !! dst = None.
Proof.
  unfold copytree. destruct (fs !! src) as [[c|]|]; try done. cbn [negb andb].
  case_bool_decide as Hd; [done|]. intros _.
  destruct (fs !! dst) eqn:E; [|done]. destruct Hd. by eexists.
Qed.

Lemma copytree_replaces (src dst : list string) (fs fs' : FS) :
  (∀ rel, ¬ (src ++ rel) `prefix_of` dst) →
  (∀ rel, ¬ dst `prefix_of` (src ++ rel)) →
  no_orphans fs dst →
  copytree src dst false (rmtree dst fs) = Ok fs' →
  ∀ rel, fs' !! (dst ++ rel) = fs !! (src ++ rel).
Proof.
  intros Hsd Hds Horph Hcopy rel.
  pose proof (copytree_fresh _ _ _ _ Hcopy) as Hfresh.
  apply copytree_Ok in Hcopy as (Hsrc & fs1 & Hmk & _ & ->).
  assert (∀ r, rmtree dst fs !! (src ++ r) = fs !! (src ++ r)) as Hkeep.
  { intros r. rewrite rmtree_lookup.
    rewrite (bool_decide_eq_false_2 (dst `prefix_of` _)) by apply Hds.
    by rewrite andb_false_r. }
  assert (∀ r, rmtree dst fs !! (dst ++ r) = None) as Hgone.
  { intros r. rewrite rmtree_lookup. destruct (is_dir fs dst) eqn:Ed; cbn [andb].
    - rewrite bool_decide_eq_true_2; [done|]. by exists r.
    - apply Horph. rewrite rmtree_lookup, Ed in Hfresh. exact Hfresh. }
  rewrite graft_lookup, strip_prefix_app.
  rewrite (makedirs_frame _ _ _ _ Hmk) by apply Hsd. rewrite Hkeep.
  destruct (fs !! (src ++ rel)) as [x|] eqn:Ex; [done|].
  apply makedirs_Ok in Hmk as [_ Hl]. rewrite Hl. case_decide as Hp; [|apply Hgone].
  assert (rel = []) as ->.
  { destruct Hp as [k Hk]. rewrite <- app_assoc in Hk.
    rewrite <- (app_nil_r dst) in Hk at 1. apply app_inv_head in Hk.
    symmetry in Hk. by apply app_eq_nil in Hk as [-> _]. }
  rewrite app_nil_r in Ex. specialize (Hkeep []). rewrite app_nil_r in Hkeep.
  congruence.
Qed.

(** Paths that part ways below a common directory. *)
Ltac apart :=
  norm_paths;
  let Hp := fresh "Hp" in
  intros Hp; apply prefix_app_inv in Hp;
  repeat match type of Hp with
         | (?x :: _) `prefix_of` (?x :: _) => apply prefix_cons_inv_2 in Hp
         end;
  apply prefix_cons_inv_1 in Hp; discriminate Hp.

Lemma build_npm_packages_mirror (H : Host) (w w' : World) (r : list (string * Path))
    (o1 o2 : string) (fsa fsb : FS) :
  respond H pnpm_install (fs w) = Some (o1, fsa) →
  respond H pnpm_build fsa = Some (o2, fsb) →
  no_orphans fsb (resolve H (OUTDIR H </> "dashboard")) →
  no_orphans fsb (resolve H (OUTDIR H </> "autocomplete")) →
  build_npm_packages H w = (Ok r, w') →
  r = [("dashboard", OUTDIR H </> "dashboard");
       ("autocomplete", OUTDIR H </> "autocomplete")]
  ∧ (∀ rel, fs w' !! (resolve H (OUTDIR H </> "dashboard") ++ rel)
            = fsb !! (resolve H (Path_of "apps/dashboard/dist") ++ rel))
  ∧ (∀ rel, fs w' !! (resolve H (OUTDIR H </> "autocomplete") ++ rel)
            = fsb !! (resolve H (Path_of "apps/autocomplete/dist") ++ rel)).
Proof.
  intros Hi Hb Hod Hoa. unfold build_npm_packages, run_cmd.
  intros (u1 & w1 & H1 & Hrun)%bind_Ok.
  apply bind_Ok in H1 as (? & w1' & H1 & Hr1). injection Hr1 as _ <-.
  rewrite external_run in H1. fold pnpm_install in H1. rewrite Hi in H1.
  injection H1 as _ <-.
  apply bind_Ok in Hrun as (u2 & w2 & H2 & Hrun).
  apply bind_Ok in H2 as (? & w2' & H2 & Hr2). injection Hr2 as _ <-.
  rewrite external_run in H2. fold pnpm_build in H2. cbn [fs] in H2. rewrite Hb in H2.
  injection H2 as _ <-.
  apply bind_Ok in Hrun as (u3 & w3 & H3 & Hrun).
  unfold shutil_rmtree in H3. apply on_fs_Ok in H3 as (fs3 & H3 & ->).
  injection H3 as <-.
  apply bind_Ok in Hrun as (u4 & w4 & H4 & Hrun).
  apply on_fs_Ok in H4 as (fs4 & H4 & ->).
  apply bind_Ok in Hrun as (u5 & w5 & H5 & Hrun).
  unfold shutil_rmtree in H5. apply on_fs_Ok in H5 as (fs5 & H5 & ->).
  injection H5 as <-.
  apply bind_Ok in Hrun as (u6 & w6 & H6 & Hrun).
  apply on_fs_Ok in H6 as (fs6 & H6 & ->).
  injection Hrun as <- <-. cbn [fs] in *.
  set (dash := resolve H (OUTDIR H </> "dashboard")) in *.
  set (auto := resolve H (OUTDIR H </> "autocomplete")) in *.
  set (srcd := resolve H (Path_of "apps/dashboard/dist")) in *.
  set (srca := resolve H (Path_of "apps/autocomplete/dist")) in *.
  assert (∀ rel, fs4 !! (dash ++ rel) = fsb !! (srcd ++ rel)) as Hdash.
  { apply copytree_replaces; [| |done|done]; intros rel; subst dash srcd; unrelated. }
  assert (∀ rel, fs4 !! (srca ++ rel) = fsb !! (srca ++ rel)) as Hsrca.
  { intros rel. rewrite (copytree_frame _ _ _ _ _ _ H4).
    - rewrite rmtree_lookup.
      rewrite (bool_decide_eq_false_2 (dash `prefix_of` _)) by (subst dash srca; unrelated).
      by rewrite andb_false_r.
    - subst dash srca; unrelated.
    - subst dash srca; unrelated. }
  assert (∀ rel, fs4 !! (auto ++ rel) = fsb !! (auto ++ rel)) as Hauto.
  { intros rel. rewrite (copytree_frame _ _ _ _ _ _ H4).
    - rewrite rmtree_lookup.
      rewrite (bool_decide_eq_false_2 (dash `prefix_of` _)) by (subst dash auto; apart).
      by rewrite andb_false_r.
    - subst dash auto; apart.
    - subst dash auto; apart. }
  split_and!; [done| |].
  - intros rel. rewrite (copytree_frame _ _ _ _ _ _ H6).
    + rewrite rmtree_lookup.
      rewrite (bool_decide_eq_false_2 (auto `prefix_of` _)) by (subst dash auto; apart).
      rewrite andb_false_r. apply Hdash.
    + subst dash auto; apart.
    + subst dash auto; apart.
  - intros rel. rewrite <- Hsrca.
    apply copytree_replaces; [| | |done]; try (intros rel'; subst auto srca; unrelated).
    intros Hn rel'. rewrite Hauto. apply Hoa. rewrite <- (app_nil_r auto).
    rewrite <- Hauto. by rewrite app_nil_r.
Qed.

Lemma build_npm_packages_install_fails (H : Host) (w : World) :
  respond H pnpm_install (fs w) = None →
  build_npm_packages H w
  = (Raise (ExternalError pnpm_install), MkWorld (fs w) (trace w ++ [pnpm_install]) (log w)).
Proof.
  intros Hi. unfold build_npm_packages, run_cmd, bind. rewrite external_run.
  fold pnpm_install. by rewrite Hi.
Qed.

Lemma build_npm_packages_built (H : Host) (w : World) (o1 o2 : string) (fsa fsb : FS) :
  respond H pnpm_install (fs w) = Some (o1, fsa) →
  respond H pnpm_build fsa = Some (o2, fsb) →
  build_npm_packages H w
  = bind (shutil_rmtree H (OUTDIR H </> "dashboard")) (λ _,
    bind (shutil_copytree H (Path_of "apps/dashboard/dist") (OUTDIR H </> "dashboard") false) (λ _,
    bind (shutil_rmtree H (OUTDIR H </> "autocomplete")) (λ _,
    bind (shutil_copytree H (Path_of "apps/autocomplete/dist")
            (OUTDIR H </> "autocomplete") false) (λ _,
    ret [("dashboard", OUTDIR H </> "dashboard");
         ("autocomplete", OUTDIR H </> "autocomplete")]))))
      (MkWorld fsb (trace w ++ [pnpm_install; pnpm_build]) (log w)).
Proof.
  intros Hi Hb. unfold build_npm_packages, run_cmd.
  unfold bind at 1 2. rewrite external_run. fold pnpm_install. rewrite Hi. cbn [ret].
  unfold bind at 1 2. rewrite external_run. fold pnpm_build. cbn [fs]. rewrite Hb.
  cbn [ret trace log]. by rewrite <- app_assoc.
Qed.

Lemma build_npm_packages_occupied (H : Host) (w : World) (o1 o2 : string) (fsa fsb : FS) :
  respond H pnpm_install (fs w) = Some (o1, fsa) →
  respond H pnpm_build fsa = Some (o2, fsb) →
  is_dir fsb (resolve H (Path_of "apps/dashboard/dist")) = true →
  is_file fsb (resolve H (OUTDIR H </> "dashboard")) = true →
  build_npm_packages H w
  = (Raise (OSError EEXIST (resolve H (OUTDIR H </> "dashboard"))),
     MkWorld fsb (trace w ++ [pnpm_install; pnpm_build]) (log w)).
Proof.
  intros Hi Hb Hsrc Hfile. rewrite (build_npm_packages_built H w o1 o2 fsa fsb Hi Hb).
  set (dash := resolve H (OUTDIR H </> "dashboard")) in *.
  set (srcd := resolve H (Path_of "apps/dashboard/dist")) in *.
  assert (rmtree dash fsb = fsb) as Hrm.
  { unfold rmtree. unfold is_file, is_dir in *. by destruct (fsb !! dash) as [[c|]|]. }
  unfold bind at 1. unfold shutil_rmtree at 1, on_fs. cbn [fs trace log].
  fold dash. rewrite Hrm.
  unfold bind at 1. unfold shutil_copytree at 1, on_fs. cbn [fs trace log].
  fold dash srcd. unfold copytree. unfold is_file, is_dir in *.
  destruct (fsb !! srcd) as [[c|]|]; try done.
  destruct (fsb !! dash) as [[c|]|] eqn:Ed; done.
Qed.

Lemma build_npm_packages_no_output (H : Host) (w : World) (o1 o2 : string) (fsa fsb : FS) :
  respond H pnpm_install (fs w) = Some (o1, fsa) →
  respond H pnpm_build fsa = Some (o2, fsb) →
  fsb !! resolve H (Path_of "apps/dashboard/dist") = None →
  build_npm_packages H w
  = (Raise (OSError ENOENT (resolve H (Path_of "apps/dashboard/dist"))),
     MkWorld (rmtree (resolve H (OUTDIR H </> "dashboard")) fsb)
             (trace w ++ [pnpm_install; pnpm_build]) (log w)).
Proof.
  intros Hi Hb Hsrc. rewrite (build_npm_packages_built H w o1 o2 fsa fsb Hi Hb).
  set (dash := resolve H (OUTDIR H </> "dashboard")) in *.
  set (srcd := resolve H (Path_of "apps/dashboard/dist")) in *.
  unfold bind at 1. unfold shutil_rmtree at 1, on_fs. cbn [fs trace log]. fold dash.
  unfold bind at 1. unfold shutil_copytree at 1, on_fs. cbn [fs trace log].
  fold dash srcd. unfold copytree.
  assert (rmtree dash fsb !! srcd = None) as ->; [|done].
  rewrite rmtree_lookup.
  rewrite (bool_decide_eq_false_2 (dash `prefix_of` _)) by (subst dash srcd; unrelated).
  by rewrite andb_false_r.
Qed.

(** ** The first field of the digest tool's output *)

Lemma split_on_first_field (s : string) :
  ∃ d, item0 (split_on " " s) = Ok d
       ∧ has_space d = false
       ∧ (s = d ∨ ∃ rest, s = d +:+ String " " rest).
Proof.
  induction s as [|c s (d & Hd & Hsp & Hs)]; cbn [split_on].
  - exists "". split_and!; [done|done|by left].
  - destruct (Ascii.eqb c " ") eqn:Ec.
    + apply Ascii.eqb_eq in Ec as ->. exists "". split_and!; [done|done|].
      right. by exists s.
    + destruct (split_on " " s) as [|x l]; [done|]. cbn in Hd. injection Hd as ->.
      exists (String c d). split_and!; [done|cbn [has_space]; by rewrite Ec|].
      destruct Hs as [->|[rest ->]]; [by left|right; by exists rest].
Qed.

Lemma generate_sha_outcome (H : Host) (path : Path) (w : World) :
  match generate_sha H path w with
  | (Ok p, w') =>
      p = sidecar path
      ∧ ∃ out fs1 sha,
          respond H (shasum path) (fs w) = Some (out, fs1)
          ∧ has_space sha = false
          ∧ (out = sha ∨ ∃ rest, out = sha +:+ String " " rest)
          ∧ fs w' = <[resolve H (sidecar path) := File (Bytes sha)]> fs1
  | (Raise e, w') =>
      e = ExternalError (shasum path) ∨ e = ValueError "empty name" ∨ fs_error e
  end.
Proof.
  unfold generate_sha, run_cmd_output, bind. rewrite external_run. fold (shasum path).
  destruct (respond H (shasum path) (fs w)) as [[out fs1]|]; [|by left].
  destruct (split_on_first_field out) as (sha & Hsha & Hsp & Hout).
  unfold lift at 1. rewrite Hsha. unfold ret at 1.
  unfold lift, with_name. case_bool_decide as Hn; [by right; left|].
  fold (sidecar path). unfold write_text, on_fs, ret. cbn [fs].
  destruct (write_file _ _ _) as [fs'|e] eqn:E.
  - apply write_file_Ok in E as [-> _]. split; [done|]. by exists out, fs1, sha.
  - right; right. by eapply write_file_Raise.
Qed.

(** ** The Linux tree builder: what it leaves alone and what it needs *)

Global Instance confined_preorder base : PreOrder (confined base).
Proof.
  split.
  - by intros fs q.
  - intros f1 f2 f3 H12 H23 q Hq1 Hq2. by rewrite H23, H12.
Qed.

Lemma confined_makedirs (base p : list string) (fs fs' : FS) :
  base `prefix_of` p → makedirs p fs = Ok fs' → confined base fs fs'.
Proof.
  intros Hb Hmk q Hq1 Hq2. eapply makedirs_frame; [done|]. intros Hqp.
  destruct (prefix_weak_total _ _ _ Hb Hqp); done.
Qed.

Lemma confined_copy2 (base s d : list string) (fs fs' : FS) :
  base `prefix_of` d → copy2 s d fs = Ok fs' → confined base fs fs'.
Proof.
  intros Hb Hcp q Hq1 Hq2. eapply copy2_frame; [done|]. intros Hdq.
  apply Hq1. by etrans.
Qed.

Lemma confined_copytree (base s d : list string) (b : bool) (fs fs' : FS) :
  base `prefix_of` d → copytree s d b fs = Ok fs' → confined base fs fs'.
Proof.
  intros Hb Hcp q Hq1 Hq2. eapply copytree_frame; [done| |].
  - intros Hqd. destruct (prefix_weak_total _ _ _ Hb Hqd); done.
  - intros Hdq. apply Hq1. by etrans.
Qed.

(** A path below the directory the script runs in. *)
Ltac below :=
  norm_paths; apply prefix_app; repeat (apply prefix_cons); apply prefix_nil.

Ltac confined_fs :=
  intros ? ?;
  first [ apply confined_makedirs; below
        | apply confined_copy2; below
        | apply confined_copytree; below ].

Lemma linux_bundle_extends (H : Host) (cwterm_path cw_cli_path desktop : Path) (b : bool) :
  steady extends (λ _, False) (linux_bundle H cwterm_path cw_cli_path desktop b).
Proof.
  unfold linux_bundle. cbn [for_each icon_resolutions]. steady_with extends_fs.
Qed.

Lemma linux_bundle_confined (H : Host) (cwterm_path cw_cli_path desktop : Path) (b : bool) :
  steady (confined (resolve H (OUTDIR H))) (λ _, False)
         (linux_bundle H cwterm_path cw_cli_path desktop b).
Proof.
  unfold linux_bundle. cbn [for_each icon_resolutions]. steady_with confined_fs.
Qed.

Lemma copy_each_sources (H : Host) (src dst : nat → Path) (l : list nat) (w w' : World) :
  (∀ r r', r ∈ l → r' ∈ l → ¬ resolve H (dst r') `prefix_of` resolve H (src r)) →
  for_each l (λ r, shutil_copy2 H (src r) (dst r)) w = (Ok tt, w') →
  ∀ r, r ∈ l → is_file (fs w) (resolve H (src r)) = true.
Proof.
  revert w. induction l as [|x l IH]; intros w Hapart; cbn [for_each].
  - by intros _ r ?%elem_of_nil.
  - intros (u & w1 & Hx & Hl)%bind_Ok.
    apply on_fs_Ok in Hx as (fs1 & Hcp & ->).
    intros r Hr. pose proof Hcp as (c & Hsrc & _)%copy2_Ok.
    apply elem_of_cons in Hr as [->|Hr].
    + unfold is_file. by rewrite Hsrc.
    + assert (is_file fs1 (resolve H (src r)) = true) as Hf.
      { apply (IH _ (λ a b Ha Hb, Hapart a b (list_elem_of_further _ _ _ Ha)
                                         (list_elem_of_further _ _ _ Hb)) Hl r Hr). }
      unfold is_file in *.
      rewrite <- (copy2_frame _ _ _ _ _ Hcp); [done|].
      apply Hapart; [by apply list_elem_of_further|apply list_elem_of_here].
Qed.

Lemma icons_apart (H : Host) (r r' : nat) :
  r ∈ icon_resolutions → r' ∈ icon_resolutions →
  ¬ resolve H (icon_target r') `prefix_of` resolve H (icon_source r).
Proof.
  unfold icon_resolutions. intros Hr Hr'.
  repeat (apply elem_of_cons in Hr as [->|Hr]); [..|by apply elem_of_nil in Hr];
    (repeat (apply elem_of_cons in Hr' as [->|Hr']); [..|by apply elem_of_nil in Hr']);
    unrelated.
Qed.

Lemma linux_bundle_needs (H : Host) (cwterm_path cw_cli_path desktop : Path) (b : bool)
    (w w' : World) :
  linux_bundle H cwterm_path cw_cli_path desktop b w = (Ok tt, w') →
  is_dir (fs w) (resolve H (Path_of "bundle/linux/headless")) = true
  ∧ (b = false →
     is_dir (fs w) (resolve H (Path_of "bundle/linux/desktop")) = true
     ∧ ∀ res, res ∈ icon_resolutions →
              is_file (fs w) (resolve H (icon_source res)) = true).
Proof.
  intros (w1 & fs3 & fs4 & fs5 & w6 & Hicons & Hmk & Hcw & Hterm & Hover & Htail)%linux_bundle_Ok.
  split.
  - set (src := resolve H (Path_of "bundle/linux/headless")) in *.
    assert (keeps_tree src (fs w) fs5) as Hk.
    { relate (keeps_tree src) along Hicons as Hk1 by keeps_tree_fs.
      etrans; [exact Hk1|].
      etrans; [eapply keeps_tree_makedirs; [|exact Hmk]; intros ?; unrelated|].
      etrans; [eapply keeps_tree_copy2; [|exact Hcw]; intros ?; unrelated|].
      eapply keeps_tree_copy2; [|exact Hterm]; intros ?; unrelated. }
    apply copytree_Ok in Hover as [Hsrc _].
    specialize (Hk []). rewrite app_nil_r in Hk. unfold is_dir. rewrite <- Hk.
      subst src. by rewrite Hsrc.
  - intros ->. cbn [negb] in Hicons, Htail. split.
    + set (src := resolve H (Path_of "bundle/linux/desktop")) in *.
      apply bind_Ok in Htail as (u7 & w7 & Hdesk & _).
      apply on_fs_Ok in Hdesk as (fs7 & Hdesk & _).
      assert (keeps_tree src (fs w) (fs w6)) as Hk.
      { relate (keeps_tree src) along Hicons as Hk1 by keeps_tree_fs.
        etrans; [exact Hk1|].
        etrans; [eapply keeps_tree_makedirs; [|exact Hmk]; intros ?; unrelated|].
        etrans; [eapply keeps_tree_copy2; [|exact Hcw]; intros ?; unrelated|].
        etrans; [eapply keeps_tree_copy2; [|exact Hterm]; intros ?; unrelated|].
        eapply keeps_tree_copytree; [| |exact Hover]; intros ?; unrelated. }
      apply copytree_Ok in Hdesk as [Hsrc _].
      specialize (Hk []). rewrite app_nil_r in Hk. unfold is_dir. rewrite <- Hk.
      subst src. by rewrite Hsrc.
    + eapply copy_each_sources; [|exact Hicons]. intros r r'. apply icons_apart.
Qed.

(** ** The input method bundle *)

Lemma build_macos_ime_returns (H : Host) (signing_data : option SigningData) :
  returns (λ p, p = Path_of "build/CodeWhispererInputMethod.app")
          (build_macos_ime H signing_data).
Proof. unfold build_macos_ime. repeat returns_step. done. Qed.

Lemma build_macos_ime_unsigned (H : Host) :
  steady any_fs (λ ev, is_signing ev = false) (build_macos_ime H None).
Proof. steady_with done. Qed.

Lemma build_macos_ime_signed (H : Host) (sd : SigningData) (w w' : World) (p : Path) :
  build_macos_ime H (Some sd) w = (Ok p, w') →
  let app := Path_of "build/CodeWhispererInputMethod.app" in
  ∃ pre, trace w' = trace w ++ pre ++ [SignFile app IME sd; NotarizeFile app sd]
         ∧ Forall (λ ev, is_signing ev = false) pre.
Proof.
  intros Hrun app.
  cut (hoare (evolves any_fs (λ ev, is_signing ev = false) w) (build_macos_ime H (Some sd))
         (λ _ w', ∃ pre, trace w' = trace w ++ pre ++ [SignFile app IME sd; NotarizeFile app sd]
                         ∧ Forall (λ ev, is_signing ev = false) pre)
         (λ _ _, True)).
  { intros Hh. specialize (Hh w (evolves_refl _ _ w)). by rewrite Hrun in Hh. }
  clear Hrun. unfold build_macos_ime.
  do 5 quiet_step done.
  fold app. intros w0 [_ (pre & Ht & Hpre)].
  destruct (bind _ _ w0) as [[q|e] w1] eqn:Hrun; [|done].
  apply bind_Ok in Hrun as (u & w2 & Hsign & Hret). injection Hret as _ <-.
  apply bind_Ok in Hsign as (u1 & w3 & Hinfo & Hsign).
  unfold info in Hinfo. injection Hinfo as _ <-.
  apply bind_Ok in Hsign as (u2 & w4 & Hs & Hn).
  unfold sign_file in Hs. apply bind_Ok in Hs as (o1 & w5 & Hs & Hr). injection Hr as _ <-.
  rewrite external_run in Hs. cbn [fs trace log] in Hs.
  destruct (respond H _ (fs w0)) as [[o fs1]|]; [|done]. injection Hs as _ <-.
  unfold notarize_file in Hn. apply bind_Ok in Hn as (o2 & w6 & Hn & Hr). injection Hr as _ <-.
  rewrite external_run in Hn. cbn [fs trace log] in Hn.
  destruct (respond H _ fs1) as [[o' fs2]|]; [|done]. injection Hn as _ <-.
  exists pre. cbn [trace]. split; [|done]. by rewrite Ht, <- !app_assoc.
Qed.

(** ** The configuration *)

Lemma signing_data_of_pure (H : Host) (build_args : json) (w : World) :
  signing_data_of H build_args w = ((signing_data_of H build_args w).1, w).
Proof.
  unfold signing_data_of. destruct (_ && _); [|done].
  unfold bind, lift, ret, raise.
  repeat match goal with
         | |- context [getitem build_args ?k] => destruct (getitem build_args k); [|done]
         end.
  done.
Qed.

Lemma main_configuration_error (H : Host) (build_args : json) (e : exn) (w : World) :
  json_loads H (command_line H) = Some build_args →
  (signing_data_of H build_args w).1 = Raise e →
  main H w = (Raise e, w).
Proof.
  intros Hargs Hsd. unfold main, loads. fold (command_line H). rewrite Hargs.
  unfold bind at 1. unfold ret at 1. unfold bind at 1.
  rewrite signing_data_of_pure, Hsd. done.
Qed.

Lemma main_malformed (H : Host) (w : World) :
  json_loads H (command_line H) = None → main H w = (Raise JSONDecodeError, w).
Proof.
  intros Hargs. unfold main, loads. fold (command_line H). by rewrite Hargs.
Qed.

Lemma signing_data_of_incomplete (H : Host) (m : gmap string json) (w : World) :
  signing_configured H (JObj m) = true →
  is_Some (m !! "signing_bucket") →
  m !! "aws_account_id" = None →
  signing_data_of H (JObj m) w = (Raise (KeyError "aws_account_id"), w).
Proof.
  unfold signing_configured, signing_data_of. intros -> [b Hb] Hacc.
  unfold bind, lift, ret, raise. cbn [getitem]. by rewrite Hb, Hacc.
Qed.

(** ** The environment of the toolchain *)

Lemma rust_env_leaves (H : Host) :
  rust_env H None !! "RUST_BACKTRACE" = None ∧ rust_env H None !! "BUILD_DIR" = None.
Proof. unfold rust_env. by destruct (IS_LINUX H), (IS_DARWIN H). Qed.

Lemma toolchain_env_base (H : Host) : toolchain_env H (over_environ H (rust_env H None)).
Proof.
  unfold over_environ. split.
  - intros k v Hk. by apply lookup_union_Some_l.
  - intros k Hk _ _. by apply lookup_union_r.
Qed.

Lemma toolchain_env_insert (H : Host) (env : gmap string string) (k v : string) :
  k = "RUST_BACKTRACE" ∨ k = "BUILD_DIR" →
  toolchain_env H env → toolchain_env H (<[k := v]> env).
Proof.
  intros Hk [Hpin Hrest]. destruct (rust_env_leaves H) as [Hb Hd]. split.
  - intros k' v' Hk'. rewrite lookup_insert_ne; [by apply Hpin|].
    intros <-. destruct Hk as [->| ->]; congruence.
  - intros k' Hk' Hn1 Hn2. rewrite lookup_insert_ne; [by apply Hrest|].
    intros <-. by destruct Hk.
Qed.

Ltac env_leaf :=
  first
    [ done
    | by (intros Hs; discriminate Hs)
    | intros _; eexists; split; [reflexivity|]; split;
      [ first [ apply toolchain_env_base
              | apply toolchain_env_insert; [by auto|apply toolchain_env_base] ]
      | first [ by (intros Ht; discriminate Ht)
              | by (intros _; apply lookup_insert_eq) ] ] ].

Lemma main_environment (H : Host) :
  steady any_fs
    (λ ev, is_toolchain ev = true →
           ∃ env, env_of ev = Some env ∧ toolchain_env H env
                  ∧ (is_test ev = true → env !! "RUST_BACKTRACE" = Some "1"))
    (main H).
Proof. unfold main. steady_with env_leaf. Qed.

Lemma rust_env_pins (H : Host) (linker : option string) :
  rust_env H linker !! "CARGO_INCREMENTAL" = Some "0"
  ∧ rust_env H linker !! "CARGO_PROFILE_RELEASE_LTO" = Some "thin"
  ∧ rust_env H linker !! "CARGO_NET_GIT_FETCH_WITH_CLI" = Some "true"
  ∧ is_Some (rust_env H linker !! "RUSTFLAGS")
  ∧ rust_env H linker !! "MACOSX_DEPLOYMENT_TARGET"
    = (if IS_DARWIN H then Some "10.13" else None).
Proof.
  unfold rust_env. destruct (IS_DARWIN H); split_and!;
    rewrite ?lookup_insert_eq, ?(lookup_insert_ne _ _ _ _) by done;
    try done; rewrite ?lookup_insert_eq; try done; by eexists.
Qed.

(** ** Concrete file systems *)

Lemma no_orphans_by_keys (fs : FS) (p : list string) :
  map_Forall (λ q _, strip_prefix p q = None) fs → no_orphans fs p.
Proof.
  intros Hkeys _ rel. destruct (fs !! (p ++ rel)) as [x|] eqn:E; [|done].
  specialize (Hkeys _ _ E). cbn in Hkeys. by rewrite strip_prefix_app in Hkeys.
Qed.

Lemma demo_pnpm_install (fs : FS) :
  respond (Demo.host true false [] Demo.never) pnpm_install fs = Some ("", fs).
Proof. reflexivity. Qed.

Lemma demo_pnpm_build (fs : FS) :
  respond (Demo.host true false [] Demo.never) pnpm_build fs = Some ("", fs).
Proof. reflexivity. Qed.

(** ** The commands of a run, in order *)

Lemma emits_ret {A : Type} (a : A) : emits [] (ret a).
Proof. intros w a' w' [= _ <-]. by rewrite app_nil_r. Qed.

Lemma emits_raise {A : Type} (evs : list Event) (e : exn) : emits evs (raise (A:=A) e).
Proof. intros w a w' [=]. Qed.

Lemma emits_info (s : string) : emits [] (info s).
Proof. intros w a w' [= _ <-]. by rewrite app_nil_r. Qed.

Lemma emits_lift {A : Type} (r : Result A) : emits [] (lift r).
Proof. destruct r; [apply emits_ret|apply emits_raise]. Qed.

Lemma emits_loads (H : Host) (s : string) : emits [] (loads H s).
Proof. unfold loads. destruct (json_loads H s); [apply emits_ret|apply emits_raise]. Qed.

Lemma emits_on_fs (f : FS → Result FS) : emits [] (on_fs f).
Proof. intros w a w' (fs' & _ & ->)%on_fs_Ok. by rewrite app_nil_r. Qed.

Lemma emits_external (H : Host) (ev : Event) : emits [ev] (external H ev).
Proof.
  intros w a w'. rewrite external_run.
  destruct (respond H ev (fs w)) as [[out fs']|]; [|done]. by intros [= _ <-].
Qed.

Lemma emits_bind {A B : Type} (e1 e2 : list Event) (m : M A) (k : A → M B) :
  emits e1 m → (∀ a, emits e2 (k a)) → emits (e1 ++ e2) (bind m k).
Proof.
  intros Hm Hk w b w' (a & w1 & H1 & H2)%bind_Ok.
  rewrite (Hk a w1 b w' H2), (Hm w a w1 H1). by rewrite app_assoc.
Qed.

Lemma emits_bind_ret {A B : Type} (evs : list Event) (a : A) (k : A → M B) :
  emits evs (k a) → emits evs (bind (ret a) k).
Proof. intros Hk w b w' Hrun. exact (Hk w b w' Hrun). Qed.

Lemma emits_for_each {A : Type} (l : list A) (body : A → M unit) :
  (∀ x, emits [] (body x)) → emits [] (for_each l body).
Proof.
  intros Hb. induction l as [|x l IH]; cbn [for_each]; [apply emits_ret|].
  apply (emits_bind [] []); [apply Hb|]. intros _. exact IH.
Qed.

Lemma emits_bind_silent {A B : Type} (m : M A) (k : A → M B) :
  emits [] m → (∀ a, emits [] (k a)) → emits [] (bind m k).
Proof. apply (emits_bind [] []). Qed.

Lemma emits_bind_returns {A B : Type} (V : A → Prop) (e1 e2 : list Event)
    (m : M A) (k : A → M B) :
  emits e1 m → returns V m → (∀ a, V a → emits e2 (k a)) → emits (e1 ++ e2) (bind m k).
Proof.
  intros Hm Hv Hk w b w' (a & w1 & H1 & H2)%bind_Ok.
  rewrite (Hk a (Hv w a w1 H1) w1 b w' H2), (Hm w a w1 H1). by rewrite app_assoc.
Qed.

Ltac emits_step :=
  cbv beta iota;
  lazymatch goal with
  | |- emits _ (bind (ret _) _) => apply emits_bind_ret
  | |- emits _ (ret _) => apply emits_ret
  | |- emits _ (raise _) => apply emits_raise
  | |- emits _ (info _) => apply emits_info
  | |- emits _ (lift _) => apply emits_lift
  | |- emits _ (loads _ _) => apply emits_loads
  | |- emits _ (on_fs _) => apply emits_on_fs
  | |- emits _ (external _ _) => apply emits_external
  | |- emits _ (for_each _ _) => apply emits_for_each; intros [? ?]
  | |- emits ?evs (bind _ _) =>
      tryif is_evar evs then (eapply emits_bind; [|intros ?])
      else (apply emits_bind_silent; [|intros ?])
  | |- emits _ _ => progress autounfold with script
  end.

Lemma build_desktop_app_emits (H : Host) (cwterm_path cw_cli_path : Path)
    (npm_packages : list (string * Path)) (f : option (list string)) :
  IS_DARWIN H = true →
  emits (desktop_commands H f)
        (build_desktop_app H cwterm_path cw_cli_path npm_packages None f).
Proof.
  intros Hd.
  unfold build_desktop_app, build_macos_ime, build_cargo_bin, targets. rewrite Hd.
  eapply (eq_ind _ (λ evs, emits evs _)); [repeat emits_step|].
  reflexivity.
Qed.

Lemma main_emits_macos (H : Host) (build_args : json) :
  json_loads H (command_line H) = Some build_args →
  IS_DARWIN H = true →
  signing_configured H build_args = false →
  n H build_args "output_bucket" = false →
  emits (macos_commands H (features_of H build_args)) (main H).
Proof.
  intros Hargs Hd Hs Hb. unfold main, loads. fold (command_line H). rewrite Hargs.
  apply emits_bind_ret. cbv beta.
  rewrite (signing_data_of_none H build_args Hs).
  rewrite (staging_location_of_none H build_args Hb).
  unfold build_cargo_bin, targets. rewrite Hd.
  eapply (eq_ind _ (λ evs, emits evs _)).
  { repeat lazymatch goal with
           | |- emits _ (bind (build_desktop_app _ _ _ _ _ _) _) =>
               eapply emits_bind_returns;
               [by apply build_desktop_app_emits
               |apply build_desktop_app_returns
               |intros ? ->]
           | |- _ => emits_step
           end. }
  reflexivity.
Qed.

Lemma signing_data_of_emits (H : Host) (build_args : json) :
  emits [] (signing_data_of H build_args).
Proof.
  unfold signing_data_of. destruct (_ && _); [|apply emits_ret]. repeat emits_step.
Qed.

Lemma main_emits_linux (H : Host) (build_args : json) :
  json_loads H (command_line H) = Some build_args →
  IS_DARWIN H = false → IS_LINUX H = true →
  n H build_args "output_bucket" = false →
  emits (linux_commands H (features_of H build_args)) (main H).
Proof.
  intros Hargs Hd Hl Hb. unfold main, loads. fold (command_line H). rewrite Hargs.
  apply emits_bind_ret. cbv beta.
  rewrite (staging_location_of_none H build_args Hb).
  unfold build_cargo_bin, targets. rewrite Hd, Hl.
  eapply (eq_ind _ (λ evs, emits evs _)).
  { repeat lazymatch goal with
           | |- emits _ (signing_data_of _ _) => apply signing_data_of_emits
           | |- _ => emits_step
           end. }
  reflexivity.
Qed.

(** ** The names of the external binaries *)

Lemma list_ascii_of_string_app (s t : string) :
  String.list_ascii_of_string (s +:+ t)
  = String.list_ascii_of_string s ++ String.list_ascii_of_string t.
Proof. induction s as [|c s IH]; [done|]. cbn. by rewrite <- IH. Qed.

Lemma removesuffix_app (s suffix : string) : removesuffix (s +:+ suffix) suffix = s.
Proof.
  unfold removesuffix. rewrite list_ascii_of_string_app.
  rewrite bool_decide_eq_true_2 by (by eexists).
  rewrite length_app, Nat.add_sub, take_app_length.
  apply String.string_of_list_ascii_of_string.
Qed.

Lemma removesuffix_other (s suffix : string) :
  ¬ String.list_ascii_of_string suffix `suffix_of` String.list_ascii_of_string s →
  removesuffix s suffix = s.
Proof. intros Hn. unfold removesuffix. by rewrite bool_decide_eq_false_2. Qed.

Lemma string_app_assoc (a b c : string) : (a +:+ b) +:+ c = a +:+ (b +:+ c).
Proof.
  induction a as [|x a IH]; [done|].
  change (String x ((a +:+ b) +:+ c) = String x (a +:+ (b +:+ c))). by rewrite IH.
Qed.

Lemma join_snoc_app (sep : string) (l : list string) (x y : string) :
  join sep (l ++ [x +:+ y]) = join sep (l ++ [x]) +:+ y.
Proof.
  induction l as [|a l IH]; [done|].
  cbn [app]. destruct l as [|b l].
  - change (a +:+ sep +:+ (x +:+ y) = (a +:+ sep +:+ x) +:+ y).
    by rewrite !string_app_assoc.
  - change (join sep (a :: (b :: l) ++ [x +:+ y]))
      with (a +:+ sep +:+ join sep ((b :: l) ++ [x +:+ y])).
    change (join sep (a :: (b :: l) ++ [x]))
      with (a +:+ sep +:+ join sep ((b :: l) ++ [x])).
    rewrite IH. by rewrite !string_app_assoc.
Qed.

Lemma str_staged_suffix (H : Host) (nm suffix : string) :
  component nm → component (nm +:+ suffix) →
  str (OUTDIR H </> (nm +:+ suffix)) = str (OUTDIR H </> nm) +:+ suffix.
Proof.
  unfold component. intros Hnm Hs. unfold joinpath. rewrite Hnm, Hs.
  cbn [anchored parts OUTDIR]. unfold str. cbn [anchored parts].
  rewrite join_snoc_app. done.
Qed.

Lemma tauri_config_staged (H : Host) (cw term target : string) :
  component cw → component (cw +:+ "-" +:+ target) →
  component term → component (term +:+ "-" +:+ target) →
  tauri_config H (OUTDIR H </> (cw +:+ "-" +:+ target))
                 (OUTDIR H </> (term +:+ "-" +:+ target)) target
  = external_bins H (str (OUTDIR H </> cw)) (str (OUTDIR H </> term)).
Proof.
  intros Hc Hcs Ht Hts. unfold tauri_config, external_bins.
  rewrite (str_staged_suffix H cw _ Hc Hcs), (str_staged_suffix H term _ Ht Hts).
  by rewrite !removesuffix_app.
Qed.

Lemma tauri_config_other (H : Host) (p q : Path) (target : string) :
  ¬ String.list_ascii_of_string ("-" +:+ target)
      `suffix_of` String.list_ascii_of_string (str p) →
  ¬ String.list_ascii_of_string ("-" +:+ target)
      `suffix_of` String.list_ascii_of_string (str q) →
  tauri_config H p q target = external_bins H (str p) (str q).
Proof.
  intros Hp Hq. unfold tauri_config, external_bins.
  by rewrite !removesuffix_other.
Qed.

(** * The claims *)

(** C1.  The signing stage ([sign_and_rebundle_macos], run by the bundle
    assembly when a signing configuration is supplied) invokes exactly: sign
    the app, notarize the app, rebuild the disk image from the signed app,
    sign the disk image, notarize the disk image, in this order.  A run that
    returns has invoked the five of them; a run that raises has stopped at
    the operation that failed, with those before it invoked in order.  Seen
    from the whole bundle assembly, the signing calls that concern the app
    bundle or the disk image form an initial segment of that plan, the whole
    plan when the assembly returns. *)
Theorem signing_stage_order (H : Host) (cwterm_path cw_cli_path : Path)
    (npm_packages : list (string * Path)) (sd : SigningData)
    (features : option (list string)) (w : World) :
  let app_path := OUTDIR H </> "CodeWhisperer.app" in
  let dmg_path := OUTDIR H </> "CodeWhisperer.dmg" in
  let plan := signing_plan app_path dmg_path sd in
  let about := λ ev, concerns [app_path; dmg_path] ev = true in
  match sign_and_rebundle_macos H app_path dmg_path sd w with
  | (Ok _, w') => trace w' = trace w ++ plan
  | (Raise e, w') =>
      ∃ k ev, plan !! k = Some ev
              ∧ trace w' = trace w ++ take (S k) plan
              ∧ e = ExternalError ev
  end
  ∧ match build_desktop_app H cwterm_path cw_cli_path npm_packages (Some sd) features w with
    | (Ok _, w') => ∃ evs, trace w' = trace w ++ evs ∧ filter about evs = plan
    | (Raise _, w') => ∃ evs k, trace w' = trace w ++ evs ∧ filter about evs = take k plan
    end.
Proof.
  split; [apply sign_and_rebundle_macos_run|apply build_desktop_app_signing].
Qed.

(** C10.  On a platform that is neither macOS nor Linux, [build_cargo_bin]
    raises [ValueError("Unsupported platform")] and leaves the world as it
    found it: no external command in the trace, no change of the file
    system. *)
Theorem build_cargo_bin_unsupported_platform (H : Host) (package : string)
    (output_name : option string) (features : option (list string)) (w : World) :
  IS_DARWIN H = false → IS_LINUX H = false →
  build_cargo_bin H package output_name features w
  = (Raise (ValueError "Unsupported platform"), w).
Proof.
  intros Hd Hl. unfold build_cargo_bin, targets. by rewrite Hd, Hl.
Qed.

Lemma build_cargo_bin_unsupported_platform_witness :
  build_cargo_bin (Demo.host false false [] Demo.never) "cw_cli" (Some "cw") None
    (Demo.start Demo.checkout)
  = (Raise (ValueError "Unsupported platform"), Demo.start Demo.checkout).
Proof.
  apply build_cargo_bin_unsupported_platform; reflexivity.
Defined.

(** C9, as the code has it.  [OUTDIR.mkdir(parents=True, exist_ok=True)] at
    the start of the run creates the staging directory when it is missing and
    clears nothing: every entry of the file system is still there with the
    same content, and no external operation is invoked.  When the call
    returns the staging directory is a directory; it raises, changing
    nothing, when a regular file is in the way. *)
Theorem staging_dir_created_not_cleared (H : Host) (w : World) :
  match mkdir H (OUTDIR H) w with
  | (Ok _, w') =>
      is_dir (fs w') (resolve H (OUTDIR H)) = true
      ∧ (∀ q x, fs w !! q = Some x → fs w' !! q = Some x)
      ∧ trace w' = trace w
  | (Raise e, w') => w' = w ∧ fs_error e
  end.
Proof.
  unfold mkdir, on_fs.
  destruct (makedirs (resolve H (OUTDIR H)) (fs w)) as [fs'|e] eqn:E.
  - cbn [fs trace]. split_and!; [by eapply makedirs_is_dir|by eapply makedirs_keeps|done].
  - split; [done|]. by eapply makedirs_Raise.
Qed.

Lemma staging_dir_not_cleared :
  let H := Demo.host true false [] (runs ["pnpm"; "install"]) in
  let w := Demo.start Demo.stale_checkout in
  ¬ staging_cleared H w
  ∧ fs (world_after (main H) w) !! Demo.stale_file = Some (File (Bytes "left over"))
  ∧ trace (world_after (main H) w)
    = [Run [AStr "pnpm"; AStr "install"; AStr "--frozen-lockfile"] None None].
Proof.
  split_and!.
  - intros Hc. specialize (Hc Demo.stale_file).
    assert (fs (world_after (mkdir (Demo.host true false [] (runs ["pnpm"; "install"]))
                                   (OUTDIR (Demo.host true false [] (runs ["pnpm"; "install"]))))
                            (Demo.start Demo.stale_checkout)) !! Demo.stale_file
            = Some (File (Bytes "left over"))) as Hs by (vm_compute; reflexivity).
    rewrite Hc in Hs; [done|..].
    + by exists ["stale.txt"].
    + vm_compute. discriminate.
    + vm_compute. eauto.
  - vm_compute. reflexivity.
  - vm_compute. reflexivity.
Qed.

(** C7.  On macOS [build_cargo_bin] runs one compiler invocation that names
    both declared target triples, then one [lipo -create] whose inputs are the
    two per-architecture outputs, and returns the path of the merged
    universal binary; a failing compile or merge is fatal, and the merge does
    fail when an architecture's output is missing (given that the merge tool
    refuses missing inputs).  On Linux it compiles the single target and
    returns the path below the staging directory that receives a copy of that
    target's output (the copy sits at the returned path unless that path is
    already a directory, in which case [shutil.copy2] puts it inside). *)
Theorem compilation_driver (H : Host) (package : string) (output_name : option string)
    (features : option (list string)) (w : World) :
  merge_needs_inputs H →
  let env := Some (over_environ H (rust_env H None)) in
  let cargo_build triples :=
    [AStr "cargo"; AStr "build"; AStr "--release"; AStr "--locked";
     AStr "--package"; AStr package]
    ++ flat_map (λ t, [AStr "--target"; AStr t]) triples ++ features_args features in
  let output t := "target/" +:+ t +:+ "/release/" +:+ package in
  (IS_DARWIN H = true →
   let triples := ["x86_64-apple-darwin"; "aarch64-apple-darwin"] in
   let outpath := OUTDIR H </> (or_else output_name package +:+ "-universal-apple-darwin") in
   let build := Run (cargo_build triples) None env in
   let merge :=
     Run ([AStr "lipo"; AStr "-create"; AStr "-output"; APath outpath]
          ++ (AStr <$> (output <$> triples))) None None in
   match build_cargo_bin H package output_name features w with
   | (Ok p, w') => p = outpath ∧ trace w' = trace w ++ [build; merge]
   | (Raise e, w') =>
       (e = ExternalError build ∧ trace w' = trace w ++ [build])
       ∨ (e = ExternalError merge ∧ trace w' = trace w ++ [build; merge])
   end
   ∧ ∀ out fs1 t,
       respond H build (fs w) = Some (out, fs1) →
       t ∈ triples →
       is_file fs1 (resolve H (Path_of (output t))) = false →
       build_cargo_bin H package output_name features w
       = (Raise (ExternalError merge), MkWorld fs1 (trace w ++ [build; merge]) (log w)))
  ∧ (IS_DARWIN H = false → IS_LINUX H = true →
     let build := Run (cargo_build ["x86_64-unknown-linux-gnu"]) None env in
     let target_path := Path_of "target/x86_64-unknown-linux-gnu/release" </> package in
     let out_path := OUTDIR H </> or_else output_name package in
     match build_cargo_bin H package output_name features w with
     | (Ok p, w') =>
         p = out_path ∧ trace w' = trace w ++ [build]
         ∧ ∃ out fs1 c,
             respond H build (fs w) = Some (out, fs1)
             ∧ fs1 !! resolve H target_path = Some (File c)
             ∧ (is_dir fs1 (resolve H out_path) = false →
                fs w' !! resolve H out_path = Some (File c))
     | (Raise e, w') =>
         (e = ExternalError build ∧ trace w' = trace w ++ [build])
         ∨ (fs_error e ∧ trace w' = trace w ++ [build])
     end).
Proof.
  intros Hlipo env cargo_build output. split.
  - intros Hd triples outpath build merge.
    rewrite (build_cargo_bin_darwin H package output_name features w build merge outpath
               Hd eq_refl eq_refl eq_refl).
    split.
    + destruct (respond H build (fs w)) as [[out fs1]|]; [|by left].
      destruct (respond H merge fs1) as [[out2 fs2]|]; [done|by right].
    + intros out fs1 t -> Ht Hmiss.
      unfold merge at 1. rewrite Hlipo; [done|].
      apply Exists_exists. exists (output t). split; [|done].
      apply list_elem_of_fmap. by exists t.
  - intros Hd Hl build target_path out_path.
    rewrite (build_cargo_bin_linux H package output_name features w build Hd Hl eq_refl).
    destruct (respond H build (fs w)) as [[out fs1]|] eqn:Eb; [|by left].
    fold target_path out_path.
    destruct (copy2 (resolve H target_path) (resolve H out_path) fs1) as [fs2|e] eqn:Ec.
    + split_and!; [done..|].
      apply copy2_Ok in Ec as (c & Hsrc & ->).
      exists out, fs1, c. split_and!; [done..|].
      intros ->. cbn [fs]. apply lookup_insert_eq.
    + right. split; [|done]. by eapply copy2_Raise.
Qed.

Lemma compilation_driver_witness :
  let H := Demo.host true false [] Demo.never in
  let L := Demo.host false true [] Demo.never in
  let w := Demo.start Demo.staged in
  (build_cargo_bin H "cw_cli" (Some "cw") None w).1
  = Ok (OUTDIR H </> "cw-universal-apple-darwin")
  ∧ ∃ c, (build_cargo_bin L "cw_cli" (Some "cw") None w).1 = Ok (OUTDIR L </> "cw")
         ∧ fs (build_cargo_bin L "cw_cli" (Some "cw") None w).2
             !! resolve L (OUTDIR L </> "cw") = Some (File c).
Proof.
  intros H L w. split.
  - destruct (compilation_driver H "cw_cli" (Some "cw") None w
                (demo_merge_needs_inputs true false [])) as [Hmac _].
    specialize (Hmac eq_refl). cbv zeta in Hmac. destruct Hmac as [Hmac _].
    assert (is_Ok (build_cargo_bin H "cw_cli" (Some "cw") None w).1 = true) as Hok
      by (vm_compute; reflexivity).
    destruct (build_cargo_bin H "cw_cli" (Some "cw") None w) as [[p|e] w'];
      [|discriminate Hok].
    destruct Hmac as [-> _]. reflexivity.
  - destruct (compilation_driver L "cw_cli" (Some "cw") None w
                (demo_merge_needs_inputs false true [])) as [_ Hlinux].
    specialize (Hlinux eq_refl eq_refl). cbv zeta in Hlinux.
    assert (is_Ok (build_cargo_bin L "cw_cli" (Some "cw") None w).1 = true) as Hok
      by (vm_compute; reflexivity).
    destruct (build_cargo_bin L "cw_cli" (Some "cw") None w) as [[p|e] w'];
      [|discriminate Hok].
    destruct Hlinux as (-> & _ & out & fs1 & c & Hb & Hsrc & Hcopy).
    exists c. split; [reflexivity|]. apply Hcopy.
    match type of Hb with
    | ?r = _ =>
        assert (is_dir (default ∅ (snd <$> r)) (resolve L (OUTDIR L </> "cw")) = false)
          as Hd by (vm_compute; reflexivity)
    end.
    rewrite Hb in Hd. exact Hd.
Defined.

(** C8, as the code has it.  With the property-list tools behaving as their
    manuals say, a patch that succeeded has set the display name, the bundle
    name, the agent flag and the URL-scheme association; applied again to the
    patched bundle it rewrites the first three to the same values and then
    raises, because [plutil -insert] refuses a key that is already there.
    The metadata file, and the rest of the file system, are left exactly as
    the first application left them. *)
Theorem metadata_patch_twice (H : Host) (info_plist_path : Path) (w w1 : World) :
  plist_tools H →
  patch_metadata H info_plist_path w = (Ok tt, w1) →
  (∃ d1, fs w1 !! resolve H info_plist_path = Some (File (Plist d1)) ∧ patched d1)
  ∧ ∃ ev w2, patch_metadata H info_plist_path w1 = (Raise (ExternalError ev), w2)
             ∧ runs ["plutil"; "-insert"] ev = true
             ∧ fs w2 = fs w1.
Proof.
  intros Htools Hok.
  pose proof (patch_metadata_run H info_plist_path w Htools) as Hrun.
  cbv zeta in Hrun.
  destruct (fs w !! resolve H info_plist_path) as [[[s|d]|]|] eqn:E;
    try (destruct Hrun as (ev & tr & _ & Hrun); congruence).
  destruct (d !! "CFBundleURLTypes") as [x|] eqn:Eu;
    [destruct Hrun as (ev & tr & _ & Hrun); congruence|].
  destruct Hrun as [tr Hrun]. rewrite Hrun in Hok. injection Hok as <-.
  set (d4 := <["CFBundleURLTypes" := "-xml " +:+ url_types_xml]>
             (<["LSUIElement" := "-bool TRUE"]>
             (<["CFBundleName" := "CodeWhisperer"]>
             (<["CFBundleDisplayName" := "CodeWhisperer"]> d)))).
  assert (Hp : patched d4).
  { unfold patched, d4. split_and!; by simplify_map_eq. }
  split.
  - exists d4. split; [|done]. cbn [fs]. apply lookup_insert_eq.
  - pose proof (patch_metadata_run H info_plist_path
                  (MkWorld (<[resolve H info_plist_path := File (Plist d4)]> (fs w)) tr (log w))
                  Htools) as Hrun2.
    cbv zeta in Hrun2. cbn [fs] in Hrun2. rewrite lookup_insert_eq in Hrun2.
    destruct Hp as (Hp1 & Hp2 & Hp3 & Hp4). rewrite Hp4 in Hrun2.
    destruct Hrun2 as (ev & tr2 & Hev & Hrun2).
    exists ev. eexists. split_and!; [exact Hrun2|done|].
    cbn [fs]. rewrite insert_insert_eq. do 3 f_equal.
    rewrite (insert_id d4 "CFBundleDisplayName") by done.
    rewrite (insert_id d4 "CFBundleName") by done.
    by rewrite (insert_id d4 "LSUIElement").
Qed.

Lemma metadata_patch_twice_witness :
  let H := Demo.host true false [] Demo.never in
  let w := Demo.start Demo.fresh_bundle in
  let w1 := (patch_metadata H Demo.info_plist w).2 in
  ∃ ev w2, patch_metadata H Demo.info_plist w1 = (Raise (ExternalError ev), w2)
           ∧ runs ["plutil"; "-insert"] ev = true
           ∧ fs w2 = fs w1.
Proof.
  intros H w w1.
  apply (metadata_patch_twice H Demo.info_plist w w1).
  - apply demo_plist_tools.
  - apply run_returns. vm_compute. reflexivity.
Defined.

Lemma metadata_patch_not_idempotent :
  ¬ patch_idempotent (Demo.host true false [] Demo.never) Demo.info_plist
      (Demo.start Demo.fresh_bundle).
Proof.
  intros Hc.
  destruct (Hc (patch_metadata (Demo.host true false [] Demo.never) Demo.info_plist
                  (Demo.start Demo.fresh_bundle)).2) as (w2 & Hw2 & _).
  { apply run_returns. vm_compute. reflexivity. }
  match type of Hw2 with
  | ?l = _ => assert (is_Ok l.1 = false) as Hf by (vm_compute; reflexivity)
  end.
  rewrite Hw2 in Hf. discriminate.
Qed.














(** * Further properties of the script *)

(** X1.  Every toolchain command of a run of [main] (the tests, the
    compilations, the desktop build) is run with an environment in which each
    variable that [rust_env] sets has [rust_env]'s value, whatever the process
    environment says, and every other variable has the value of the process
    environment ([RUST_BACKTRACE], forced to 1 for the tests, and [BUILD_DIR]
    apart).  [rust_env] always sets [CARGO_INCREMENTAL], the link-time
    optimisation mode, [CARGO_NET_GIT_FETCH_WITH_CLI] and [RUSTFLAGS], and the
    deployment target exactly on macOS. *)
Theorem toolchain_environment (H : Host) (w : World) (linker : option string) :
  Forall (λ ev, is_toolchain ev = true →
                ∃ env, env_of ev = Some env ∧ toolchain_env H env
                       ∧ (is_test ev = true → env !! "RUST_BACKTRACE" = Some "1"))
         (events_of (main H) w)
  ∧ rust_env H linker !! "CARGO_INCREMENTAL" = Some "0"
  ∧ rust_env H linker !! "CARGO_PROFILE_RELEASE_LTO" = Some "thin"
  ∧ rust_env H linker !! "CARGO_NET_GIT_FETCH_WITH_CLI" = Some "true"
  ∧ is_Some (rust_env H linker !! "RUSTFLAGS")
  ∧ rust_env H linker !! "MACOSX_DEPLOYMENT_TARGET"
    = (if IS_DARWIN H then Some "10.13" else None).
Proof.
  split; [apply steady_events, main_environment|apply rust_env_pins].
Qed.

(** X2.  The feature list of a run is [gamma] when the toggle is given and
    empty otherwise, and it reaches every toolchain command but one: the
    tests, the builds of the CLI and of the terminal, and the desktop build
    carry it; the build of the input method never carries features. *)
Theorem features_reach_toolchain (H : Host) (build_args : json) (w : World) :
  json_loads H (command_line H) = Some build_args →
  features_args (features_of H build_args)
  = (if n H build_args "gamma" then [AStr "--features"; AStr "gamma"] else [])
  ∧ Forall (λ ev, is_toolchain ev = true →
                  toolchain_command (features_of H build_args) ev)
           (events_of (main H) w).
Proof.
  intros Hargs. split.
  - unfold features_of. by destruct (n H build_args "gamma").
  - by apply steady_events, main_toolchain.
Qed.

Lemma features_reach_toolchain_witness :
  let G := Demo.host_with (JObj {[ "gamma" := JBool true ]}) Demo.cargo_metadata false true in
  let w := Demo.start Demo.checkout in
  features_args (features_of G (JObj {[ "gamma" := JBool true ]}))
  = [AStr "--features"; AStr "gamma"]
  ∧ Forall (λ ev, is_toolchain ev = true →
                  toolchain_command (features_of G (JObj {[ "gamma" := JBool true ]})) ev)
           (events_of (main G) w).
Proof.
  intros G w.
  exact (features_reach_toolchain G (JObj {[ "gamma" := JBool true ]}) w eq_refl).
Defined.

(** X3.  Off macOS a run of [main] invokes nothing but the web asset build,
    the tests, compilations and uploads: no packaging, imaging, patching,
    digest or signing tool. *)
Theorem commands_without_bundle_assembly (H : Host) (w : World) :
  IS_DARWIN H = false →
  Forall (λ ev, is_plain_command ev = true) (events_of (main H) w).
Proof. intros Hd. by apply steady_events, main_plain_commands. Qed.

Lemma commands_without_bundle_assembly_witness :
  let L := Demo.host false true ["bucket"] Demo.never in
  Forall (λ ev, is_plain_command ev = true) (events_of (main L) (Demo.start Demo.checkout)).
Proof.
  intros L. exact (commands_without_bundle_assembly L (Demo.start Demo.checkout) eq_refl).
Defined.

(** X4.  On a platform that is neither macOS nor Linux a run of [main] never
    returns: it raises, having invoked at most the web asset build and the
    tests (the platform is only checked when the first binary is compiled). *)
Theorem unsupported_platform_run (H : Host) (w : World) :
  IS_DARWIN H = false → IS_LINUX H = false →
  is_Ok (result_of (main H) w) = false
  ∧ Forall (λ ev, ev ∈ asset_build_events ∨ is_test ev = true) (events_of (main H) w).
Proof.
  intros Hd Hl.
  pose proof (main_unsupported H w Hd Hl w (evolves_refl _ _ w)) as Hrun.
  unfold result_of, events_of, world_after.
  destruct (main H w) as [[a|e] w1]; cbn [fst snd]; [done|].
  split; [done|]. destruct Hrun as [_ (evs & -> & Hevs)]. by rewrite drop_app_length.
Qed.

Lemma unsupported_platform_run_witness :
  let U := Demo.host false false [] Demo.never in
  let w := Demo.start Demo.checkout in
  is_Ok (result_of (main U) w) = false
  ∧ Forall (λ ev, ev ∈ asset_build_events ∨ is_test ev = true) (events_of (main U) w).
Proof.
  intros U w. exact (unsupported_platform_run U w eq_refl eq_refl).
Defined.

(** X5.  A run of [main] that ends with the error of an external operation
    has that operation as the last event of its trace: the pipeline invokes
    nothing after a command that failed. *)
Theorem nothing_after_a_failed_command (H : Host) (w : World) :
  match main H w with
  | (Raise (ExternalError ev), w') => last (trace w') = Some ev
  | _ => True
  end.
Proof.
  pose proof (main_fail_fast H w) as Hff.
  destruct (main H w) as [[a|e] w']; [done|].
  destruct e as [| | | | | | |ev]; try done. exact (Hff (ExternalError ev) w' eq_refl).
Qed.

(** X6.  [version] asks the workspace metadata once and returns the version
    of the first package named [fig_desktop]; packages after it are not
    looked at.  With no such package it raises
    [ValueError("Version not found")]; a package without a name before the
    match raises the error of the subscript. *)
Theorem version_lookup (H : Host) (w : World) (out : string) (fs1 : FS) (data : json)
    (pkgs : list json) :
  respond H metadata_query (fs w) = Some (out, fs1) →
  json_loads H out = Some data →
  getitem data "packages" = Ok (JArr pkgs) →
  events_of (version H) w = [metadata_query]
  ∧ (Forall other_package pkgs →
     result_of (version H) w = Raise (ValueError "Version not found"))
  ∧ (∀ pre pkg post,
       pkgs = pre ++ pkg :: post → Forall other_package pre →
       getitem pkg "name" = Ok (JStr "fig_desktop") →
       result_of (version H) w = getitem pkg "version")
  ∧ (∀ pre pkg post e,
       pkgs = pre ++ pkg :: post → Forall other_package pre →
       getitem pkg "name" = Raise e →
       result_of (version H) w = Raise e).
Proof.
  intros Hout Hdata Hpkgs.
  pose proof (version_run H w out fs1 data pkgs Hout Hdata Hpkgs) as Hrun.
  unfold events_of, world_after, result_of. rewrite Hrun. cbn [fst snd trace].
  split_and!.
  - by rewrite drop_app_length.
  - intros Hall. rewrite <- (app_nil_r pkgs). by rewrite find_version_skips.
  - intros pre pkg post -> Hpre Hnm. rewrite find_version_skips by done.
    cbn [find_version]. rewrite Hnm. cbn [eq_str].
    by rewrite bool_decide_eq_true_2.
  - intros pre pkg post e -> Hpre Hnm. rewrite find_version_skips by done.
    cbn [find_version]. by rewrite Hnm.
Qed.

Lemma version_lookup_witness :
  let D := Demo.host true false [] Demo.never in
  result_of (version D) (Demo.start Demo.checkout)
  = Ok (JStr "1.2.3").
Proof.
  intros D.
  destruct (version_lookup D (Demo.start Demo.checkout) "cargo-metadata" Demo.checkout
              Demo.cargo_metadata
              [JObj (list_to_map [("name", JStr "fig_input_method"); ("version", JStr "0.1.0")]);
               JObj (list_to_map [("name", JStr "fig_desktop"); ("version", JStr "1.2.3")])]
              eq_refl eq_refl eq_refl) as (_ & _ & Hfirst & _).
  rewrite (Hfirst
             [JObj (list_to_map [("name", JStr "fig_input_method"); ("version", JStr "0.1.0")])]
             (JObj (list_to_map [("name", JStr "fig_desktop"); ("version", JStr "1.2.3")]))
             [] eq_refl).
  - reflexivity.
  - apply Forall_singleton. exists (JStr "fig_input_method"). split; reflexivity.
  - reflexivity.
Defined.

(** X7.  [gen_manifest] reads the release channel before the version: a run
    that returns has asked the workspace metadata exactly twice and invoked
    nothing else, and when the metadata has no [metadata.channel] it raises
    the error of that subscript after the first query, without asking for
    the version. *)
Theorem manifest_queries (H : Host) (w : World) :
  (∀ s w', gen_manifest H w = (Ok s, w') →
           trace w' = trace w ++ [metadata_query; metadata_query])
  ∧ (∀ out fs1 data e,
       respond H metadata_query (fs w) = Some (out, fs1) →
       json_loads H out = Some data →
       match getitem data "metadata" with
       | Ok md => getitem md "channel"
       | Raise e => Raise e
       end = Raise e →
       gen_manifest H w
       = (Raise e, MkWorld fs1 (trace w ++ [metadata_query]) (log w))).
Proof.
  split.
  - intros s w'. apply gen_manifest_Ok.
  - intros out fs1 data e. apply gen_manifest_no_channel.
Qed.

Lemma manifest_queries_witness :
  let D := Demo.host true false [] Demo.never in
  let w := Demo.start Demo.checkout in
  trace (gen_manifest D w).2 = [metadata_query; metadata_query]
  ∧ (gen_manifest (Demo.host_with (JObj ∅) (JObj ∅) true false) w).1 = Raise (KeyError "metadata").
Proof.
  intros D w. split.
  - destruct (manifest_queries D w) as [Hok _].
    destruct (run_returns_value (gen_manifest D) w) as [s Hs]; [vm_compute; reflexivity|].
    exact (Hok s _ Hs).
  - destruct (manifest_queries (Demo.host_with (JObj ∅) (JObj ∅) true false) w) as [_ Hraise].
    rewrite (Hraise "cargo-metadata" Demo.checkout (JObj ∅) (KeyError "metadata")
               eq_refl eq_refl eq_refl).
    reflexivity.
Defined.

(** X8.  After a run of [build_npm_packages] that returns, the staged
    [dashboard] and [autocomplete] trees are exact copies of the two [dist]
    trees as the asset build left them: every path below the staged directory
    holds what the same relative path below [dist] holds, and nothing else, so
    no file of an earlier build survives.  (The file system the asset build
    leaves is taken to have nothing below a missing staged directory.) *)
Theorem web_assets_mirror (H : Host) (w w' : World) (r : list (string * Path))
    (o1 o2 : string) (fsa fsb : FS) :
  respond H pnpm_install (fs w) = Some (o1, fsa) →
  respond H pnpm_build fsa = Some (o2, fsb) →
  no_orphans fsb (resolve H (OUTDIR H </> "dashboard")) →
  no_orphans fsb (resolve H (OUTDIR H </> "autocomplete")) →
  build_npm_packages H w = (Ok r, w') →
  r = [("dashboard", OUTDIR H </> "dashboard");
       ("autocomplete", OUTDIR H </> "autocomplete")]
  ∧ (∀ rel, fs w' !! (resolve H (OUTDIR H </> "dashboard") ++ rel)
            = fsb !! (resolve H (Path_of "apps/dashboard/dist") ++ rel))
  ∧ (∀ rel, fs w' !! (resolve H (OUTDIR H </> "autocomplete") ++ rel)
            = fsb !! (resolve H (Path_of "apps/autocomplete/dist") ++ rel)).
Proof. apply build_npm_packages_mirror. Qed.

Lemma web_assets_mirror_witness :
  let D := Demo.host true false [] Demo.never in
  let stale := Demo.add_file (Demo.root ++ ["build"; "dashboard"; "old.js"]) (Bytes "stale")
                 (Demo.add_file (Demo.root ++ ["build"; "autocomplete"; "old.js"])
                                (Bytes "stale") Demo.checkout) in
  let w' := (build_npm_packages D (Demo.start stale)).2 in
  fs w' !! (resolve D (OUTDIR D </> "dashboard") ++ ["index.html"])
  = stale !! (resolve D (Path_of "apps/dashboard/dist") ++ ["index.html"])
  ∧ fs w' !! (resolve D (OUTDIR D </> "dashboard") ++ ["old.js"])
    = stale !! (resolve D (Path_of "apps/dashboard/dist") ++ ["old.js"]).
Proof.
  intros D stale w'.
  destruct (run_returns_value (build_npm_packages D) (Demo.start stale)) as [r Hr];
    [vm_compute; reflexivity|].
  destruct (web_assets_mirror D (Demo.start stale) w' r "" "" stale stale
              (demo_pnpm_install stale) (demo_pnpm_build stale)) as (_ & Hdash & _).
  - intros Hnone. exfalso.
    assert (is_dir stale (resolve D (OUTDIR D </> "dashboard")) = true) as Hd
      by (vm_compute; reflexivity).
    unfold is_dir in Hd. rewrite Hnone in Hd. discriminate Hd.
  - intros Hnone. exfalso.
    assert (is_dir stale (resolve D (OUTDIR D </> "autocomplete")) = true) as Hd
      by (vm_compute; reflexivity).
    unfold is_dir in Hd. rewrite Hnone in Hd. discriminate Hd.
  - exact Hr.
  - split; apply Hdash.
Defined.

(** X9.  How [build_npm_packages] fails.  When [pnpm install] fails nothing
    else is run and nothing is copied.  When the staged [dashboard] path is a
    regular file, its removal is a silently ignored error and the copy then
    raises [EEXIST].  When the asset build left no [apps/dashboard/dist], the
    copy raises [ENOENT], and by then the dashboard staged before is gone. *)
Theorem web_assets_failures (H : Host) (w : World) :
  (respond H pnpm_install (fs w) = None →
   build_npm_packages H w
   = (Raise (ExternalError pnpm_install),
      MkWorld (fs w) (trace w ++ [pnpm_install]) (log w)))
  ∧ (∀ o1 o2 fsa fsb,
       respond H pnpm_install (fs w) = Some (o1, fsa) →
       respond H pnpm_build fsa = Some (o2, fsb) →
       (is_dir fsb (resolve H (Path_of "apps/dashboard/dist")) = true →
        is_file fsb (resolve H (OUTDIR H </> "dashboard")) = true →
        build_npm_packages H w
        = (Raise (OSError EEXIST (resolve H (OUTDIR H </> "dashboard"))),
           MkWorld fsb (trace w ++ [pnpm_install; pnpm_build]) (log w)))
       ∧ (fsb !! resolve H (Path_of "apps/dashboard/dist") = None →
          build_npm_packages H w
          = (Raise (OSError ENOENT (resolve H (Path_of "apps/dashboard/dist"))),
             MkWorld (rmtree (resolve H (OUTDIR H </> "dashboard")) fsb)
                     (trace w ++ [pnpm_install; pnpm_build]) (log w)))).
Proof.
  split; [apply build_npm_packages_install_fails|].
  intros o1 o2 fsa fsb Hi Hb. split.
  - by apply (build_npm_packages_occupied H w o1 o2 fsa fsb).
  - by apply (build_npm_packages_no_output H w o1 o2 fsa fsb).
Qed.

Lemma web_assets_failures_witness :
  let F := Demo.host true false [] (runs ["pnpm"; "install"]) in
  let D := Demo.host true false [] Demo.never in
  let occupied := Demo.add_file (Demo.root ++ ["build"; "dashboard"]) (Bytes "a file")
                                Demo.checkout in
  (build_npm_packages F (Demo.start Demo.checkout)).1 = Raise (ExternalError pnpm_install)
  ∧ (build_npm_packages D (Demo.start occupied)).1
    = Raise (OSError EEXIST (Demo.root ++ ["build"; "dashboard"]))
  ∧ (build_npm_packages D (Demo.start ∅)).1
    = Raise (OSError ENOENT (Demo.root ++ ["apps"; "dashboard"; "dist"])).
Proof.
  intros F D occupied. split_and!.
  - destruct (web_assets_failures F (Demo.start Demo.checkout)) as [Hfail _].
    by rewrite (Hfail eq_refl).
  - destruct (web_assets_failures D (Demo.start occupied)) as [_ Hbuilt].
    destruct (Hbuilt "" "" occupied occupied eq_refl eq_refl) as [Hocc _].
    by rewrite (Hocc eq_refl eq_refl).
  - destruct (web_assets_failures D (Demo.start ∅)) as [_ Hbuilt].
    destruct (Hbuilt "" "" ∅ ∅ eq_refl eq_refl) as [_ Hnone].
    by rewrite (Hnone eq_refl).
Defined.

(** X10.  [generate_sha] never fails on the shape of the tool's output: the
    checksum file is written with the text before the first space of what
    [shasum] printed (all of it when there is no space, the empty string when
    it starts with one), at the artifact's name followed by [.sha256].  It
    raises only when the tool fails, when the path has no name, or when the
    file cannot be written. *)
Theorem checksum_is_first_field (H : Host) (path : Path) (w : World) :
  match generate_sha H path w with
  | (Ok p, w') =>
      p = sidecar path
      ∧ ∃ out fs1 sha,
          respond H (shasum path) (fs w) = Some (out, fs1)
          ∧ has_space sha = false
          ∧ (out = sha ∨ ∃ rest, out = sha +:+ String " " rest)
          ∧ fs w' = <[resolve H (sidecar path) := File (Bytes sha)]> fs1
  | (Raise e, w') =>
      e = ExternalError (shasum path) ∨ e = ValueError "empty name" ∨ fs_error e
  end.
Proof. apply generate_sha_outcome. Qed.




(** X13.  [build_macos_ime] always returns the path
    [build/CodeWhispererInputMethod.app].  Without signing data it never
    calls the signing module; with signing data a run that returns ends with
    the signing and then the notarization of the input method bundle, the
    only two signing calls it makes. *)
Theorem input_method_signing (H : Host) (signing_data : option SigningData)
    (w w' : World) (p : Path) :
  build_macos_ime H signing_data w = (Ok p, w') →
  let app := Path_of "build/CodeWhispererInputMethod.app" in
  p = app
  ∧ match signing_data with
    | None => Forall (λ ev, is_signing ev = false) (drop (length (trace w)) (trace w'))
    | Some sd =>
        ∃ pre, trace w' = trace w ++ pre ++ [SignFile app IME sd; NotarizeFile app sd]
               ∧ Forall (λ ev, is_signing ev = false) pre
    end.
Proof.
  intros Hrun app. split; [by eapply build_macos_ime_returns|].
  destruct signing_data as [sd|].
  - by eapply build_macos_ime_signed.
  - pose proof (steady_events _ _ w (build_macos_ime_unsigned H)) as Hnone.
    unfold events_of, world_after in Hnone. by rewrite Hrun in Hnone.
Qed.

Lemma input_method_signing_witness :
  let D := Demo.host true false [] Demo.never in
  let w := Demo.start Demo.checkout in
  let app := Path_of "build/CodeWhispererInputMethod.app" in
  ∃ pre, trace (build_macos_ime D (Some Demo.the_signing_data) w).2
         = trace w ++ pre ++ [SignFile app IME Demo.the_signing_data;
                              NotarizeFile app Demo.the_signing_data]
         ∧ Forall (λ ev, is_signing ev = false) pre.
Proof.
  intros D w app.
  destruct (run_returns_value (build_macos_ime D (Some Demo.the_signing_data)) w)
    as [p Hp]; [vm_compute; reflexivity|].
  exact (proj2 (input_method_signing D (Some Demo.the_signing_data) w _ p Hp)).
Defined.

(** X14.  Errors of the configuration come before any effect.  When the
    command-line argument is not JSON, [main] raises the decoding error; when
    building the signing configuration raises, [main] raises the same error;
    in both cases nothing has been created, run or logged.  The signing
    configuration does raise when the three fields that switch signing on are
    given and the account id is missing: [KeyError('aws_account_id')]. *)
Theorem configuration_errors_first (H : Host) (w : World) :
  (json_loads H (command_line H) = None → main H w = (Raise JSONDecodeError, w))
  ∧ (∀ build_args e,
       json_loads H (command_line H) = Some build_args →
       (signing_data_of H build_args w).1 = Raise e →
       main H w = (Raise e, w))
  ∧ (∀ m, signing_configured H (JObj m) = true →
          is_Some (m !! "signing_bucket") →
          m !! "aws_account_id" = None →
          signing_data_of H (JObj m) w = (Raise (KeyError "aws_account_id"), w)).
Proof.
  split_and!.
  - apply main_malformed.
  - intros build_args e. apply main_configuration_error.
  - intros m. apply signing_data_of_incomplete.
Qed.

Lemma configuration_errors_first_witness :
  let B := Demo.host true false ["not json"] Demo.never in
  let I := Demo.host_with (JObj Demo.incomplete_signing) Demo.cargo_metadata true false in
  let w := Demo.start Demo.checkout in
  main B w = (Raise JSONDecodeError, w)
  ∧ main I w = (Raise (KeyError "aws_account_id"), w).
Proof.
  intros B I w. split.
  - destruct (configuration_errors_first B w) as [Hbad _]. exact (Hbad eq_refl).
  - destruct (configuration_errors_first I w) as (_ & Hmain & Hkey).
    apply (Hmain (JObj Demo.incomplete_signing) _ eq_refl).
    rewrite (Hkey Demo.incomplete_signing); [reflexivity|reflexivity| |reflexivity].
    by eexists.
Defined.

(** X15.  The commands of a macOS run of [main] that returns, with no
    signing configuration and no output bucket, are exactly, in this order:
    the web asset build, the tests, the compilation and merge of the CLI and
    of the terminal, then the bundle assembly (input method, two metadata
    queries, desktop build, the four metadata edits, the themes, the disk
    image) and the digest of the disk image. *)
Theorem macos_command_sequence (H : Host) (build_args : json) (w w' : World) :
  json_loads H (command_line H) = Some build_args →
  IS_DARWIN H = true →
  signing_configured H build_args = false →
  n H build_args "output_bucket" = false →
  main H w = (Ok tt, w') →
  trace w' = trace w ++ macos_commands H (features_of H build_args).
Proof.
  intros Hargs Hd Hs Hb Hrun.
  exact (main_emits_macos H build_args Hargs Hd Hs Hb w tt w' Hrun).
Qed.

Lemma macos_command_sequence_witness :
  let D := Demo.host true false [] Demo.never in
  let w := Demo.start Demo.checkout in
  trace (main D w).2 = trace w ++ macos_commands D None.
Proof.
  intros D w.
  apply (macos_command_sequence D (JObj ∅) w (main D w).2 eq_refl eq_refl eq_refl eq_refl).
  apply run_returns. vm_compute. reflexivity.
Defined.

(** X16.  The commands of a Linux run of [main] that returns without an
    output bucket are exactly the web asset build, the tests and the two
    single-target compilations, in this order, whether or not a signing
    configuration was given. *)
Theorem linux_command_sequence (H : Host) (build_args : json) (w w' : World) :
  json_loads H (command_line H) = Some build_args →
  IS_DARWIN H = false → IS_LINUX H = true →
  n H build_args "output_bucket" = false →
  main H w = (Ok tt, w') →
  trace w' = trace w ++ linux_commands H (features_of H build_args).
Proof.
  intros Hargs Hd Hl Hb Hrun.
  exact (main_emits_linux H build_args Hargs Hd Hl Hb w tt w' Hrun).
Qed.

Lemma linux_command_sequence_witness :
  let L := Demo.host false true [] Demo.never in
  let w := Demo.start Demo.checkout in
  trace (main L w).2 = trace w ++ linux_commands L None.
Proof.
  intros L w.
  apply (linux_command_sequence L (JObj ∅) w (main L w).2 eq_refl eq_refl eq_refl eq_refl).
  apply run_returns. vm_compute. reflexivity.
Defined.

(** X17.  [tauri_config] names the two external binaries by their path
    without the target suffix: for binaries staged under names that end in a
    dash and the target, as the compilation driver returns them on macOS, the
    configuration holds the paths of the staging directory joined with the
    bare names.  A path that does not end in that suffix is passed on
    whole. *)
Theorem external_binaries_without_suffix (H : Host) (target : string) :
  (∀ cw term,
     component cw → component (cw +:+ "-" +:+ target) →
     component term → component (term +:+ "-" +:+ target) →
     tauri_config H (OUTDIR H </> (cw +:+ "-" +:+ target))
                    (OUTDIR H </> (term +:+ "-" +:+ target)) target
     = external_bins H (str (OUTDIR H </> cw)) (str (OUTDIR H </> term)))
  ∧ (∀ p q,
       ¬ String.list_ascii_of_string ("-" +:+ target)
           `suffix_of` String.list_ascii_of_string (str p) →
       ¬ String.list_ascii_of_string ("-" +:+ target)
           `suffix_of` String.list_ascii_of_string (str q) →
       tauri_config H p q target = external_bins H (str p) (str q)).
Proof.
  split.
  - intros cw term. apply tauri_config_staged.
  - intros p q. apply tauri_config_other.
Qed.

Lemma external_binaries_without_suffix_witness :
  let D := Demo.host true false [] Demo.never in
  tauri_config D (OUTDIR D </> "cw-universal-apple-darwin")
                 (OUTDIR D </> "cwterm-universal-apple-darwin") "universal-apple-darwin"
  = external_bins D "/work/repo/build/cw" "/work/repo/build/cwterm".
Proof.
  intros D.
  destruct (external_binaries_without_suffix D "universal-apple-darwin") as [Hstaged _].
  exact (Hstaged "cw" "cwterm" eq_refl eq_refl eq_refl eq_refl).
Defined.
